(** * fitscroll: the feed generation pipeline and its two client adapters

    A shallow embedding of
      - the bridge client, [searchPinterest]
        (fitscroll - Pinterest bridge client; second listing of
        [unnamed/part_000], and its earlier revision, the first listing),
      - the generation client, [generateWithImages], [getEnvironment],
        [generateTryOn] and the two image loaders
        (fitscroll - Gemini image generation service, in [app/src/storage.ts]),
      - the generation screen's [runPipeline]
        (fitscroll - Feed generation screen, in [app/app/feed.tsx]),
    together with the shared types ([unnamed/part_001]), the persistence
    helpers the screen calls and the constants of [app/src/config.ts].

    Conventions.
      - JavaScript strings are Rocq [string]s read as ASCII text:
        [toLowerCase] and [trim] act on ASCII letters and ASCII white space.
      - JavaScript numbers that count things are [nat], HTTP statuses and
        milliseconds are [Z]; the progress fraction is an exact rational
        ([Q]) where the source computes with doubles.
      - Everything the program obtains from outside (HTTP replies, files,
        the clock, [Math.random]) comes from a [World] of oracles; a program
        is a function from a store of oracle cursors to an outcome, the new
        store and the events emitted, in program order.  Every [await]
        settles: a program returns or throws.
      - [console.log] and [console.warn] lines are not modelled. *)

From Stdlib Require Import ZArith QArith Qround Lia Lqa Sorted.
From Stdlib Require Import Ascii String DecimalString.
From stdpp Require Import base option list strings gmap.

Local Open Scope string_scope.
Local Open Scope list_scope.

(** ** JavaScript strings and values *)

Module JS.

(** [if (s)] on a string: the empty string is falsy. *)
Definition truthy (s : string) : bool := negb (String.eqb s "").

(** [if (x)] on a [string | null]. *)
Definition truthy_opt (x : option string) : bool :=
  match x with
  | Some s => truthy s
  | None => false
  end.

(** [a || b] on strings. *)
Definition or_else (a b : string) : string := if truthy a then a else b.

(** [a ?? b]. *)
Definition nullish {A : Type} (a : option A) (b : A) : A :=
  match a with
  | Some v => v
  | None => b
  end.

Definition lower_ascii (c : ascii) : ascii :=
  let n := nat_of_ascii c in
  if (65 <=? n)%nat && (n <=? 90)%nat then ascii_of_nat (n + 32) else c.

(** [s.toLowerCase()]. *)
Fixpoint toLowerCase (s : string) : string :=
  match s with
  | EmptyString => EmptyString
  | String c s' => String (lower_ascii c) (toLowerCase s')
  end.

Definition is_space (c : ascii) : bool :=
  let n := nat_of_ascii c in
  ((9 <=? n)%nat && (n <=? 13)%nat) || (n =? 32)%nat.

Fixpoint trimStart (s : string) : string :=
  match s with
  | EmptyString => EmptyString
  | String c s' => if is_space c then trimStart s' else s
  end.

(** Drops the white space at the end: a suffix made of white space only
    becomes empty. *)
Fixpoint trimEnd (s : string) : string :=
  match s with
  | EmptyString => EmptyString
  | String c s' =>
      match trimEnd s' with
      | EmptyString => if is_space c then EmptyString else String c EmptyString
      | r => String c r
      end
  end.

(** [s.trim()]. *)
Definition trim (s : string) : string := trimEnd (trimStart s).

(** [s.startsWith(t)]. *)
Fixpoint startsWith (s t : string) : bool :=
  match t, s with
  | EmptyString, _ => true
  | String _ _, EmptyString => false
  | String b t', String a s' => Ascii.eqb a b && startsWith s' t'
  end.

(** [s.includes(t)]: [t] occurs in [s] at some position. *)
Fixpoint includes (s t : string) : bool :=
  startsWith s t ||
  match s with
  | EmptyString => false
  | String _ s' => includes s' t
  end.

(** [s.slice(a, b)] for [0 <= a <= b]. *)
Definition slice (a b : nat) (s : string) : string := substring a (b - a) s.

(** [s.split(sep)[0]] for a one-character separator. *)
Fixpoint before (sep : ascii) (s : string) : string :=
  match s with
  | EmptyString => EmptyString
  | String c s' => if Ascii.eqb c sep then EmptyString else String c (before sep s')
  end.

(** Decimal rendering of a number inside a template literal. *)
Definition show_nat (n : nat) : string := NilZero.string_of_uint (Nat.to_uint n).
Definition show_Z (z : Z) : string := NilZero.string_of_int (Z.to_int z).

(** The names every object inherits from [Object.prototype]: [o[k]] is not
    [undefined] for them even when [o] has no such property of its own. *)
Definition Object_prototype_names : list string :=
  [ "constructor"; "__proto__"; "hasOwnProperty"; "isPrototypeOf";
    "propertyIsEnumerable"; "toLocaleString"; "toString"; "valueOf";
    "__defineGetter__"; "__defineSetter__"; "__lookupGetter__";
    "__lookupSetter__" ].

(** What [o[k]] can evaluate to on a [Record<string, string>] literal: one
    of its strings, or a member of [Object.prototype]. *)
Inductive Value : Type :=
| Str (v : string)
| ProtoMember (name : string).

(** [o[k]]; [None] is [undefined]. *)
Definition get (o : gmap string string) (k : string) : option Value :=
  match o !! k with
  | Some v => Some (Str v)
  | None =>
      if bool_decide (elem_of k Object_prototype_names) then Some (ProtoMember k)
      else None
  end.

End JS.

(** ** The shared types *)

(** A tagged product; the bridge's outfits carry products without [url]. *)
Module Product.
Record t : Type := mk
  { id : string; name : string; brand : string; priceLabel : string;
    url : option string }.
End Product.

Module Comment.
Record t : Type := mk
  { id : string; text : string; author : string; createdAt : string }.
End Comment.

Module OutfitPost.
Record t : Type := mk
  { id : string;
    images : list string;
    captionHint : string;
    products : list Product.t;
    liked : bool;
    likeCount : Z;
    commentCount : Z;
    comments : list Comment.t;
    createdAt : string }.
End OutfitPost.

Inductive Gender : Type := male | female | non_binary.

Module UserProfile.
Record t : Type := mk
  { photoUri : option string;
    gender : option Gender;
    keywords : list string;
    brands : list string;
    styles : list string;
    onboarded : bool }.
End UserProfile.

Module PinterestOutfit.
Record t : Type := mk
  { imageUrl : string;
    sourceUrl : string;
    captionHint : string;
    products : list Product.t }.
End PinterestOutfit.

(** ** Configuration ([app/src/config.ts]) *)

Module Config.
Record t : Type := mk
  { BRIDGE_URL : string;
    PINTEREST_FETCH_LIMIT : nat;
    GEMINI_API_KEY : string;
    GEMINI_MODEL : string }.
End Config.

(** ** The outside world *)

Inductive JsError : Type :=
| NetworkError        (* [fetch] rejected *)
| AbortError          (* the [AbortController] fired *)
| SyntaxError         (* a body is not JSON *)
| InvalidCharacterError (* [atob] on something that is not base64 *)
| FileSystemError     (* expo-file-system refused an operation *)
| TypeError.

(** A settled [fetch]: it took [elapsed] milliseconds and either rejected or
    gave a response.  Every [fetch] settles (the platform gives up on a
    connection by itself); the bridge client adds a timer of its own. *)
Inductive Fetched (B : Type) : Type :=
| Rejected (elapsed : Z)
| Responded (elapsed : Z) (status : Z) (body : B).
Arguments Rejected {B} elapsed.
Arguments Responded {B} elapsed status body.

(** [res.ok]. *)
Definition ok (status : Z) : bool := (200 <=? status)%Z && (status <=? 299)%Z.

(** The body of a bridge reply as [res.json()] and the read of its [outfits]
    member see it: not JSON (or JSON without members, such as [null]), or an
    object whose [outfits] may be missing. *)
Inductive BridgeBody : Type :=
| BridgeNotJson
| BridgeJson (outfits : option (list PinterestOutfit.t)).

(** The generation service's reply ([GeminiPart] and the shape
    [generateWithImages] reads); [GeminiNotJson] stands for every body whose
    reading throws. *)
Module InlineData.
Record t : Type := mk { mimeType : string; data : string }.
End InlineData.

Module GeminiPart.
Record t : Type := mk { text : option string; inlineData : option InlineData.t }.
End GeminiPart.

Module GeminiCandidate.
(** [content] and [content.parts] may both be missing. *)
Record t : Type := mk { content : option (option (list GeminiPart.t)) }.
End GeminiCandidate.

Inductive GeminiBody : Type :=
| GeminiNotJson
| GeminiJson (candidates : option (list GeminiCandidate.t))
             (promptFeedback : option string).

(** A remote image: its declared content type and its bytes, which
    [arrayBuffer()] may fail to deliver. *)
Module ImageBody.
Record t : Type := mk { contentType : option string; bytes : option string }.
End ImageBody.

(** A local file as [new File(uri)] finds it. *)
Inductive LocalFile : Type :=
| BadUri
| Missing
| Unreadable
| Readable (base64 : string) (extension : option string).

Module World.
Record t : Type := mk
  { (* the bridge, the image hosts and the generation service, by request number *)
    bridge : nat -> Fetched BridgeBody;
    image : nat -> string -> Fetched ImageBody.t;
    gemini : nat -> Fetched GeminiBody;
    (* the file system *)
    local : nat -> string -> LocalFile;
    profile_json : nat -> option UserProfile.t;
    mutation_ok : nat -> bool;
    document : string;
    join : string -> list string -> string;
    (* platform functions *)
    btoa : string -> string;
    atob : string -> option string;
    Date_now : nat -> Z;
    toISOString : Z -> string;
    Math_random : nat -> Q;
    toString36 : Q -> string;
    (* [String(Object.prototype[name])] *)
    show_member : string -> string }.
End World.

(** The cursors into the oracles: how many requests of each kind were made. *)
Module Store.
Record t : Type := mk
  { bridge_requests : nat;
    image_requests : nat;
    gemini_requests : nat;
    file_reads : nat;
    file_mutations : nat;
    clock_reads : nat;
    random_draws : nat }.
Definition init : t := mk 0 0 0 0 0 0 0.

Definition next_bridge (s : t) : t :=
  mk (S (bridge_requests s)) (image_requests s) (gemini_requests s)
     (file_reads s) (file_mutations s) (clock_reads s) (random_draws s).
Definition next_image (s : t) : t :=
  mk (bridge_requests s) (S (image_requests s)) (gemini_requests s)
     (file_reads s) (file_mutations s) (clock_reads s) (random_draws s).
Definition next_gemini (s : t) : t :=
  mk (bridge_requests s) (image_requests s) (S (gemini_requests s))
     (file_reads s) (file_mutations s) (clock_reads s) (random_draws s).
Definition next_read (s : t) : t :=
  mk (bridge_requests s) (image_requests s) (gemini_requests s)
     (S (file_reads s)) (file_mutations s) (clock_reads s) (random_draws s).
Definition next_mutation (s : t) : t :=
  mk (bridge_requests s) (image_requests s) (gemini_requests s)
     (file_reads s) (S (file_mutations s)) (clock_reads s) (random_draws s).
Definition next_clock (s : t) : t :=
  mk (bridge_requests s) (image_requests s) (gemini_requests s)
     (file_reads s) (file_mutations s) (S (clock_reads s)) (random_draws s).
Definition next_random (s : t) : t :=
  mk (bridge_requests s) (image_requests s) (gemini_requests s)
     (file_reads s) (file_mutations s) (clock_reads s) (S (random_draws s)).
End Store.

(** ** Programs: store passing, exceptions, and an append-only trace *)

Inductive Outcome (A : Type) : Type :=
| Returned (a : A)
| Thrown (e : JsError).
Arguments Returned {A} a.
Arguments Thrown {A} e.

Definition Prog (E A : Type) : Type := Store.t -> Outcome A * Store.t * list E.

Definition ret {E A} (a : A) : Prog E A := fun s => (Returned a, s, []).

Definition throw {E A} (e : JsError) : Prog E A := fun s => (Thrown e, s, []).

Definition bind {E A B} (m : Prog E A) (k : A -> Prog E B) : Prog E B :=
  fun s =>
    match m s with
    | (Returned a, s1, t1) =>
        match k a s1 with
        | (o, s2, t2) => (o, s2, t1 ++ t2)
        end
    | (Thrown e, s1, t1) => (Thrown e, s1, t1)
    end.

(** [try { m } catch (e) { h e }]. *)
Definition try_catch {E A} (m : Prog E A) (h : JsError -> Prog E A) : Prog E A :=
  fun s =>
    match m s with
    | (Returned a, s1, t1) => (Returned a, s1, t1)
    | (Thrown e, s1, t1) =>
        match h e s1 with
        | (o, s2, t2) => (o, s2, t1 ++ t2)
        end
    end.

Definition emit {E} (e : E) : Prog E unit := fun s => (Returned tt, s, [e]).

(** Runs a program whose events are of type [E1] inside one whose events are
    of type [E2]. *)
Definition lift {E1 E2 A} (f : E1 -> E2) (m : Prog E1 A) : Prog E2 A :=
  fun s =>
    match m s with
    | (o, s1, t1) => (o, s1, map f t1)
    end.

Definition outcome {E A} (r : Outcome A * Store.t * list E) : Outcome A := fst (fst r).
Definition store {E A} (r : Outcome A * Store.t * list E) : Store.t := snd (fst r).
Definition trace {E A} (r : Outcome A * Store.t * list E) : list E := snd r.

Declare Scope prog_scope.
Delimit Scope prog_scope with prog.
Notation "x <- m ;; k" := (bind m (fun x => k))
  (at level 100, m at next level, right associativity) : prog_scope.
Notation "m ;; k" := (bind m (fun _ => k))
  (at level 100, right associativity) : prog_scope.

Local Open Scope prog_scope.

(** ** What the clients do to the outside world *)

Module EncodedImage.
(** [{ base64, mimeType }]; the MIME type of a local file comes out of an
    object lookup and is a [JS.Value]. *)
Record t : Type := mk { base64 : string; mimeType : JS.Value }.
End EncodedImage.

Inductive IOEvent : Type :=
| BridgePost (url : string) (keywords : list string) (limit : nat)
             (fresh : bool) (signal : option Z)
| ImageGet (url : string)
| GeminiPost (url : string) (apiKey : string) (prompt : string)
             (images : list EncodedImage.t)
| Delay (ms : Z)
| FileRead (uri : string)
| ProfileRead
| DirectoryEnsure (path : list string)
| FileWrite (uri : string) (content : string)
| FeedWrite (posts : list OutfitPost.t).

Section Platform.

Variable W : World.t.

(** [fetch(url, { method: 'POST', ..., signal })] to the bridge: the request
    is the next one the bridge sees.  With [signal = Some timeoutMs] a timer
    aborts the request when it has not settled within [timeoutMs]. *)
Definition fetch_bridge (url : string) (keywords : list string) (limit : nat)
    (fresh : bool) (signal : option Z) : Prog IOEvent (Z * BridgeBody) :=
  fun s =>
    let s' := Store.next_bridge s in
    let t := [BridgePost url keywords limit fresh signal] in
    let in_time elapsed :=
      match signal with
      | Some timeoutMs => (elapsed <? timeoutMs)%Z
      | None => true
      end in
    match World.bridge W (Store.bridge_requests s) with
    | Rejected elapsed =>
        if in_time elapsed then (Thrown NetworkError, s', t)
        else (Thrown AbortError, s', t)
    | Responded elapsed status body =>
        if in_time elapsed then (Returned (status, body), s', t)
        else (Thrown AbortError, s', t)
    end.

(** [fetch(url)] of an image. *)
Definition fetch_image (url : string) : Prog IOEvent (Z * ImageBody.t) :=
  fun s =>
    let s' := Store.next_image s in
    match World.image W (Store.image_requests s) url with
    | Rejected _ => (Thrown NetworkError, s', [ImageGet url])
    | Responded _ status body => (Returned (status, body), s', [ImageGet url])
    end.

(** [fetch(url, { method: 'POST', headers, body })] to the generation
    service. *)
Definition fetch_gemini (url apiKey prompt : string)
    (images : list EncodedImage.t) : Prog IOEvent (Z * GeminiBody) :=
  fun s =>
    let s' := Store.next_gemini s in
    let t := [GeminiPost url apiKey prompt images] in
    match World.gemini W (Store.gemini_requests s) with
    | Rejected _ => (Thrown NetworkError, s', t)
    | Responded _ status body => (Returned (status, body), s', t)
    end.

(** [new File(uri)] with its [exists], [base64()] and [extension]. *)
Definition open_local (uri : string) : Prog IOEvent LocalFile :=
  fun s =>
    (Returned (World.local W (Store.file_reads s) uri), Store.next_read s,
     [FileRead uri]).

(** [readJSON(PROFILE_FILE, fallback)] finds a profile or not. *)
Definition read_profile_json : Prog IOEvent (option UserProfile.t) :=
  fun s =>
    (Returned (World.profile_json W (Store.file_reads s)), Store.next_read s,
     [ProfileRead]).

(** A change to the file system ([create], [write]); it can be refused. *)
Definition mutate (e : IOEvent) : Prog IOEvent unit :=
  fun s =>
    if World.mutation_ok W (Store.file_mutations s)
    then (Returned tt, Store.next_mutation s, [e])
    else (Thrown FileSystemError, Store.next_mutation s, [e]).

(** [Date.now()]. *)
Definition Date_now {E} : Prog E Z :=
  fun s => (Returned (World.Date_now W (Store.clock_reads s)), Store.next_clock s, []).

(** [Math.random()]. *)
Definition Math_random {E} : Prog E Q :=
  fun s =>
    (Returned (World.Math_random W (Store.random_draws s)), Store.next_random s, []).

(** [delay(ms)]. *)
Definition delay (ms : Z) : Prog IOEvent unit := emit (Delay ms).

(** [Math.random().toString(36).slice(2, 6)]. *)
Definition random_suffix {E} : Prog E string :=
  r <- Math_random ;; ret (JS.slice 2 6 (World.toString36 W r)).

(** [new Date().toISOString()]. *)
Definition now_iso {E} : Prog E string :=
  t <- Date_now ;; ret (World.toISOString W t).

End Platform.

(** ** The bridge client *)

Module Pinterest.

Section Client.

Variable W : World.t.
Variable cfg : Config.t.

(** [searchPinterest(keywords, limit, fresh)]. *)
Definition searchPinterest (keywords : list string) (limit : nat) (fresh : bool)
  : Prog IOEvent (list PinterestOutfit.t) :=
  let url := Config.BRIDGE_URL cfg +:+ "/search" in
  try_catch
    (let timeoutMs := if fresh then 120000%Z else 30000%Z in
     res <- fetch_bridge W url keywords limit fresh (Some timeoutMs) ;;
     let '(status, body) := res in
     if negb (ok status) then ret []
     else
       match body with
       | BridgeNotJson => throw SyntaxError
       | BridgeJson outfits => ret (JS.nullish outfits [])
       end)
    (fun _ => ret []).

(** The earlier revision of [searchPinterest], which passes no [signal] to
    [fetch]. *)
Definition searchPinterest_untimed (keywords : list string) (limit : nat)
    (fresh : bool) : Prog IOEvent (list PinterestOutfit.t) :=
  let url := Config.BRIDGE_URL cfg +:+ "/search" in
  try_catch
    (res <- fetch_bridge W url keywords limit fresh None ;;
     let '(status, body) := res in
     if negb (ok status) then ret []
     else
       match body with
       | BridgeNotJson => throw SyntaxError
       | BridgeJson outfits => ret (JS.nullish outfits [])
       end)
    (fun _ => ret []).

End Client.

End Pinterest.

(** ** The generation client *)

Module Gemini.

Definition BASE_URL : string :=
  "https://generativelanguage.googleapis.com/v1beta/models".
Definition MAX_RETRIES : nat := 2.
Definition RETRY_DELAY_MS : Z := 2000.

(** [p.inlineData?.data], when truthy. *)
Definition image_data (p : GeminiPart.t) : option string :=
  match GeminiPart.inlineData p with
  | Some d => if JS.truthy (InlineData.data d) then Some (InlineData.data d) else None
  | None => None
  end.

(** [c.content?.parts ?? []]. *)
Definition parts_of (c : GeminiCandidate.t) : list GeminiPart.t :=
  match GeminiCandidate.content c with
  | Some (Some ps) => ps
  | _ => []
  end.

(** The inner [for (const p of ...)]: the data of the first part that has
    some. *)
Fixpoint first_image_part (ps : list GeminiPart.t) : option string :=
  match ps with
  | [] => None
  | p :: ps' =>
      match image_data p with
      | Some d => Some d
      | None => first_image_part ps'
      end
  end.

(** The outer [for (const c of candidates)]. *)
Fixpoint first_image (cs : list GeminiCandidate.t) : option string :=
  match cs with
  | [] => None
  | c :: cs' =>
      match first_image_part (parts_of c) with
      | Some d => Some d
      | None => first_image cs'
      end
  end.

(** How one turn of a loop ends: [continue], or [return v]. *)
Inductive Turn (A : Type) : Type :=
| Continue
| Return (v : A).
Arguments Continue {A}.
Arguments Return {A} v.

Definition mimeMap : gmap string string :=
  list_to_map
    [ ("jpg", "image/jpeg"); ("jpeg", "image/jpeg"); ("png", "image/png");
      ("webp", "image/webp"); ("heic", "image/jpeg") ].

Definition STYLE_ENVIRONMENTS : gmap string string :=
  list_to_map
    [ ("streetwear", "walking through a gritty downtown area with industrial buildings, chain-link fences, and raw concrete — shot like a hypebeast Instagram post");
      ("minimalist", "standing in a clean Scandinavian-style apartment with floor-to-ceiling windows, neutral tones, and soft morning light filtering in");
      ("athleisure", "leaving a trendy juice bar or gym entrance on a sunny day, casually holding a coffee — candid street style vibe");
      ("vintage", "browsing through a thrift store or flea market with racks of clothes and warm tungsten lighting — effortlessly cool");
      ("preppy", "walking across a manicured Ivy League campus with brick buildings and autumn leaves, or lounging at a country club patio");
      ("y2k", "posing in a mirror selfie setup with LED strip lights, butterfly clips aesthetic, glossy surfaces, and a pink-tinted room");
      ("dark academia", "sitting in a moody European café or old bookstore with wooden shelves, espresso, and rain on the windows outside");
      ("cottagecore", "standing in a golden-hour flower field or a rustic farmhouse garden with a wicker basket — dreamy and soft-focus");
      ("techwear", "walking through a wet city underpass at night with harsh overhead fluorescent lights, puddles reflecting neon, and utilitarian architecture");
      ("old money", "stepping out of a luxury car onto a cobblestone European street, or on a yacht deck with the coastline behind — quiet luxury energy");
      ("casual", "hanging out at a rooftop bar or a beach-side café with friends, golden hour sunlight, relaxed and effortless");
      ("avant-garde", "posing in front of a brutalist concrete building or an abstract art installation — editorial, dramatic, high-fashion energy") ].

Definition DEFAULT_ENVIRONMENT : string :=
  "a stylish, photogenic location with beautiful natural lighting".

(** [getEnvironment(style)]. *)
Definition getEnvironment (style : string) : JS.Value :=
  let key := JS.trim (JS.toLowerCase style) in
  JS.nullish (JS.get STYLE_ENVIRONMENTS key) (JS.Str DEFAULT_ENVIRONMENT).

Section Client.

Variable W : World.t.
Variable cfg : Config.t.

(** [fetchImageAsBase64(url)]. *)
Definition fetchImageAsBase64 (url : string) : Prog IOEvent (option EncodedImage.t) :=
  try_catch
    (res <- fetch_image W url ;;
     let '(status, body) := res in
     if negb (ok status) then ret None
     else
       let contentType := JS.nullish (ImageBody.contentType body) "image/jpeg" in
       match ImageBody.bytes body with
       | None => throw NetworkError
       | Some buf =>
           let b64 := World.btoa W buf in
           ret (Some (EncodedImage.mk b64
                        (JS.Str (JS.trim (JS.before ";" contentType)))))
       end)
    (fun _ => ret None).

(** [readLocalImageAsBase64(uri)]. *)
Definition readLocalImageAsBase64 (uri : string) : Prog IOEvent (option EncodedImage.t) :=
  try_catch
    (file <- open_local W uri ;;
     match file with
     | BadUri => throw TypeError
     | Missing => ret None
     | Unreadable => throw FileSystemError
     | Readable b64 extension =>
         let ext := JS.toLowerCase (JS.nullish extension "jpg") in
         let mimeType := JS.nullish (JS.get mimeMap ext) (JS.Str "image/jpeg") in
         ret (Some (EncodedImage.mk b64 mimeType))
     end)
    (fun _ => ret None).

Definition generated_path (filename : string) : list string :=
  ["fitscroll"; "generated"; filename].

(** The body of [if (p.inlineData?.data) { ... }]: saves the image and gives
    the file's URI. *)
Definition save_generated (data : string) : Prog IOEvent string :=
  mutate W (DirectoryEnsure ["fitscroll"; "generated"]) ;;
  now <- Date_now W ;;
  suffix <- random_suffix W ;;
  let filename := "gen-" +:+ JS.show_Z now +:+ "-" +:+ suffix +:+ ".png" in
  let uri := World.join W (World.document W) (generated_path filename) in
  match World.atob W data with
  | None => throw InvalidCharacterError
  | Some raw =>
      mutate W (FileWrite uri raw) ;;
      ret uri
  end.

(** What a turn of the retry loop does once [fetch] has given a response:
    from [if (!res.ok)] to the [return null] that ends the [try] block. *)
Definition on_response (attempt : nat) (res : Z * GeminiBody)
  : Prog IOEvent (Turn (option string)) :=
  let '(status, body) := res in
  if negb (ok status) then
    if ((status =? 429)%Z || (500 <=? status)%Z) && (attempt <? MAX_RETRIES)%nat
    then ret Continue
    else ret (Return None)
  else
    match body with
    | GeminiNotJson => throw SyntaxError
    | GeminiJson candidates _ =>
        let candidates := JS.nullish candidates [] in
        if (length candidates =? 0)%nat then ret (Return None)
        else
          match first_image candidates with
          | Some data => uri <- save_generated data ;; ret (Return (Some uri))
          | None => ret (Return None)
          end
    end.

(** One turn of [for (let attempt = 0; attempt <= MAX_RETRIES; attempt++)]. *)
Definition attempt_turn (url prompt : string) (images : list EncodedImage.t)
    (attempt : nat) : Prog IOEvent (Turn (option string)) :=
  try_catch
    ((if (0 <? attempt)%nat then delay (RETRY_DELAY_MS * Z.of_nat attempt)
      else ret tt) ;;
     res <- fetch_gemini W url (Config.GEMINI_API_KEY cfg) prompt images ;;
     on_response attempt res)
    (fun _ =>
       if (attempt <? MAX_RETRIES)%nat then ret Continue
       else ret (Return None)).

(** The loop over the attempt numbers; when they run out, the [return null]
    after the loop. *)
Fixpoint attempts (url prompt : string) (images : list EncodedImage.t)
    (numbers : list nat) : Prog IOEvent (option string) :=
  match numbers with
  | [] => ret None
  | attempt :: later =>
      turn <- attempt_turn url prompt images attempt ;;
      match turn with
      | Continue => attempts url prompt images later
      | Return v => ret v
      end
  end.

(** [generateWithImages(prompt, images)]. *)
Definition generateWithImages (prompt : string) (images : list EncodedImage.t)
  : Prog IOEvent (option string) :=
  if negb (JS.truthy (Config.GEMINI_API_KEY cfg)) then ret None
  else
    let url := BASE_URL +:+ "/" +:+ Config.GEMINI_MODEL cfg +:+ ":generateContent" in
    attempts url prompt images (seq 0 (S MAX_RETRIES)).

Definition personWord (gender : option Gender) : string :=
  match gender with
  | Some female => "woman"
  | Some male => "man"
  | _ => "person"
  end.

(** [`${env}`]. *)
Definition show_value (v : JS.Value) : string :=
  match v with
  | JS.Str s => s
  | JS.ProtoMember name => World.show_member W name
  end.

Definition try_on_prompt (outfitDescription : string) (gender : option Gender)
    (env : JS.Value) : string :=
  let personWord := personWord gender in
  String.concat " "
    [ "You are a high-end fashion photographer AI. I'm giving you two images:";
      "IMAGE 1 is a photo of a " +:+ personWord +:+ ". IMAGE 2 is an outfit / fashion inspiration.";
      "Generate a new photorealistic image of the SAME " +:+ personWord +:+ " from IMAGE 1";
      "wearing the outfit shown in IMAGE 2.";
      "The outfit style is: " +:+ outfitDescription +:+ ".";
      "IMPORTANT: The photo must look like a real fashion photoshoot, NOT a studio photo.";
      "Set the scene in " +:+ show_value env +:+ ".";
      "The " +:+ personWord +:+ " should be posing naturally and confidently in this environment.";
      "Keep the " +:+ personWord +:+ "'s face, skin tone, hair, and body proportions identical to IMAGE 1.";
      "Full-body shot. Cinematic lighting. Professional fashion editorial quality.";
      "The photo should feel aspirational and Instagram-worthy." ].

(** The environment [generateTryOn] asks for:
    [getEnvironment(style ?? outfitDescription)]. *)
Definition try_on_environment (outfitDescription : string) (style : option string)
  : JS.Value :=
  getEnvironment (JS.nullish style outfitDescription).

(** [generateTryOn(userPhotoUri, outfitImageUrl, outfitDescription, gender, style)]. *)
Definition generateTryOn (userPhotoUri outfitImageUrl outfitDescription : string)
    (gender : option Gender) (style : option string) : Prog IOEvent (option string) :=
  userImg <- readLocalImageAsBase64 userPhotoUri ;;
  match userImg with
  | None => ret None
  | Some userImg =>
      outfitImg <- fetchImageAsBase64 outfitImageUrl ;;
      match outfitImg with
      | None => ret None
      | Some outfitImg =>
          let env := try_on_environment outfitDescription style in
          let prompt := try_on_prompt outfitDescription gender env in
          generateWithImages prompt [userImg; outfitImg]
      end
  end.

End Client.

End Gemini.

(** ** Local persistence ([app/src/storage.ts]), as far as the pipeline uses it *)

Module Storage.

Definition DEFAULT_PROFILE : UserProfile.t :=
  UserProfile.mk None None [] [] [] false.

Section Files.

Variable W : World.t.

(** [getProfile()]: [readJSON] swallows every failure. *)
Definition getProfile : Prog IOEvent UserProfile.t :=
  found <- read_profile_json W ;;
  ret (JS.nullish found DEFAULT_PROFILE).

(** [cacheFeed(posts)]: [ensureDir()] and then [file.write(...)]. *)
Definition cacheFeed (posts : list OutfitPost.t) : Prog IOEvent unit :=
  mutate W (DirectoryEnsure ["fitscroll"]) ;;
  mutate W (FeedWrite posts).

End Files.

End Storage.

(** ** The generation screen *)

(** What [runPipeline] imports: the storage helpers and the two clients. *)
Class Collaborators : Type :=
  { getProfile : Prog IOEvent UserProfile.t;
    cacheFeed : list OutfitPost.t -> Prog IOEvent unit;
    searchPinterest :
      list string -> nat -> bool -> Prog IOEvent (list PinterestOutfit.t);
    generateTryOn :
      string -> string -> string -> option Gender -> option string ->
      Prog IOEvent (option string) }.

(** The collaborators the application is built with. *)
Definition app (W : World.t) (cfg : Config.t) : Collaborators :=
  {| getProfile := Storage.getProfile W;
     cacheFeed := Storage.cacheFeed W;
     searchPinterest := Pinterest.searchPinterest W cfg;
     generateTryOn := Gemini.generateTryOn W cfg |}.

(** What a run does, in order: the calls it makes to its collaborators (each
    followed by what the collaborator did to the world), the updates of the
    screen's state, and, for [generateTryOn], how the call ended (the source
    logs it: a generated image, null, or an exception). *)
Inductive Event : Type :=
| IO (e : IOEvent)
| call_getProfile
| call_searchPinterest (keywords : list string) (limit : nat) (fresh : bool)
| call_generateTryOn (userPhotoUri outfitImageUrl outfitDescription : string)
                     (gender : option Gender) (style : option string)
| end_generateTryOn (result : Outcome (option string))
| call_cacheFeed (posts : list OutfitPost.t)
| setError (message : string)
| setStatus (status : string)
| setProgress (progress : Q)
| setTotal (total : nat)
| setCompleted (completed : nat)
| setPreviewUri (uri : string)
| setTimeout_replace (ms : Z) (route : string).

Definition NO_PHOTO : string := "No photo found. Please go back and upload one.".

Definition NO_OUTFITS : string :=
  String.concat ""
    [ "No outfits found." +:+ String "010" (String "010" "");
      "The bridge server may still be scraping, or pinscrape returned no results."
        +:+ String "010" "";
      "Check the Python server logs and try again." ].

Definition PIPELINE_ERROR : string :=
  "Something went wrong while generating your feed. Please try again.".

Definition DEFAULT_KEYWORDS : list string := ["fashion outfit inspiration"].

(** [profile.keywords.length > 0 ? profile.keywords : [...]]. *)
Definition keywords_of (profile : UserProfile.t) : list string :=
  if (0 <? length (UserProfile.keywords profile))%nat
  then UserProfile.keywords profile
  else DEFAULT_KEYWORDS.

(** [outfit.sourceUrl || outfit.imageUrl]. *)
Definition source_or_primary (outfit : PinterestOutfit.t) : string :=
  JS.or_else (PinterestOutfit.sourceUrl outfit) (PinterestOutfit.imageUrl outfit).

(** [profile.styles.length > 0 ? profile.styles[0] : null]. *)
Definition primaryStyle (profile : UserProfile.t) : option string :=
  if (0 <? length (UserProfile.styles profile))%nat
  then head (UserProfile.styles profile)
  else None.

(** The callback of [profile.styles.find]. *)
Definition caption_mentions (captionHint s : string) : bool :=
  JS.includes (JS.toLowerCase captionHint) (JS.toLowerCase s).

(** [profile.styles.find(...) ?? primaryStyle]. *)
Definition outfitStyle (profile : UserProfile.t) (outfit : PinterestOutfit.t)
  : option string :=
  match find (caption_mentions (PinterestOutfit.captionHint outfit))
             (UserProfile.styles profile) with
  | Some s => Some s
  | None => primaryStyle profile
  end.

(** [0.15 + (done / pinterestOutfits.length) * 0.8]. *)
Definition progress_after (done total : nat) : Q :=
  (15 # 100) + (inject_Z (Z.of_nat done) / inject_Z (Z.of_nat total)) * (8 # 10).

(** [Math.floor(Math.random() * k) + base]. *)
Definition random_count (r : Q) (k base : Z) : Z :=
  (Qfloor (r * inject_Z k) + base)%Z.

(** The locals the loop updates. *)
Module Loop.
Record t : Type := mk
  { posts : list OutfitPost.t; done : nat; aiSuccessCount : nat }.
End Loop.

Section Generating.

Variable W : World.t.
Variable cfg : Config.t.
Context {C : Collaborators}.

(** A post literal of the loop, without its [id]: the two random counts and
    the time stamp are drawn in the order the literal lists them. *)
Definition new_post (id : string) (images : list string)
    (outfit : PinterestOutfit.t) : Prog Event OutfitPost.t :=
  r1 <- Math_random W ;;
  r2 <- Math_random W ;;
  createdAt <- now_iso W ;;
  ret (OutfitPost.mk id images (PinterestOutfit.captionHint outfit)
         (PinterestOutfit.products outfit) false
         (random_count r1 500 50) (random_count r2 30 0) [] createdAt).

(** A post whose id has the random suffix. *)
Definition new_post_suffixed (prefix : string) (done : nat)
    (images : list string) (outfit : PinterestOutfit.t) : Prog Event OutfitPost.t :=
  now <- Date_now W ;;
  suffix <- random_suffix W ;;
  new_post (prefix +:+ "-" +:+ JS.show_Z now +:+ "-" +:+ JS.show_nat done
              +:+ "-" +:+ suffix)
           images outfit.

(** The post of the [catch] block: [`pin-${Date.now()}-${done}`]. *)
Definition new_post_plain (done : nat) (images : list string)
    (outfit : PinterestOutfit.t) : Prog Event OutfitPost.t :=
  now <- Date_now W ;;
  new_post ("pin-" +:+ JS.show_Z now +:+ "-" +:+ JS.show_nat done) images outfit.

(** The body of [for (const outfit of pinterestOutfits)].  Nothing in the
    [try] block can throw once [generateTryOn] has returned, so the [catch]
    block sees the locals as they were at the start of the turn. *)
Definition turn (profile : UserProfile.t) (userPhotoUri : string) (total : nat)
    (l : Loop.t) (outfit : PinterestOutfit.t) : Prog Event Loop.t :=
  let idx := (Loop.done l + 1)%nat in
  emit (setStatus ("Creating look " +:+ JS.show_nat idx +:+ " of "
                     +:+ JS.show_nat total +:+ "…")) ;;
  l1 <-
    try_catch
      (let imageUrlForGemini := source_or_primary outfit in
       let outfitStyle := outfitStyle profile outfit in
       emit (call_generateTryOn userPhotoUri imageUrlForGemini
               (PinterestOutfit.captionHint outfit) (UserProfile.gender profile)
               outfitStyle) ;;
       generatedUri <-
         lift IO (generateTryOn userPhotoUri imageUrlForGemini
                    (PinterestOutfit.captionHint outfit)
                    (UserProfile.gender profile) outfitStyle) ;;
       emit (end_generateTryOn (Returned generatedUri)) ;;
       match generatedUri with
       | Some uri =>
           if JS.truthy uri then
             emit (setPreviewUri uri) ;;
             post <- new_post_suffixed "gen" (Loop.done l)
                       [uri; source_or_primary outfit] outfit ;;
             ret (Loop.mk (Loop.posts l ++ [post]) (Loop.done l)
                    (Loop.aiSuccessCount l + 1))
           else
             post <- new_post_suffixed "pin" (Loop.done l)
                       [source_or_primary outfit] outfit ;;
             ret (Loop.mk (Loop.posts l ++ [post]) (Loop.done l)
                    (Loop.aiSuccessCount l))
       | None =>
           post <- new_post_suffixed "pin" (Loop.done l)
                     [source_or_primary outfit] outfit ;;
           ret (Loop.mk (Loop.posts l ++ [post]) (Loop.done l)
                  (Loop.aiSuccessCount l))
       end)
      (fun e =>
         emit (end_generateTryOn (Thrown e)) ;;
         post <- new_post_plain (Loop.done l) [source_or_primary outfit] outfit ;;
         ret (Loop.mk (Loop.posts l ++ [post]) (Loop.done l)
                (Loop.aiSuccessCount l))) ;;
  let done := (Loop.done l1 + 1)%nat in
  emit (setCompleted done) ;;
  emit (setProgress (progress_after done total)) ;;
  ret (Loop.mk (Loop.posts l1) done (Loop.aiSuccessCount l1)).

(** [for (const outfit of pinterestOutfits) { ... }]. *)
Fixpoint compose (profile : UserProfile.t) (userPhotoUri : string) (total : nat)
    (l : Loop.t) (outfits : list PinterestOutfit.t) : Prog Event Loop.t :=
  match outfits with
  | [] => ret l
  | outfit :: rest =>
      l' <- turn profile userPhotoUri total l outfit ;;
      compose profile userPhotoUri total l' rest
  end.

(** [runPipeline()]. *)
Definition runPipeline : Prog Event unit :=
  try_catch
    (emit call_getProfile ;;
     profile <- lift IO getProfile ;;
     match UserProfile.photoUri profile with
     | None => emit (setError NO_PHOTO)
     | Some userPhotoUri =>
         if negb (JS.truthy userPhotoUri) then emit (setError NO_PHOTO)
         else
           emit (setStatus "Finding outfit inspiration…") ;;
           emit (setProgress (5 # 100)) ;;
           let keywords := keywords_of profile in
           emit (call_searchPinterest keywords (Config.PINTEREST_FETCH_LIMIT cfg) true) ;;
           pinterestOutfits <-
             lift IO (searchPinterest keywords (Config.PINTEREST_FETCH_LIMIT cfg) true) ;;
           if (length pinterestOutfits =? 0)%nat then emit (setError NO_OUTFITS)
           else
             emit (setTotal (length pinterestOutfits)) ;;
             emit (setStatus "Downloading looks from Pinterest…") ;;
             emit (setProgress (15 # 100)) ;;
             emit (setStatus "Generating your personalized feed…") ;;
             l <- compose profile userPhotoUri (length pinterestOutfits)
                    (Loop.mk [] 0 0) pinterestOutfits ;;
             emit (setStatus
                     (if (0 <? Loop.aiSuccessCount l)%nat
                      then "Done! " +:+ JS.show_nat (Loop.aiSuccessCount l)
                             +:+ " AI looks generated"
                      else "Done! Loading your feed…")) ;;
             emit (setProgress 1) ;;
             (if (0 <? length (Loop.posts l))%nat
              then emit (call_cacheFeed (Loop.posts l)) ;;
                   lift IO (cacheFeed (Loop.posts l))
              else ret tt) ;;
             emit (setTimeout_replace 800 "/feed")
     end)
    (fun _ => emit (setError PIPELINE_ERROR)).

End Generating.

(** ** Reading a trace *)

Definition progress_of (e : Event) : option Q :=
  match e with
  | setProgress q => Some q
  | _ => None
  end.

Definition error_of (e : Event) : option string :=
  match e with
  | setError m => Some m
  | _ => None
  end.

Definition cached_of (e : Event) : option (list OutfitPost.t) :=
  match e with
  | call_cacheFeed posts => Some posts
  | _ => None
  end.

Definition try_on_of (e : Event)
  : option (string * string * string * option Gender * option string) :=
  match e with
  | call_generateTryOn u o d g s => Some (u, o, d, g, s)
  | _ => None
  end.

Definition result_of (e : Event) : option (Outcome (option string)) :=
  match e with
  | end_generateTryOn r => Some r
  | _ => None
  end.

Definition reference_of (e : Event) : option string :=
  match e with
  | call_generateTryOn _ outfitImageUrl _ _ _ => Some outfitImageUrl
  | _ => None
  end.

Definition search_of (e : Event) : option (list string * nat * bool) :=
  match e with
  | call_searchPinterest k l f => Some (k, l, f)
  | _ => None
  end.

(** The values the progress bar was given, in order. *)
Definition progress_values (t : list Event) : list Q := omap progress_of t.

(** The error message the screen ends up showing, if any. *)
Definition final_error (t : list Event) : option string := last (omap error_of t).

(** The feed entries handed over for persistence. *)
Definition produced (t : list Event) : list OutfitPost.t :=
  concat (omap cached_of t).

(** The calls to [generateTryOn], with their arguments. *)
Definition try_on_calls (t : list Event) := omap try_on_of t.

(** How the calls to [generateTryOn] ended, and the reference image each
    was given. *)
Definition try_on_results (t : list Event) := omap result_of t.
Definition try_on_references (t : list Event) := omap reference_of t.

(** The calls to [searchPinterest]. *)
Definition search_calls (t : list Event) := omap search_of t.

(** The image list the loop gives an entry when the call to
    [generateTryOn] ended with [r] and [reference] is the candidate's
    source-or-primary locator. *)
Definition images_for (r : Outcome (option string)) (reference : string)
  : list string :=
  match r with
  | Returned (Some uri) => if JS.truthy uri then [uri; reference] else [reference]
  | _ => [reference]
  end.

(** An entry made from a candidate: its caption and products, and either
    the candidate's image alone or a generated image in front of it. *)
Definition entry_of (outfit : PinterestOutfit.t) (post : OutfitPost.t) : Prop :=
  OutfitPost.captionHint post = PinterestOutfit.captionHint outfit /\
  OutfitPost.products post = PinterestOutfit.products outfit /\
  (OutfitPost.images post = [source_or_primary outfit] \/
   exists uri, JS.truthy uri = true /\
               OutfitPost.images post = [uri; source_or_primary outfit]).

(** A candidate together with how its call to [generateTryOn] ended, and the
    entry made from the two. *)
Definition Row : Type := PinterestOutfit.t * Outcome (option string).

Definition made_from (row : Row) (post : OutfitPost.t) : Prop :=
  OutfitPost.captionHint post = PinterestOutfit.captionHint (fst row) /\
  OutfitPost.products post = PinterestOutfit.products (fst row) /\
  OutfitPost.images post = images_for (snd row) (source_or_primary (fst row)).

(** The events that mark the run's structure: the calls to collaborators and
    the numeric state updates.  What collaborators do to the world, the
    status line, the preview and the navigation timer are left out. *)
Definition structural (e : Event) : bool :=
  match e with
  | IO _ | setStatus _ | setPreviewUri _ | setTimeout_replace _ _ => false
  | _ => true
  end.

Definition skeleton (t : list Event) : list Event := List.filter structural t.

(** The arguments [turn] calls [generateTryOn] with. *)
Definition call_for (profile : UserProfile.t) (userPhotoUri : string)
    (outfit : PinterestOutfit.t) : Event :=
  call_generateTryOn userPhotoUri (source_or_primary outfit)
    (PinterestOutfit.captionHint outfit) (UserProfile.gender profile)
    (outfitStyle profile outfit).

(** The skeleton of the turns for [rows], the first of which is turn
    number [k]. *)
Fixpoint turns_skeleton (profile : UserProfile.t) (userPhotoUri : string)
    (total k : nat) (rows : list Row) : list Event :=
  match rows with
  | [] => []
  | row :: rest =>
      call_for profile userPhotoUri (fst row)
        :: end_generateTryOn (snd row)
        :: setCompleted k
        :: setProgress (progress_after k total)
        :: turns_skeleton profile userPhotoUri total (S k) rest
  end.

(** The skeleton of a run that reached the loop: after the hand-over to
    [cacheFeed] comes the generic error when that call threw. *)
Definition composed_skeleton (cfg : Config.t) (profile : UserProfile.t)
    (photo : string) (rows : list Row)
    (posts : list OutfitPost.t) (cached : bool) : list Event :=
  [ call_getProfile; setProgress (5 # 100);
    call_searchPinterest (keywords_of profile)
      (Config.PINTEREST_FETCH_LIMIT cfg) true;
    setTotal (length rows); setProgress (15 # 100) ] ++
  turns_skeleton profile photo (length rows) 1 rows ++
  [ setProgress 1; call_cacheFeed posts ] ++
  (if cached then [] else [setError PIPELINE_ERROR]).

(** The arguments of the call [turn] makes for [outfit]. *)
Definition try_on_args (profile : UserProfile.t) (userPhotoUri : string)
    (outfit : PinterestOutfit.t)
  : string * string * string * option Gender * option string :=
  (userPhotoUri, source_or_primary outfit, PinterestOutfit.captionHint outfit,
   UserProfile.gender profile, outfitStyle profile outfit).

(** ** A small world to run the program in *)

Module Demo.

Definition cfg : Config.t :=
  Config.mk "http://localhost:8000" 10 "test-key" "gemini-2.5-flash-image".

Definition profile : UserProfile.t :=
  UserProfile.mk (Some "file:///docs/selfie.heic") (Some female)
    ["y2k outfit"] [] ["Streetwear"; "Y2K"] true.

Definition look1 : PinterestOutfit.t :=
  PinterestOutfit.mk "http://localhost:8000/img/1.jpg"
    "https://i.pinimg.com/originals/1.jpg" "best y2k streetwear look" [].

Definition look2 : PinterestOutfit.t :=
  PinterestOutfit.mk "http://localhost:8000/img/2.jpg" "" "cozy knit"
    [Product.mk "p1" "Knit" "Acme" "$40" None].

Definition outfits : list PinterestOutfit.t := [look1; look2].

Definition text_only : GeminiCandidate.t :=
  GeminiCandidate.mk (Some (Some [GeminiPart.mk (Some "Here is your look") None])).

Definition with_image : GeminiCandidate.t :=
  GeminiCandidate.mk
    (Some (Some [ GeminiPart.mk (Some "Done") None;
                  GeminiPart.mk None (Some (InlineData.mk "image/png" "aGVsbG8=")) ])).

(** The bridge answers a fresh search after 45 s with two looks; the
    generation service answers the first request with a text-only candidate
    followed by one with an image, and rejects every later request as bad. *)
Definition world : World.t :=
  World.mk
    (fun _ => Responded 45000 200 (BridgeJson (Some outfits)))
    (fun _ _ => Responded 120 200
                  (ImageBody.mk (Some "image/jpeg; charset=binary") (Some "bytes")))
    (fun n =>
       match n with
       | 0 => Responded 900 200 (GeminiJson (Some [text_only; with_image]) None)
       | _ => Responded 80 400 GeminiNotJson
       end)
    (fun _ _ => Readable "c2VsZmll" (Some "HEIC"))
    (fun _ => Some profile)
    (fun _ => true)
    "file:///docs"
    (fun base path => base +:+ "/" +:+ String.concat "/" path)
    (fun bytes => "b64:" +:+ bytes)
    (fun data => Some ("raw:" +:+ data))
    (fun n => (1700000000000 + Z.of_nat n)%Z)
    (fun t => "T" +:+ JS.show_Z t)
    (fun _ => 1 # 2)
    (fun _ => "0.i")
    (fun name => "[" +:+ name +:+ "]").

(** The same world with a profile that has no photo. *)
Definition world_without_photo : World.t :=
  World.mk (World.bridge world) (World.image world) (World.gemini world)
    (World.local world) (fun _ => None) (World.mutation_ok world)
    (World.document world) (World.join world) (World.btoa world)
    (World.atob world) (World.Date_now world) (World.toISOString world)
    (World.Math_random world) (World.toString36 world) (World.show_member world).

(** The same world with a bridge that answers a fresh search only after
    150 s. *)
Definition world_slow_bridge : World.t :=
  World.mk (fun _ => Responded 150000 200 (BridgeJson (Some outfits)))
    (World.image world) (World.gemini world)
    (World.local world) (World.profile_json world) (World.mutation_ok world)
    (World.document world) (World.join world) (World.btoa world)
    (World.atob world) (World.Date_now world) (World.toISOString world)
    (World.Math_random world) (World.toString36 world) (World.show_member world).


(** The same world with a generation service that is always overloaded. *)
Definition world_busy_gemini : World.t :=
  World.mk (World.bridge world) (World.image world)
    (fun n => Responded 50 503 GeminiNotJson)
    (World.local world) (World.profile_json world) (World.mutation_ok world)
    (World.document world) (World.join world) (World.btoa world)
    (World.atob world) (World.Date_now world) (World.toISOString world)
    (World.Math_random world) (World.toString36 world) (World.show_member world).

End Demo.

(** The five ways a run can go, read off its skeleton: [getProfile] threw;
    the profile has no photo; [searchPinterest] threw; it found nothing; the
    loop ran over what it found. *)
Inductive RunShape (cfg : Config.t) : list Event -> Prop :=
| ProfileFailed :
    RunShape cfg [call_getProfile; setError PIPELINE_ERROR]
| NoPhoto :
    RunShape cfg [call_getProfile; setError NO_PHOTO]
| SearchFailed profile :
    RunShape cfg
      [ call_getProfile; setProgress (5 # 100);
        call_searchPinterest (keywords_of profile)
          (Config.PINTEREST_FETCH_LIMIT cfg) true;
        setError PIPELINE_ERROR ]
| NoOutfits profile :
    RunShape cfg
      [ call_getProfile; setProgress (5 # 100);
        call_searchPinterest (keywords_of profile)
          (Config.PINTEREST_FETCH_LIMIT cfg) true;
        setError NO_OUTFITS ]
| Composed profile photo rows posts cached :
    rows <> [] ->
    Forall2 made_from rows posts ->
    RunShape cfg (composed_skeleton cfg profile photo rows posts cached).

(** The event reports full progress. *)
Definition reports_full (e : Event) : Prop :=
  exists q, e = setProgress q /\ q == 1.

(** The spec's pinned scenario for the style hint, and the same tags in the
    other order. *)
Module Scenario.

Definition caption : PinterestOutfit.t :=
  PinterestOutfit.mk "http://localhost:8000/img/1.jpg" ""
    "best y2k streetwear look" [].

Definition tagged (styles : list string) : UserProfile.t :=
  UserProfile.mk (Some "file:///docs/selfie.jpg") None [] [] styles true.

End Scenario.

(** ** Reading the generation client's trace *)

(** The requests to the generation service and the waits between them. *)
Inductive Tick : Type :=
| Request
| Wait (ms : Z).

Definition tick_of (e : IOEvent) : option Tick :=
  match e with
  | GeminiPost _ _ _ _ => Some Request
  | Delay ms => Some (Wait ms)
  | _ => None
  end.

Definition schedule (t : list IOEvent) : list Tick := omap tick_of t.

(** What [attempts] does at most: three requests, 2 s and 4 s apart. *)
Definition RETRY_PLAN : list Tick :=
  [Request; Wait 2000; Request; Wait 4000; Request].

(** The ticks of attempts number [a], [a+1], ..., [a+n-1]. *)
Fixpoint plan_from (a n : nat) : list Tick :=
  match n with
  | 0 => []
  | S n' =>
      (if (0 <? a)%nat then [Wait (Gemini.RETRY_DELAY_MS * Z.of_nat a)] else [])
        ++ Request :: plan_from (S a) n'
  end.

(** Status 429 or 500 and above. *)
Definition transient (status : Z) : bool := (status =? 429)%Z || (500 <=? status)%Z.

(** The reply to the [k]-th request made from store [s] on. *)
Definition reply_at (W : World.t) (s : Store.t) (k : nat) : Fetched GeminiBody :=
  World.gemini W (Store.gemini_requests s + k).

(** The reply is a response with a transient status. *)
Definition transient_reply (r : Fetched GeminiBody) : Prop :=
  match r with
  | Rejected _ => False
  | Responded _ status _ => transient status = true
  end.

(** The reply is a response with a non-success status that is not
    transient. *)
Definition terminal_reply (r : Fetched GeminiBody) : Prop :=
  match r with
  | Rejected _ => False
  | Responded _ status _ => ok status = false /\ transient status = false
  end.

(** The reply is a success response without any image part: no candidates
    (as after a content-safety rejection) or text only. *)
Definition imageless_reply (r : Fetched GeminiBody) : Prop :=
  match r with
  | Responded _ status (GeminiJson candidates _) =>
      ok status = true /\ Gemini.first_image (JS.nullish candidates []) = None
  | _ => False
  end.

(** Handling the reply can throw: the request was rejected, or the response
    is a success whose body is not JSON or whose image has to be saved. *)
Definition can_throw (r : Fetched GeminiBody) : Prop :=
  match r with
  | Rejected _ => True
  | Responded _ status GeminiNotJson => ok status = true
  | Responded _ status (GeminiJson candidates _) =>
      ok status = true /\
      exists data, Gemini.first_image (JS.nullish candidates []) = Some data
  end.


(** How a failed attempt ends: with another attempt while the budget lasts,
    with null after the last one. *)
Definition retry_or_null (attempt : nat) : Gemini.Turn (option string) :=
  if (attempt <? Gemini.MAX_RETRIES)%nat then Gemini.Continue
  else Gemini.Return None.

(** * The rest of the application *)

From Stdlib Require Import DecimalNat.

(** ** Reading what the image loaders were given *)

(** The local file can be read. *)
Definition readable (f : LocalFile) : bool :=
  match f with
  | Readable _ _ => true
  | _ => false
  end.

(** The remote image arrived: a success response whose bytes were
    delivered. *)
Definition delivered (r : Fetched ImageBody.t) : bool :=
  match r with
  | Responded _ status body =>
      ok status && match ImageBody.bytes body with Some _ => true | None => false end
  | Rejected _ => false
  end.

(** The character occurs in the string. *)
Fixpoint has_char (c : ascii) (s : string) : bool :=
  match s with
  | EmptyString => false
  | String d s' => Ascii.eqb d c || has_char c s'
  end.

(** ** Reading the whole of what the generation screen shows *)

(** The locator [generateTryOn] produced, when the loop counts the call as a
    success. *)
Definition generated (r : Outcome (option string)) : option string :=
  match r with
  | Returned (Some uri) => if JS.truthy uri then Some uri else None
  | _ => None
  end.

(** The number of candidates whose call was a success. *)
Definition successes (rows : list Row) : nat :=
  length (List.filter (fun row => match generated (snd row) with
                                  | Some _ => true
                                  | None => false
                                  end) rows).

(** Everything but what collaborators did to the world. *)
Definition visible (e : Event) : bool :=
  match e with
  | IO _ => false
  | _ => true
  end.

Definition screen (t : list Event) : list Event := List.filter visible t.

Definition turn_status (k total : nat) : string :=
  "Creating look " +:+ JS.show_nat k +:+ " of " +:+ JS.show_nat total +:+ "…".

Definition done_status (aiSuccessCount : nat) : string :=
  if (0 <? aiSuccessCount)%nat
  then "Done! " +:+ JS.show_nat aiSuccessCount +:+ " AI looks generated"
  else "Done! Loading your feed…".

(** What the screen shows during the turns for [rows], the first of which is
    turn number [k]. *)
Fixpoint turns_screen (profile : UserProfile.t) (userPhotoUri : string)
    (total k : nat) (rows : list Row) : list Event :=
  match rows with
  | [] => []
  | row :: rest =>
      setStatus (turn_status k total)
        :: call_for profile userPhotoUri (fst row)
        :: end_generateTryOn (snd row)
        :: match generated (snd row) with
           | Some uri => [setPreviewUri uri]
           | None => []
           end
        ++ setCompleted k
        :: setProgress (progress_after k total)
        :: turns_screen profile userPhotoUri total (S k) rest
  end.

(** What the screen shows in a run that reached the loop. *)
Definition composed_screen (cfg : Config.t) (profile : UserProfile.t)
    (photo : string) (rows : list Row) (posts : list OutfitPost.t)
    (cached : bool) : list Event :=
  [ call_getProfile;
    setStatus "Finding outfit inspiration…"; setProgress (5 # 100);
    call_searchPinterest (keywords_of profile)
      (Config.PINTEREST_FETCH_LIMIT cfg) true;
    setTotal (length rows);
    setStatus "Downloading looks from Pinterest…"; setProgress (15 # 100);
    setStatus "Generating your personalized feed…" ] ++
  turns_screen profile photo (length rows) 1 rows ++
  [ setStatus (done_status (successes rows)); setProgress 1;
    call_cacheFeed posts;
    if cached then setTimeout_replace 800 "/feed" else setError PIPELINE_ERROR ].

(** An entry as the loop makes it in the turn that starts with [done]
    completed candidates: its id carries a clock value and [done], it is not
    liked and has no comments, and its two counts come from two random
    draws. *)
Definition fresh_entry (W : World.t) (done : nat) (post : OutfitPost.t) : Prop :=
  (exists prefix n tail,
     OutfitPost.id post =
       prefix +:+ "-" +:+ JS.show_Z (World.Date_now W n) +:+ "-"
         +:+ JS.show_nat done +:+ tail /\
     (prefix = "gen" \/ prefix = "pin") /\
     (tail = "" \/ exists suffix, tail = "-" +:+ suffix)) /\
  OutfitPost.liked post = false /\
  OutfitPost.comments post = [] /\
  (exists n, OutfitPost.likeCount post
             = random_count (World.Math_random W n) 500 50) /\
  (exists n, OutfitPost.commentCount post
             = random_count (World.Math_random W n) 30 0).

(** The ways a run can go, read off what the screen shows. *)
Inductive RunScreen (W : World.t) (cfg : Config.t) : list Event -> Prop :=
| ScreenProfileFailed :
    RunScreen W cfg [call_getProfile; setError PIPELINE_ERROR]
| ScreenNoPhoto :
    RunScreen W cfg [call_getProfile; setError NO_PHOTO]
| ScreenSearchFailed profile :
    RunScreen W cfg
      [ call_getProfile;
        setStatus "Finding outfit inspiration…"; setProgress (5 # 100);
        call_searchPinterest (keywords_of profile)
          (Config.PINTEREST_FETCH_LIMIT cfg) true;
        setError PIPELINE_ERROR ]
| ScreenNoOutfits profile :
    RunScreen W cfg
      [ call_getProfile;
        setStatus "Finding outfit inspiration…"; setProgress (5 # 100);
        call_searchPinterest (keywords_of profile)
          (Config.PINTEREST_FETCH_LIMIT cfg) true;
        setError NO_OUTFITS ]
| ScreenComposed profile photo rows posts cached :
    rows <> [] ->
    Forall2 made_from rows posts ->
    Forall2 (fresh_entry W) (seq 0 (length rows)) posts ->
    RunScreen W cfg (composed_screen cfg profile photo rows posts cached).

(** What the screen was told, kind by kind. *)
Definition status_of (e : Event) : option string :=
  match e with
  | setStatus m => Some m
  | _ => None
  end.

Definition preview_of (e : Event) : option string :=
  match e with
  | setPreviewUri uri => Some uri
  | _ => None
  end.

Definition completed_of (e : Event) : option nat :=
  match e with
  | setCompleted k => Some k
  | _ => None
  end.

Definition total_of (e : Event) : option nat :=
  match e with
  | setTotal n => Some n
  | _ => None
  end.

Definition navigation_of (e : Event) : option (Z * string) :=
  match e with
  | setTimeout_replace ms path => Some (ms, path)
  | _ => None
  end.

Definition statuses (t : list Event) : list string := omap status_of t.
Definition previews (t : list Event) : list string := omap preview_of t.
Definition completed_counts (t : list Event) : list nat := omap completed_of t.
Definition totals (t : list Event) : list nat := omap total_of t.
Definition navigations (t : list Event) : list (Z * string) := omap navigation_of t.

(** The generated image in front of an entry's candidate image, if the
    entry has one. *)
Definition generated_image (post : OutfitPost.t) : option string :=
  match OutfitPost.images post with
  | [uri; _] => Some uri
  | _ => None
  end.

(** What the run leaves behind, as far as the screen and the feed go. *)
Module Digest.
Record t : Type := mk
  { produced : list OutfitPost.t;
    statuses : list string;
    previews : list string;
    completed : list nat;
    totals : list nat;
    navigations : list (Z * string);
    error : option string }.
End Digest.

Definition digest (t : list Event) : Digest.t :=
  Digest.mk (produced t) (statuses t) (previews t) (completed_counts t)
    (totals t) (navigations t) (final_error t).

(** A run that stopped before the loop shows at most the first status line,
    and ends with an error message. *)
Definition aborted (statuses : list string) (error : string) : Digest.t :=
  Digest.mk [] statuses [] [] [] [] (Some error).

(** A run that reached the loop. *)
Definition composed (rows : list Row) (posts : list OutfitPost.t)
    (cached : bool) : Digest.t :=
  Digest.mk posts
    ([ "Finding outfit inspiration…"; "Downloading looks from Pinterest…";
       "Generating your personalized feed…" ] ++
     map (fun i => turn_status i (length rows)) (seq 1 (length rows)) ++
     [ done_status (successes rows) ])
    (omap (fun row : Row => generated (snd row)) rows)
    (seq 1 (length rows))
    [ length rows ]
    (if cached then [(800%Z, "/feed")] else [])
    (if cached then None else Some PIPELINE_ERROR).

Inductive RunDigest (W : World.t) : Digest.t -> Prop :=
| DigestAborted statuses error :
    In (statuses, error)
       [ ([], PIPELINE_ERROR); ([], NO_PHOTO);
         (["Finding outfit inspiration…"], PIPELINE_ERROR);
         (["Finding outfit inspiration…"], NO_OUTFITS) ] ->
    RunDigest W (aborted statuses error)
| DigestComposed rows posts cached :
    rows <> [] ->
    Forall2 made_from rows posts ->
    Forall2 (fresh_entry W) (seq 0 (length rows)) posts ->
    RunDigest W (composed rows posts cached).

(** ** Decimal digits *)

Definition is_digit (c : ascii) : bool :=
  (48 <=? nat_of_ascii c)%nat && (nat_of_ascii c <=? 57)%nat.

Fixpoint digits (s : string) : bool :=
  match s with
  | EmptyString => true
  | String c s' => is_digit c && digits s'
  end.

(** ** Entries as the loop makes them *)

(** [Math.random()] returns a number in [[0, 1)]. *)
Definition unit_interval (W : World.t) : Prop :=
  forall n, (0 <= World.Math_random W n)%Q /\ (World.Math_random W n < 1)%Q.

(** The clock does not read a time before 1970. *)
Definition clock_after_epoch (W : World.t) : Prop :=
  forall n, (0 <= World.Date_now W n)%Z.

(** The social state a new entry starts with. *)
Definition untouched (post : OutfitPost.t) : Prop :=
  OutfitPost.liked post = false /\
  OutfitPost.comments post = [] /\
  (50 <= OutfitPost.likeCount post <= 549)%Z /\
  (0 <= OutfitPost.commentCount post <= 29)%Z.

(** ** The persistence layer on a disk ([app/src/storage.ts])

    The four files hold what the application wrote: a file is absent, or
    cannot be read as JSON of the expected shape, or holds a value.  A
    refused [create] or [write] throws and changes nothing.  Whether the
    platform permits a change comes from the world's oracle, as before. *)

Module Disk.

Inductive File (A : Type) : Type :=
| Absent
| Unreadable
| Holds (a : A).
Arguments Absent {A}.
Arguments Unreadable {A}.
Arguments Holds {A} a.

Record t : Type := mk
  { dir_exists : bool;
    profile : File UserProfile.t;
    feed : File (list OutfitPost.t);
    likes : File (gmap string bool);
    comments : File (gmap string (list Comment.t)) }.

Definition empty : t := mk false Absent Absent Absent Absent.

(** [new File(DIR, name)]: where a file's content is on the disk. *)
Record Handle (A : Type) : Type := handle
  { content : t -> File A;
    put : File A -> t -> t }.
Arguments handle {A} content put.
Arguments content {A} h d.
Arguments put {A} h f d.

End Disk.

Definition PROFILE_FILE : Disk.Handle UserProfile.t :=
  Disk.handle Disk.profile
    (fun f d => Disk.mk (Disk.dir_exists d) f (Disk.feed d) (Disk.likes d)
                  (Disk.comments d)).

Definition FEED_FILE : Disk.Handle (list OutfitPost.t) :=
  Disk.handle Disk.feed
    (fun f d => Disk.mk (Disk.dir_exists d) (Disk.profile d) f (Disk.likes d)
                  (Disk.comments d)).

Definition LIKES_FILE : Disk.Handle (gmap string bool) :=
  Disk.handle Disk.likes
    (fun f d => Disk.mk (Disk.dir_exists d) (Disk.profile d) (Disk.feed d) f
                  (Disk.comments d)).

Definition COMMENTS_FILE : Disk.Handle (gmap string (list Comment.t)) :=
  Disk.handle Disk.comments
    (fun f d => Disk.mk (Disk.dir_exists d) (Disk.profile d) (Disk.feed d)
                  (Disk.likes d) f).

(** Objects used as [Record<string, V>]. *)
Module Obj.

(** What [o[k]] evaluates to: a value of the object's own, a member of
    [Object.prototype], or [undefined]. *)
Inductive Value (V : Type) : Type :=
| Own (v : V)
| Inherited (name : string)
| Undefined.
Arguments Own {V} v.
Arguments Inherited {V} name.
Arguments Undefined {V}.

(** [o[k]]. *)
Definition get {V} (o : gmap string V) (k : string) : Value V :=
  match o !! k with
  | Some v => Own v
  | None =>
      if bool_decide (elem_of k JS.Object_prototype_names) then Inherited k
      else Undefined
  end.

(** [o[k] = v] for a [v] that is not an object: the setter of [__proto__]
    ignores it, unless the object has a property of its own by that name. *)
Definition set_primitive {V} (o : gmap string V) (k : string) (v : V)
  : gmap string V :=
  match o !! k with
  | Some _ => <[k := v]> o
  | None => if String.eqb k "__proto__" then o else <[k := v]> o
  end.

(** [!!x] for a boolean, an array or an inherited member. *)
Definition truthy_bool (x : Value bool) : bool :=
  match x with
  | Own b => b
  | Inherited _ => true
  | Undefined => false
  end.

Definition truthy_array {A} (x : Value (list A)) : bool :=
  match x with
  | Own _ => true
  | Inherited _ => true
  | Undefined => false
  end.

End Obj.

(** What the screens ask of the platform besides state and files. *)
Inductive Notice : Type :=
| router_replace (path : string)
| router_push (path : string)
| Alert_alert (title message : string)
| Share_share (message : string)
| Haptics_notificationAsync
| console_warn.

(** The running application: a screen's state, the disk, the cursors of the
    world's oracles, and the module-level object [DEFAULT_PROFILE], which
    [getProfile] hands out itself when there is no profile to read. *)
Module Sys.
Record t (U : Type) : Type := mk
  { ui : U;
    disk : Disk.t;
    store : Store.t;
    DEFAULT_PROFILE : UserProfile.t }.
Arguments mk {U} ui disk store DEFAULT_PROFILE.
Arguments ui {U} t.
Arguments disk {U} t.
Arguments store {U} t.
Arguments DEFAULT_PROFILE {U} t.

Definition boot {U} (ui : U) (disk : Disk.t) : t U :=
  mk ui disk Store.init Storage.DEFAULT_PROFILE.
End Sys.

(** Asynchronous functions of a screen. *)
Module Task.

Definition t (U A : Type) : Type :=
  Sys.t U -> Outcome A * Sys.t U * list Notice.

Definition ret {U A} (a : A) : t U A := fun sys => (Returned a, sys, []).

Definition throw {U A} (e : JsError) : t U A := fun sys => (Thrown e, sys, []).

Definition bind {U A B} (m : t U A) (k : A -> t U B) : t U B :=
  fun sys =>
    match m sys with
    | (Returned a, sys1, n1) =>
        match k a sys1 with
        | (o, sys2, n2) => (o, sys2, n1 ++ n2)
        end
    | (Thrown e, sys1, n1) => (Thrown e, sys1, n1)
    end.

(** [try { m } catch (e) { h e }]. *)
Definition catch {U A} (m : t U A) (h : JsError -> t U A) : t U A :=
  fun sys =>
    match m sys with
    | (Returned a, sys1, n1) => (Returned a, sys1, n1)
    | (Thrown e, sys1, n1) =>
        match h e sys1 with
        | (o, sys2, n2) => (o, sys2, n1 ++ n2)
        end
    end.

(** [try { m } finally { f }]. *)
Definition finally {U A} (m : t U A) (f : t U unit) : t U A :=
  fun sys =>
    match m sys with
    | (o, sys1, n1) =>
        match f sys1 with
        | (Returned _, sys2, n2) => (o, sys2, n1 ++ n2)
        | (Thrown e, sys2, n2) => (Thrown e, sys2, n1 ++ n2)
        end
    end.

Definition notice {U} (n : Notice) : t U unit :=
  fun sys => (Returned tt, sys, [n]).

(** The state as of now, and [setX((prev) => f(prev))]. *)
Definition state {U} : t U U := fun sys => (Returned (Sys.ui sys), sys, []).

Definition setState {U} (f : U -> U) : t U unit :=
  fun sys =>
    (Returned tt,
     Sys.mk (f (Sys.ui sys)) (Sys.disk sys) (Sys.store sys)
       (Sys.DEFAULT_PROFILE sys), []).

Definition disk {U} : t U Disk.t := fun sys => (Returned (Sys.disk sys), sys, []).

Definition set_disk {U} (f : Disk.t -> Disk.t) : t U unit :=
  fun sys =>
    (Returned tt,
     Sys.mk (Sys.ui sys) (f (Sys.disk sys)) (Sys.store sys)
       (Sys.DEFAULT_PROFILE sys), []).

(** A program of the clients, run on the oracles' cursors. *)
Definition lift {U E A} (m : Prog E A) : t U A :=
  fun sys =>
    match m (Sys.store sys) with
    | (o, s, _) =>
        (o, Sys.mk (Sys.ui sys) (Sys.disk sys) s (Sys.DEFAULT_PROFILE sys), [])
    end.

Definition outcome {U A} (r : Outcome A * Sys.t U * list Notice) : Outcome A :=
  fst (fst r).
Definition after {U A} (r : Outcome A * Sys.t U * list Notice) : Sys.t U :=
  snd (fst r).
Definition notices {U A} (r : Outcome A * Sys.t U * list Notice) : list Notice :=
  snd r.

End Task.

Declare Scope task_scope.
Delimit Scope task_scope with task.
Notation "x <- m ;; k" := (Task.bind m (fun x => k))
  (at level 100, m at next level, right associativity) : task_scope.
Notation "m ;; k" := (Task.bind m (fun _ => k))
  (at level 100, right associativity) : task_scope.

Module Files.

Section Storage.

Variable W : World.t.
Context {U : Type}.

Local Open Scope task_scope.

(** Asks the platform for a change to the file system. *)
Definition permitted : Task.t U bool :=
  fun sys =>
    (Returned (World.mutation_ok W (Store.file_mutations (Sys.store sys))),
     Sys.mk (Sys.ui sys) (Sys.disk sys) (Store.next_mutation (Sys.store sys))
       (Sys.DEFAULT_PROFILE sys), []).

(** [ensureDir()]. *)
Definition ensureDir : Task.t U unit :=
  d <- Task.disk ;;
  if negb (Disk.dir_exists d) then
    ok <- permitted ;;
    if ok then
      Task.set_disk (fun d => Disk.mk true (Disk.profile d) (Disk.feed d)
                                (Disk.likes d) (Disk.comments d))
    else Task.throw FileSystemError
  else Task.ret tt.

(** [readJSON(file, fallback)], and whether it returned [fallback] itself. *)
Definition readJSON_or {A} (file : Disk.Handle A) (fallback : A)
  : Task.t U (bool * A) :=
  d <- Task.disk ;;
  match Disk.content file d with
  | Disk.Absent => Task.ret (true, fallback)
  | Disk.Holds a => Task.ret (false, a)
  | Disk.Unreadable => Task.ret (true, fallback)
  end.

Definition readJSON {A} (file : Disk.Handle A) (fallback : A) : Task.t U A :=
  r <- readJSON_or file fallback ;; Task.ret (snd r).

(** [file.write(JSON.stringify(data, null, 2))]. *)
Definition write {A} (file : Disk.Handle A) (data : A) : Task.t U unit :=
  ok <- permitted ;;
  if ok then Task.set_disk (Disk.put file (Disk.Holds data))
  else Task.throw FileSystemError.

(** [writeJSON(file, data)]. *)
Definition writeJSON {A} (file : Disk.Handle A) (data : A) : Task.t U unit :=
  ensureDir ;;
  write file data.

(** [getProfile()]; the flag says that the object returned is
    [DEFAULT_PROFILE] itself. *)
Definition getProfile_ref : Task.t U (bool * UserProfile.t) :=
  fun sys => readJSON_or PROFILE_FILE (Sys.DEFAULT_PROFILE sys) sys.

Definition getProfile : Task.t U UserProfile.t :=
  r <- getProfile_ref ;; Task.ret (snd r).

(** [saveProfile(p)]. *)
Definition saveProfile (p : UserProfile.t) : Task.t U unit :=
  writeJSON PROFILE_FILE p.

(** [getCachedFeed()]. *)
Definition getCachedFeed : Task.t U (list OutfitPost.t) := readJSON FEED_FILE [].

(** [cacheFeed(posts)]. *)
Definition cacheFeed (posts : list OutfitPost.t) : Task.t U unit :=
  writeJSON FEED_FILE posts.

(** [getLikes()]. *)
Definition getLikes : Task.t U (gmap string bool) := readJSON LIKES_FILE ∅.

(** [toggleLike(postId)]; what it returns is [likes[postId]]. *)
Definition toggleLike (postId : string) : Task.t U (Obj.Value bool) :=
  likes <- getLikes ;;
  let likes :=
    Obj.set_primitive likes postId
      (negb (Obj.truthy_bool (Obj.get likes postId))) in
  writeJSON LIKES_FILE likes ;;
  Task.ret (Obj.get likes postId).

(** [getComments(postId)]: [all[postId] ?? []]. *)
Definition getComments (postId : string) : Task.t U (Obj.Value (list Comment.t)) :=
  all <- readJSON COMMENTS_FILE ∅ ;;
  match Obj.get all postId with
  | Obj.Undefined => Task.ret (Obj.Own [])
  | v => Task.ret v
  end.

(** The object literal [addComment] pushes; its fields are evaluated in the
    order they are written. *)
Definition new_comment (text : string) : Task.t U Comment.t :=
  now <- Task.lift (Date_now W (E := Notice)) ;;
  r <- Task.lift (Math_random W (E := Notice)) ;;
  createdAt <- Task.lift (now_iso W (E := Notice)) ;;
  Task.ret (Comment.mk
              (JS.show_Z now +:+ "-" +:+ JS.slice 2 8 (World.toString36 W r))
              text "you" createdAt).

(** [addComment(postId, text)].  When [all[postId]] is a member of
    [Object.prototype] it has no [push]: the argument is evaluated and the
    call throws. *)
Definition addComment (postId text : string) : Task.t U (list Comment.t) :=
  all <- readJSON COMMENTS_FILE ∅ ;;
  let all :=
    if negb (Obj.truthy_array (Obj.get all postId))
    then <[postId := []]> all
    else all in
  comment <- new_comment text ;;
  match Obj.get all postId with
  | Obj.Own comments =>
      let all := <[postId := comments ++ [comment]]> all in
      writeJSON COMMENTS_FILE all ;;
      Task.ret (comments ++ [comment])
  | _ => Task.throw TypeError
  end.

End Storage.

End Files.

(** ** The onboarding screen ([app/app/feed.tsx], Onboarding) *)

(** [s.split(sep)] for a one-character separator: the pieces between the
    separators, of which there is always at least one. *)
Fixpoint split_on (sep : ascii) (s : string) : list string :=
  match s with
  | EmptyString => [EmptyString]
  | String c s' =>
      if Ascii.eqb c sep then EmptyString :: split_on sep s'
      else match split_on sep s' with
           | piece :: pieces => String c piece :: pieces
           | [] => [String c EmptyString]
           end
  end.

Fixpoint all_chars (p : ascii -> bool) (s : string) : bool :=
  match s with
  | EmptyString => true
  | String c s' => p c && all_chars p s'
  end.

(** The string a [Gender] is. *)
Definition gender_text (g : Gender) : string :=
  match g with
  | male => "male"
  | female => "female"
  | non_binary => "non-binary"
  end.

Module Onboarding.

Definition STYLE_OPTIONS : list string :=
  [ "Streetwear"; "Minimalist"; "Athleisure"; "Vintage"; "Preppy"; "Y2K";
    "Dark Academia"; "Cottagecore"; "Techwear"; "Old Money"; "Casual";
    "Avant-Garde" ].

(** The five [useState] cells. *)
Record State : Type := mk
  { gender : option Gender;
    photoUri : option string;
    brands : string;
    selectedStyles : list string;
    step : nat }.

Definition init : State := mk None None "" [] 0.

(** [prev.includes(s) ? prev.filter((x) => x !== s) : [...prev, s]]. *)
Definition toggleStyle (s : string) (prev : list string) : list string :=
  if existsb (String.eqb s) prev
  then List.filter (fun x => negb (String.eqb x s)) prev
  else prev ++ [s].

(** [brands.split(',').map((b) => b.trim()).filter(Boolean)]. *)
Definition parse_brands (brands : string) : list string :=
  List.filter JS.truthy (map JS.trim (split_on "," brands)).

(** [gender === 'non-binary' ? '' : (gender ?? '')]. *)
Definition genderTag (gender : option Gender) : string :=
  match gender with
  | Some non_binary => ""
  | Some g => gender_text g
  | None => ""
  end.

(** The three loops of [finish] that fill [keywords]. *)
Definition build_keywords (brands selectedStyles : list string)
    (genderTag : string) : list string :=
  flat_map
    (fun brand =>
       map (fun style =>
              JS.trim (brand +:+ " " +:+ style +:+ " outfit " +:+ genderTag))
           selectedStyles)
    brands ++
  map (fun style => JS.trim (style +:+ " outfit inspiration " +:+ genderTag))
      selectedStyles ++
  map (fun brand => JS.trim (brand +:+ " outfit " +:+ genderTag)) brands.

(** The assignments [finish] makes to the profile it read, one field at a
    time. *)
Definition set_photoUri (v : option string) (p : UserProfile.t) : UserProfile.t :=
  UserProfile.mk v (UserProfile.gender p) (UserProfile.keywords p)
    (UserProfile.brands p) (UserProfile.styles p) (UserProfile.onboarded p).

Definition set_gender (v : option Gender) (p : UserProfile.t) : UserProfile.t :=
  UserProfile.mk (UserProfile.photoUri p) v (UserProfile.keywords p)
    (UserProfile.brands p) (UserProfile.styles p) (UserProfile.onboarded p).

Definition set_brands (v : list string) (p : UserProfile.t) : UserProfile.t :=
  UserProfile.mk (UserProfile.photoUri p) (UserProfile.gender p)
    (UserProfile.keywords p) v (UserProfile.styles p) (UserProfile.onboarded p).

Definition set_styles (v : list string) (p : UserProfile.t) : UserProfile.t :=
  UserProfile.mk (UserProfile.photoUri p) (UserProfile.gender p)
    (UserProfile.keywords p) (UserProfile.brands p) v (UserProfile.onboarded p).

Definition set_keywords (v : list string) (p : UserProfile.t) : UserProfile.t :=
  UserProfile.mk (UserProfile.photoUri p) (UserProfile.gender p) v
    (UserProfile.brands p) (UserProfile.styles p) (UserProfile.onboarded p).

Definition set_onboarded (v : bool) (p : UserProfile.t) : UserProfile.t :=
  UserProfile.mk (UserProfile.photoUri p) (UserProfile.gender p)
    (UserProfile.keywords p) (UserProfile.brands p) (UserProfile.styles p) v.

(** The profile [finish] hands to [saveProfile], given the one [getProfile]
    returned. *)
Definition finish_profile (st : State) (profile : UserProfile.t) : UserProfile.t :=
  let profile := set_photoUri (photoUri st) profile in
  let profile := set_gender (gender st) profile in
  let profile := set_brands (parse_brands (brands st)) profile in
  let profile := set_styles (selectedStyles st) profile in
  let genderTag := genderTag (gender st) in
  let keywords :=
    build_keywords (UserProfile.brands profile) (selectedStyles st) genderTag in
  let profile := set_keywords keywords profile in
  set_onboarded true profile.

(** [canProceed()]; a gender, when set, is a non-empty string. *)
Definition canProceed (st : State) : bool :=
  match step st with
  | 0 => match gender st with Some _ => true | None => false end
  | 1 => JS.truthy_opt (photoUri st)
  | 2 => (0 <? String.length (JS.trim (brands st)))%nat
  | 3 => (0 <? length (selectedStyles st))%nat
  | _ => true
  end.

(** What the user can do to the screen: press a gender card, come back from
    a picker with a photo, edit the brands field, press a style chip, press
    the back or the next button. *)
Inductive Press : Type :=
| genderCard (g : Gender)
| photoPicked (uri : string)
| brandsTyped (text : string)
| chip (s : string)
| backBtn
| nextBtn.

(** Only the controls of the current step are rendered, a chip for each of
    [STYLE_OPTIONS], and the back button after the first step. *)
Definition on_screen (st : State) (p : Press) : bool :=
  match p with
  | genderCard _ => (step st =? 0)%nat
  | photoPicked _ => (step st =? 1)%nat
  | brandsTyped _ => (step st =? 2)%nat
  | chip s => (step st =? 3)%nat && existsb (String.eqb s) STYLE_OPTIONS
  | backBtn => (0 <? step st)%nat
  | nextBtn => true
  end.

(** The new state, and whether [finish()] was called. *)
Definition press (st : State) (p : Press) : State * bool :=
  if negb (on_screen st p) then (st, false)
  else
    match p with
    | genderCard g =>
        (mk (Some g) (photoUri st) (brands st) (selectedStyles st) (step st), false)
    | photoPicked uri =>
        (mk (gender st) (Some uri) (brands st) (selectedStyles st) (step st), false)
    | brandsTyped text =>
        (mk (gender st) (photoUri st) text (selectedStyles st) (step st), false)
    | chip s =>
        (mk (gender st) (photoUri st) (brands st)
            (toggleStyle s (selectedStyles st)) (step st), false)
    | backBtn =>
        (mk (gender st) (photoUri st) (brands st) (selectedStyles st)
            (step st - 1), false)
    | nextBtn =>
        if negb (canProceed st) then (st, false)
        else if (step st <? 4 - 1)%nat
             then (mk (gender st) (photoUri st) (brands st) (selectedStyles st)
                      (step st + 1), false)
             else (st, true)
    end.

(** The states in which [finish()] was called during a session. *)
Fixpoint finishes (st : State) (session : list Press) : list State :=
  match session with
  | [] => []
  | p :: rest =>
      let '(st', finished) := press st p in
      (if finished then [st] else []) ++ finishes st' rest
  end.

Section Finish.

Variable W : World.t.

Local Open Scope task_scope.

(** [finish()].  The assignments are made to the object [getProfile]
    returned: when that is [DEFAULT_PROFILE] itself, it is the module's
    default that is changed, whether or not the profile is saved then. *)
Definition finish : Task.t State unit :=
  st <- Task.state ;;
  found <- Files.getProfile_ref ;;
  let profile := finish_profile st (snd found) in
  (if fst found
   then fun sys =>
          (Returned tt,
           Sys.mk (Sys.ui sys) (Sys.disk sys) (Sys.store sys) profile, [])
   else Task.ret tt) ;;
  Files.saveProfile W profile ;;
  Task.notice (router_replace "/generating").

End Finish.

End Onboarding.

(** A brand as [finish] stores it. *)
Definition brand_name (b : string) : Prop :=
  b <> "" /\ JS.trim b = b /\ has_char "," b = false.

(** A search phrase as [finish] stores it. *)
Definition search_phrase (k : string) : Prop := k <> "" /\ JS.trim k = k.

(** What the generation pipeline needs of a stored profile. *)
Definition ready (p : UserProfile.t) : Prop :=
  JS.truthy_opt (UserProfile.photoUri p) = true /\
  UserProfile.gender p <> None /\
  UserProfile.styles p <> [] /\
  List.NoDup (UserProfile.styles p) /\
  (forall s, In s (UserProfile.styles p) -> In s Onboarding.STYLE_OPTIONS) /\
  Forall brand_name (UserProfile.brands p) /\
  UserProfile.keywords p <> [] /\
  Forall search_phrase (UserProfile.keywords p) /\
  UserProfile.onboarded p = true.

(** What holds of the screen's state between two presses. *)
Definition well_formed (st : Onboarding.State) : Prop :=
  Onboarding.step st <= 3 /\
  (1 <= Onboarding.step st -> Onboarding.gender st <> None) /\
  (2 <= Onboarding.step st ->
   JS.truthy_opt (Onboarding.photoUri st) = true) /\
  (3 <= Onboarding.step st -> JS.trim (Onboarding.brands st) <> "") /\
  List.NoDup (Onboarding.selectedStyles st) /\
  (forall s, In s (Onboarding.selectedStyles st) -> In s Onboarding.STYLE_OPTIONS).

(** A session on the onboarding screen in which the user picks "Y2K" and
    then "Streetwear". *)
Definition demo_session : list Onboarding.Press :=
  [ Onboarding.genderCard female; Onboarding.nextBtn;
    Onboarding.nextBtn;
    Onboarding.photoPicked "file:///docs/selfie.heic"; Onboarding.nextBtn;
    Onboarding.brandsTyped "Nike, Zara,"; Onboarding.nextBtn;
    Onboarding.chip "Y2K"; Onboarding.chip "Streetwear";
    Onboarding.chip "Grunge"; Onboarding.nextBtn ].

(** The scene a call to [generateTryOn] asks for is one of the style table,
    for one of [styles]. *)
Definition styled_call (styles : list string) (photo : string)
    (call : string * string * string * option Gender * option string) : Prop :=
  let '(userPhotoUri, _, outfitDescription, _, style) := call in
  userPhotoUri = photo /\
  exists tag env,
    style = Some tag /\ In tag styles /\
    Gemini.try_on_environment outfitDescription style = JS.Str env /\
    env <> Gemini.DEFAULT_ENVIRONMENT.

(** The profile [finish] saves at the end of [demo_session], and a world in
    which that profile is the stored one. *)
Definition onboarded : UserProfile.t :=
  Eval vm_compute in
    Onboarding.finish_profile
      (Onboarding.mk (Some female) (Some "file:///docs/selfie.heic")
         "Nike, Zara," ["Y2K"; "Streetwear"] 3)
      Storage.DEFAULT_PROFILE.

Definition world_onboarded : World.t :=
  World.mk (World.bridge Demo.world) (World.image Demo.world)
    (World.gemini Demo.world) (World.local Demo.world)
    (fun _ => Some onboarded) (World.mutation_ok Demo.world)
    (World.document Demo.world) (World.join Demo.world)
    (World.btoa Demo.world) (World.atob Demo.world)
    (World.Date_now Demo.world) (World.toISOString Demo.world)
    (World.Math_random Demo.world) (World.toString36 Demo.world)
    (World.show_member Demo.world).


(** ** The entry screen ([app/app/index.tsx]) *)

Module Index.

Section Screen.

Variable W : World.t.

Local Open Scope task_scope.

(** The effect run when the screen is mounted; the screen's state is
    [checking]. *)
Definition on_mount : Task.t bool unit :=
  profile <- Files.getProfile ;;
  (if negb (UserProfile.onboarded profile)
   then Task.notice (router_replace "/onboarding")
   else
     cached <- Files.getCachedFeed ;;
     if (0 <? length cached)%nat
     then Task.notice (router_replace "/feed")
     else Task.notice (router_replace "/generating")) ;;
  Task.setState (fun _ => false).

End Screen.

End Index.

(** ** The feed screen ([app/app/feed.tsx], Feed) *)

Module Feed.

Record State : Type := mk
  { posts : list OutfitPost.t;
    loading : bool;
    activeIndex : nat;
    likes : gmap string (Obj.Value bool);
    generatingTryOn : bool;
    commentsVisible : bool;
    productsVisible : bool;
    activeComments : Obj.Value (list Comment.t) }.

Definition init : State := mk [] true 0 ∅ false false false (Obj.Own []).

Definition setPosts (f : list OutfitPost.t -> list OutfitPost.t) (st : State) : State :=
  mk (f (posts st)) (loading st) (activeIndex st) (likes st) (generatingTryOn st)
     (commentsVisible st) (productsVisible st) (activeComments st).

Definition setLoading (v : bool) (st : State) : State :=
  mk (posts st) v (activeIndex st) (likes st) (generatingTryOn st)
     (commentsVisible st) (productsVisible st) (activeComments st).

Definition setActiveIndex (v : nat) (st : State) : State :=
  mk (posts st) (loading st) v (likes st) (generatingTryOn st)
     (commentsVisible st) (productsVisible st) (activeComments st).

Definition setLikes
    (f : gmap string (Obj.Value bool) -> gmap string (Obj.Value bool))
    (st : State) : State :=
  mk (posts st) (loading st) (activeIndex st) (f (likes st)) (generatingTryOn st)
     (commentsVisible st) (productsVisible st) (activeComments st).

Definition setGeneratingTryOn (v : bool) (st : State) : State :=
  mk (posts st) (loading st) (activeIndex st) (likes st) v
     (commentsVisible st) (productsVisible st) (activeComments st).

Definition setCommentsVisible (v : bool) (st : State) : State :=
  mk (posts st) (loading st) (activeIndex st) (likes st) (generatingTryOn st)
     v (productsVisible st) (activeComments st).

Definition setProductsVisible (v : bool) (st : State) : State :=
  mk (posts st) (loading st) (activeIndex st) (likes st) (generatingTryOn st)
     (commentsVisible st) v (activeComments st).

Definition setActiveComments (v : Obj.Value (list Comment.t)) (st : State) : State :=
  mk (posts st) (loading st) (activeIndex st) (likes st) (generatingTryOn st)
     (commentsVisible st) (productsVisible st) v.

(** [posts[activeIndex]], as of a rendering. *)
Definition currentPost (st : State) : option OutfitPost.t :=
  posts st !! activeIndex st.

(** [liked={!!likes[item.id]}]. *)
Definition shown_liked (st : State) (id : string) : bool :=
  Obj.truthy_bool
    (match Obj.get (likes st) id with
     | Obj.Own v => v
     | Obj.Inherited name => Obj.Inherited name
     | Obj.Undefined => Obj.Undefined
     end).

(** [{ ...p, likeCount: p.likeCount + (isLiked ? 1 : -1) }]. *)
Definition bump_likes (isLiked : Obj.Value bool) (p : OutfitPost.t) : OutfitPost.t :=
  OutfitPost.mk (OutfitPost.id p) (OutfitPost.images p) (OutfitPost.captionHint p)
    (OutfitPost.products p) (OutfitPost.liked p)
    (OutfitPost.likeCount p + (if Obj.truthy_bool isLiked then 1 else -1))%Z
    (OutfitPost.commentCount p) (OutfitPost.comments p) (OutfitPost.createdAt p).

(** [{ ...p, commentCount: n }]. *)
Definition with_commentCount (n : Z) (p : OutfitPost.t) : OutfitPost.t :=
  OutfitPost.mk (OutfitPost.id p) (OutfitPost.images p) (OutfitPost.captionHint p)
    (OutfitPost.products p) (OutfitPost.liked p) (OutfitPost.likeCount p)
    n (OutfitPost.comments p) (OutfitPost.createdAt p).

(** [{ ...p, images: [result, ...p.images] }]. *)
Definition with_image_in_front (result : string) (p : OutfitPost.t) : OutfitPost.t :=
  OutfitPost.mk (OutfitPost.id p) (result :: OutfitPost.images p)
    (OutfitPost.captionHint p) (OutfitPost.products p) (OutfitPost.liked p)
    (OutfitPost.likeCount p) (OutfitPost.commentCount p) (OutfitPost.comments p)
    (OutfitPost.createdAt p).

(** [prev.map((p) => p.id === id ? f(p) : p)]. *)
Definition update_post (id : string) (f : OutfitPost.t -> OutfitPost.t)
    (prev : list OutfitPost.t) : list OutfitPost.t :=
  map (fun p => if String.eqb (OutfitPost.id p) id then f p else p) prev.

(** [currentPost.images[currentPost.images.length > 1 ? 1 : 0]]; a missing
    element is [undefined], which [fetch] reads as the text "undefined". *)
Definition outfitRef (post : OutfitPost.t) : string :=
  let images := OutfitPost.images post in
  JS.nullish (images !! (if (1 <? length images)%nat then 1 else 0)) "undefined".

Section Screen.

Variable W : World.t.
Variable cfg : Config.t.

Local Open Scope task_scope.

(** [loadFeed()]. *)
Definition loadFeed : Task.t State unit :=
  Task.setState (setLoading true) ;;
  Task.finally
    (Task.catch
       (savedLikes <- Files.getLikes ;;
        Task.setState (setLikes (fun _ => Obj.Own <$> savedLikes)) ;;
        cached <- Files.getCachedFeed ;;
        if (0 <? length cached)%nat
        then Task.setState (setPosts (fun _ => cached))
        else Task.notice (router_replace "/generating"))
       (fun _ => Task.notice console_warn))
    (Task.setState (setLoading false)).

(** [handleRefresh()]. *)
Definition handleRefresh : Task.t State unit :=
  Task.notice (router_replace "/generating").

(** [handleLike()], with the [currentPost] of the rendering it was made
    in. *)
Definition handleLike (currentPost : option OutfitPost.t) : Task.t State unit :=
  match currentPost with
  | None => Task.ret tt
  | Some currentPost =>
      isLiked <- Files.toggleLike W (OutfitPost.id currentPost) ;;
      Task.setState (setLikes (fun prev => <[OutfitPost.id currentPost := isLiked]> prev)) ;;
      Task.setState
        (setPosts (update_post (OutfitPost.id currentPost) (bump_likes isLiked)))
  end.

(** [handleOpenComments()]. *)
Definition handleOpenComments (currentPost : option OutfitPost.t)
  : Task.t State unit :=
  match currentPost with
  | None => Task.ret tt
  | Some currentPost =>
      comments <- Files.getComments (OutfitPost.id currentPost) ;;
      Task.setState (setActiveComments comments) ;;
      Task.setState (setCommentsVisible true) ;;
      Task.setState (setProductsVisible false)
  end.

(** [handleSendComment(text)]. *)
Definition handleSendComment (currentPost : option OutfitPost.t) (text : string)
  : Task.t State unit :=
  match currentPost with
  | None => Task.ret tt
  | Some currentPost =>
      updated <- Files.addComment W (OutfitPost.id currentPost) text ;;
      Task.setState (setActiveComments (Obj.Own updated)) ;;
      Task.setState
        (setPosts (update_post (OutfitPost.id currentPost)
                     (with_commentCount (Z.of_nat (length updated)))))
  end.

(** [handleTryOn()]. *)
Definition handleTryOn (currentPost : option OutfitPost.t) : Task.t State unit :=
  match currentPost with
  | None => Task.ret tt
  | Some currentPost =>
      if negb (JS.truthy (Config.GEMINI_API_KEY cfg)) then
        Task.notice (Alert_alert "API Key Required" "Add your Gemini API key.")
      else
        profile <- Files.getProfile ;;
        if negb (JS.truthy_opt (UserProfile.photoUri profile)) then
          Task.notice (Alert_alert "Photo Required"
                         "Upload your photo in onboarding first.")
        else
          Task.setState (setGeneratingTryOn true) ;;
          Task.notice Haptics_notificationAsync ;;
          Task.finally
            (Task.catch
               (result <-
                  Task.lift
                    (Gemini.generateTryOn W cfg
                       (JS.nullish (UserProfile.photoUri profile) "")
                       (outfitRef currentPost)
                       (OutfitPost.captionHint currentPost)
                       (UserProfile.gender profile)
                       (head (UserProfile.styles profile))) ;;
                if JS.truthy_opt result then
                  Task.setState
                    (setPosts
                       (update_post (OutfitPost.id currentPost)
                          (with_image_in_front (JS.nullish result "")))) ;;
                  Task.notice (Alert_alert "Try On Ready!"
                                 "Swipe to see your new generated look.")
                else
                  Task.notice (Alert_alert "Generation Failed"
                                 "Could not generate try-on image. Please try again."))
               (fun _ =>
                  Task.notice (Alert_alert "Error"
                                 "Something went wrong with the AI generation.")))
            (Task.setState (setGeneratingTryOn false))
  end.

(** [onLike] of the item at [index]: the handler it calls is the one of the
    last rendering, with that rendering's [currentPost]. *)
Definition onLike (index : nat) : Task.t State unit :=
  st <- Task.state ;;
  Task.setState (setActiveIndex index) ;;
  handleLike (currentPost st).

End Screen.

End Feed.

(** ** The comments sheet and the caption overlay
       ([app/src/storage.ts], CommentsSheet and CaptionOverlay) *)

(** A JavaScript number that is an integer or [NaN]. *)
Module Num.

Definition t : Type := option Z.

Definition NaN : t := None.

Definition sub (x y : t) : t :=
  match x, y with
  | Some a, Some b => Some (a - b)%Z
  | _, _ => None
  end.

(** [Math.floor(x / k)] for a positive integer [k]. *)
Definition floor_div (x : t) (k : Z) : t :=
  match x with
  | Some a => Some (a / k)%Z
  | None => None
  end.

(** [x < k]: false when [x] is [NaN]. *)
Definition lt (x : t) (k : Z) : bool :=
  match x with
  | Some a => (a <? k)%Z
  | None => false
  end.

(** [`${x}`]. *)
Definition show (x : t) : string :=
  match x with
  | Some a => JS.show_Z a
  | None => "NaN"
  end.

End Num.

Module CommentsSheet.

(** [timeAgo(iso)], given [Date.now()] and [new Date(iso).getTime()]. *)
Definition timeAgo (Date_now : Z) (getTime : Num.t) : string :=
  let diff := Num.sub (Some Date_now) getTime in
  let mins := Num.floor_div diff 60000 in
  if Num.lt mins 1 then "just now"
  else if Num.lt mins 60 then Num.show mins +:+ "m"
  else
    let hrs := Num.floor_div mins 60 in
    if Num.lt hrs 24 then Num.show hrs +:+ "h"
    else Num.show (Num.floor_div hrs 24) +:+ "d".

Section Sheet.

Context {U : Type}.

Local Open Scope task_scope.

(** [handleSend()], for the [text] in the field; it gives the field's new
    content.  [onSend] is not awaited: when it fails, nobody hears of it. *)
Definition handleSend (text : string) (onSend : string -> Task.t U unit)
  : Task.t U string :=
  let trimmed := JS.trim text in
  if negb (JS.truthy trimmed) then Task.ret text
  else
    Task.catch (onSend trimmed) (fun _ => Task.ret tt) ;;
    Task.ret "".

End Sheet.

End CommentsSheet.

Module CaptionOverlay.



End CaptionOverlay.

(** ** Reading the disk *)

(** The four files hold the same on both disks. *)
Definition same_files (d d' : Disk.t) : Prop :=
  Disk.profile d = Disk.profile d' /\
  Disk.feed d = Disk.feed d' /\
  Disk.likes d = Disk.likes d' /\
  Disk.comments d = Disk.comments d'.

(** The disk with the application's directory on it. *)
Definition with_dir (d : Disk.t) : Disk.t :=
  Disk.mk true (Disk.profile d) (Disk.feed d) (Disk.likes d) (Disk.comments d).

(** Nothing changed but the oracles' cursors and, possibly, the existence
    of the directory. *)
Definition only_cursors {U} (sys sys' : Sys.t U) : Prop :=
  Sys.ui sys' = Sys.ui sys /\
  same_files (Sys.disk sys) (Sys.disk sys') /\
  Sys.DEFAULT_PROFILE sys' = Sys.DEFAULT_PROFILE sys.

(** What a file holds, or a fallback. *)
Definition held {A} (f : Disk.File A) (fallback : A) : A :=
  match f with
  | Disk.Holds a => a
  | _ => fallback
  end.

(** Whether a post is liked, going by the likes file. *)
Definition liked_on_disk (d : Disk.t) (postId : string) : bool :=
  Obj.truthy_bool (Obj.get (held (Disk.likes d) ∅) postId).

(** The comments of a post, going by the comments file. *)
Definition comments_on_disk (d : Disk.t) (postId : string) : list Comment.t :=
  match held (Disk.comments d) ∅ !! postId with
  | Some comments => comments
  | None => []
  end.

(** A name no object inherits. *)
Definition plain_name (k : string) : Prop :=
  ~ elem_of k JS.Object_prototype_names.

(** Worlds in which the platform permits every change, and one in which it
    refuses every change. *)
Definition permissive (W : World.t) : Prop := forall n, World.mutation_ok W n = true.

Definition world_read_only : World.t :=
  World.mk (World.bridge Demo.world) (World.image Demo.world)
    (World.gemini Demo.world) (World.local Demo.world)
    (World.profile_json Demo.world) (fun _ => false)
    (World.document Demo.world) (World.join Demo.world)
    (World.btoa Demo.world) (World.atob Demo.world)
    (World.Date_now Demo.world) (World.toISOString Demo.world)
    (World.Math_random Demo.world) (World.toString36 Demo.world)
    (World.show_member Demo.world).

(** ** Moving between screens *)

(** Where the entry screen sends the user, going by the disk and the
    module's default profile. *)
Definition route (d : Disk.t) (default : UserProfile.t) : string :=
  if negb (UserProfile.onboarded (held (Disk.profile d) default)) then "/onboarding"
  else if (0 <? length (held (Disk.feed d) []))%nat then "/feed"
  else "/generating".

(** Another screen mounted in the same run of the application, and the
    first screen of a new run on the same disk. *)
Definition mount {U V} (ui : V) (sys : Sys.t U) : Sys.t V :=
  Sys.mk ui (Sys.disk sys) (Sys.store sys) (Sys.DEFAULT_PROFILE sys).

Definition restart {U V} (ui : V) (sys : Sys.t U) : Sys.t V :=
  Sys.boot ui (Sys.disk sys).

(** The state of the onboarding screen at the end of [demo_session]. *)
Definition demo_onboarding : Onboarding.State :=
  Onboarding.mk (Some female) (Some "file:///docs/selfie.heic")
    "Nike, Zara," ["Y2K"; "Streetwear"] 3.

(** ** Reading the feed screen *)

(** The heart shown for every post is what the likes file says. *)
Definition in_sync (sys : Sys.t Feed.State) : Prop :=
  forall id, Feed.shown_liked (Sys.ui sys) id = liked_on_disk (Sys.disk sys) id.

(** The like count after a press on the heart. *)
Definition like_shift (liked : bool) (p : OutfitPost.t) : Z :=
  (OutfitPost.likeCount p + (if liked then 1 else -1))%Z.

(** A feed entry with two likes recorded on the disk for other posts, for
    examples. *)
Definition demo_post : OutfitPost.t :=
  OutfitPost.mk "gen-1700000000000-0-i" ["file:///gen/1.png"; "https://i.pinimg.com/originals/1.jpg"]
    "best y2k streetwear look" [] false 120 7 [] "T1700000000000".

Definition demo_feed_disk : Disk.t :=
  Disk.mk true (Disk.Holds onboarded) (Disk.Holds [demo_post]) Disk.Absent
    Disk.Absent.

(** What the user can make the feed screen do with the current post. *)
Definition feed_handlers (W : World.t) (cfg : Config.t) (post : OutfitPost.t)
    (text : string) : list (Task.t Feed.State unit) :=
  [ Feed.loadFeed;
    Feed.handleRefresh;
    Feed.handleLike W (Some post);
    Feed.handleOpenComments (Some post);
    Feed.handleSendComment W (Some post) text;
    Feed.handleTryOn W cfg (Some post) ].

(** * Properties *)

(** ** Programs *)

Lemma skeleton_app (t1 t2 : list Event) :
  skeleton (t1 ++ t2) = skeleton t1 ++ skeleton t2.
Proof. apply List.filter_app. Qed.

Lemma skeleton_IO (t : list IOEvent) : skeleton (map IO t) = [].
Proof. induction t as [|e t IH]; simpl; auto. Qed.

Ltac skeleton_simpl :=
  unfold skeleton; simpl;
  repeat (rewrite ?List.filter_app; fold (skeleton); rewrite ?skeleton_IO;
          unfold skeleton; simpl).

Section TurnFacts.

Variable W : World.t.
Context {C : Collaborators}.

(** The store and the result of [generateTryOn] decide a turn: it adds one
    entry, made from the candidate and from how the call ended. *)
Lemma turn_spec profile photo total l outfit s :
  let r :=
    outcome (generateTryOn photo (source_or_primary outfit)
               (PinterestOutfit.captionHint outfit)
               (UserProfile.gender profile) (outfitStyle profile outfit) s) in
  exists post s' t ai,
    turn W profile photo total l outfit s =
      (Returned (Loop.mk (Loop.posts l ++ [post]) (Loop.done l + 1) ai), s', t) /\
    skeleton t =
      [ call_for profile photo outfit;
        end_generateTryOn r;
        setCompleted (Loop.done l + 1);
        setProgress (progress_after (Loop.done l + 1) total) ] /\
    made_from (outfit, r) post.
Proof.
  unfold turn, new_post_suffixed, new_post_plain, new_post, random_suffix,
    now_iso, Date_now, Math_random, bind, emit, try_catch, lift, ret, outcome,
    made_from.
  destruct (generateTryOn photo _ _ _ _ s) as [[[[uri|]|e] s1] t1]; simpl.
  - destruct (JS.truthy uri) eqn:Hu; simpl;
      do 4 eexists; (split; [reflexivity|]); skeleton_simpl; rewrite ?Hu; auto.
  - do 4 eexists; (split; [reflexivity|]); skeleton_simpl; auto.
  - do 4 eexists; (split; [reflexivity|]); skeleton_simpl; auto.
Qed.

Lemma made_from_entry_of row post : made_from row post -> entry_of (fst row) post.
Proof.
  intros (Hc & Hp & Hi). repeat split; auto.
  destruct (snd row) as [[uri|]|e]; simpl in Hi; auto.
  destruct (JS.truthy uri) eqn:Hu; eauto.
Qed.

Lemma made_from_entries rows posts :
  Forall2 made_from rows posts -> Forall2 entry_of (map fst rows) posts.
Proof.
  induction 1 as [|row post rows posts H _ IH]; simpl; constructor; auto.
  apply made_from_entry_of. exact H.
Qed.

(** The loop adds one entry per candidate, in order, and never throws. *)
Lemma compose_spec profile photo total outfits :
  forall l s,
  exists (rows : list Row) posts' s' t ai,
    compose W profile photo total l outfits s =
      (Returned (Loop.mk (Loop.posts l ++ posts') (Loop.done l + length outfits) ai),
       s', t) /\
    map fst rows = outfits /\
    skeleton t = turns_skeleton profile photo total (Loop.done l + 1) rows /\
    Forall2 made_from rows posts'.
Proof.
  induction outfits as [|outfit rest IH]; intros l s.
  - exists ([] : list Row), [], s, [], (Loop.aiSuccessCount l). simpl.
    rewrite app_nil_r, Nat.add_0_r. destruct l; auto.
  - destruct (turn_spec profile photo total l outfit s)
      as (post & s1 & t1 & ai1 & Hturn & Hsk & Hmade).
    destruct (IH (Loop.mk (Loop.posts l ++ [post]) (Loop.done l + 1) ai1) s1)
      as (rows & posts' & s2 & t2 & ai2 & Hrest & Hrows & Hsk2 & Hall).
    eexists ((outfit, _) :: rows : list Row), (post :: posts'), s2, (t1 ++ t2), ai2.
    split; [|split; [|split]].
    + simpl. unfold bind. rewrite Hturn, Hrest. simpl.
      rewrite <- app_assoc. simpl.
      replace (Loop.done l + 1 + length rest) with (Loop.done l + S (length rest)) by lia.
      reflexivity.
    + simpl. rewrite Hrows. reflexivity.
    + rewrite skeleton_app, Hsk, Hsk2. simpl.
      replace (Loop.done l + 1 + 1) with (S (Loop.done l + 1)) by lia.
      reflexivity.
    + constructor; auto.
Qed.

End TurnFacts.
(** ** The run, case by case *)

Section RunFacts.

Variable W : World.t.
Variable cfg : Config.t.
Context {C : Collaborators}.

Lemma run_profile_throws s e s1 t1 :
  getProfile s = (Thrown e, s1, t1) ->
  runPipeline W cfg s =
    (Returned tt, s1, call_getProfile :: map IO t1 ++ [setError PIPELINE_ERROR]).
Proof.
  intros H. unfold runPipeline, try_catch, bind, emit, lift. rewrite H. reflexivity.
Qed.

Lemma run_no_photo s profile s1 t1 :
  getProfile s = (Returned profile, s1, t1) ->
  JS.truthy_opt (UserProfile.photoUri profile) = false ->
  runPipeline W cfg s =
    (Returned tt, s1, call_getProfile :: map IO t1 ++ [setError NO_PHOTO]).
Proof.
  intros H Hp. unfold runPipeline, try_catch, bind, emit, lift. rewrite H.
  destruct (UserProfile.photoUri profile) as [photo|]; simpl in *.
  - rewrite Hp. reflexivity.
  - reflexivity.
Qed.

Lemma run_search_throws s profile s1 t1 e s2 t2 :
  getProfile s = (Returned profile, s1, t1) ->
  JS.truthy_opt (UserProfile.photoUri profile) = true ->
  searchPinterest (keywords_of profile) (Config.PINTEREST_FETCH_LIMIT cfg) true s1
    = (Thrown e, s2, t2) ->
  exists t,
    runPipeline W cfg s = (Returned tt, s2, t) /\
    skeleton t =
      [ call_getProfile; setProgress (5 # 100);
        call_searchPinterest (keywords_of profile)
          (Config.PINTEREST_FETCH_LIMIT cfg) true;
        setError PIPELINE_ERROR ].
Proof.
  intros H Hp Hs. unfold runPipeline, try_catch, bind, emit, lift. rewrite H.
  destruct (UserProfile.photoUri profile) as [photo|]; simpl in *; [|discriminate].
  rewrite Hp. simpl. rewrite Hs. simpl.
  eexists; split; [reflexivity|]. skeleton_simpl. reflexivity.
Qed.

Lemma run_no_outfits s profile s1 t1 s2 t2 :
  getProfile s = (Returned profile, s1, t1) ->
  JS.truthy_opt (UserProfile.photoUri profile) = true ->
  searchPinterest (keywords_of profile) (Config.PINTEREST_FETCH_LIMIT cfg) true s1
    = (Returned [], s2, t2) ->
  runPipeline W cfg s =
    (Returned tt, s2,
     call_getProfile :: map IO t1 ++
     [ setStatus "Finding outfit inspiration…"; setProgress (5 # 100);
       call_searchPinterest (keywords_of profile)
         (Config.PINTEREST_FETCH_LIMIT cfg) true ] ++
     map IO t2 ++ [setError NO_OUTFITS]).
Proof.
  intros H Hp Hs. unfold runPipeline, try_catch, bind, emit, lift. rewrite H.
  destruct (UserProfile.photoUri profile) as [photo|]; simpl in *; [|discriminate].
  rewrite Hp. simpl. rewrite Hs. simpl. reflexivity.
Qed.

Lemma run_composed s profile photo s1 t1 outfits s2 t2 :
  getProfile s = (Returned profile, s1, t1) ->
  UserProfile.photoUri profile = Some photo ->
  JS.truthy photo = true ->
  searchPinterest (keywords_of profile) (Config.PINTEREST_FETCH_LIMIT cfg) true s1
    = (Returned outfits, s2, t2) ->
  outfits <> [] ->
  exists (rows : list Row) posts s' t cached,
    runPipeline W cfg s = (Returned tt, s', t) /\
    map fst rows = outfits /\
    skeleton t = composed_skeleton cfg profile photo rows posts cached /\
    Forall2 made_from rows posts.
Proof.
  intros H Hp Ht Hs Hne.
  destruct (compose_spec W profile photo (length outfits) outfits (Loop.mk [] 0 0) s2)
    as (rows & posts & s3 & t3 & ai & Hc & Hrows & Hsk & Hall).
  simpl in Hc, Hsk.
  assert (Hrl : @length Row rows = length outfits)
    by (rewrite <- Hrows; symmetry; apply length_map).
  assert (Hlen : length posts = length outfits)
    by (rewrite <- Hrl; symmetry; eapply Forall2_length; eauto).
  assert (Hpos : (0 <? length posts)%nat = true).
  { apply Nat.ltb_lt. rewrite Hlen. destruct outfits; simpl; [congruence|lia]. }
  assert (Hnz : (length outfits =? 0)%nat = false).
  { apply Nat.eqb_neq. destruct outfits; simpl; [congruence|lia]. }
  assert (Hrun : forall o4 s4 t4,
            cacheFeed posts s3 = (o4, s4, t4) ->
            runPipeline W cfg s =
              (Returned tt, s4,
               call_getProfile :: map IO t1 ++
               [ setStatus "Finding outfit inspiration…"; setProgress (5 # 100);
                 call_searchPinterest (keywords_of profile)
                   (Config.PINTEREST_FETCH_LIMIT cfg) true ] ++ map IO t2 ++
               [ setTotal (length outfits);
                 setStatus "Downloading looks from Pinterest…";
                 setProgress (15 # 100);
                 setStatus "Generating your personalized feed…" ] ++
               t3 ++
               [ setStatus (if (0 <? ai)%nat
                            then "Done! " +:+ JS.show_nat ai +:+ " AI looks generated"
                            else "Done! Loading your feed…");
                 setProgress 1; call_cacheFeed posts ] ++ map IO t4 ++
               [ match o4 with
                 | Returned _ => setTimeout_replace 800 "/feed"
                 | Thrown _ => setError PIPELINE_ERROR
                 end ])).
  { intros o4 s4 t4 Hcache.
    unfold runPipeline, try_catch, bind, emit, lift. rewrite H, Hp. simpl.
    rewrite Ht. simpl. rewrite Hs. simpl. rewrite Hnz.
    unfold bind in Hc. rewrite Hc. simpl. rewrite Hpos, Hcache.
    destruct o4 as [[]|e]; simpl;
      repeat (rewrite <- ?app_assoc; simpl); reflexivity. }
  destruct (cacheFeed posts s3) as [[o4 s4] t4] eqn:Hcache.
  exists rows, posts, s4. eexists.
  exists (match o4 with Returned _ => true | Thrown _ => false end).
  split; [exact (Hrun o4 s4 t4 eq_refl)|]. split; [exact Hrows|]. split; [|exact Hall].
  unfold composed_skeleton. rewrite Hrl. skeleton_simpl.
  fold (skeleton t3). rewrite Hsk.
  destruct o4; skeleton_simpl; rewrite ?app_nil_r; reflexivity.
Qed.

End RunFacts.

(** ** Projections of a trace *)

Lemma omap_skeleton {A} (f : Event -> option A) (t : list Event) :
  (forall e, structural e = false -> f e = None) ->
  omap f t = omap f (skeleton t).
Proof.
  intros Hf. induction t as [|e t IH]; auto.
  unfold skeleton in *. cbn [List.filter].
  destruct (structural e) eqn:He.
  - change (omap f (e :: t)) with
      (match f e with Some y => y :: omap f t | None => omap f t end).
    change (omap f (e :: List.filter structural t)) with
      (match f e with
       | Some y => y :: omap f (List.filter structural t)
       | None => omap f (List.filter structural t)
       end).
    rewrite IH. reflexivity.
  - change (omap f (e :: t)) with
      (match f e with Some y => y :: omap f t | None => omap f t end).
    rewrite (Hf e He). exact IH.
Qed.

Lemma progress_values_skeleton t : progress_values t = progress_values (skeleton t).
Proof. apply omap_skeleton. intros []; simpl; congruence. Qed.

Lemma produced_skeleton t : produced t = produced (skeleton t).
Proof.
  unfold produced. f_equal. apply omap_skeleton. intros []; simpl; congruence.
Qed.

Lemma try_on_calls_skeleton t : try_on_calls t = try_on_calls (skeleton t).
Proof. apply omap_skeleton. intros []; simpl; congruence. Qed.

Lemma try_on_results_skeleton t : try_on_results t = try_on_results (skeleton t).
Proof. apply omap_skeleton. intros []; simpl; congruence. Qed.

Lemma try_on_references_skeleton t :
  try_on_references t = try_on_references (skeleton t).
Proof. apply omap_skeleton. intros []; simpl; congruence. Qed.

Lemma search_calls_skeleton t : search_calls t = search_calls (skeleton t).
Proof. apply omap_skeleton. intros []; simpl; congruence. Qed.

Lemma final_error_skeleton t : final_error t = final_error (skeleton t).
Proof.
  unfold final_error. f_equal. apply omap_skeleton. intros []; simpl; congruence.
Qed.

Lemma skeleton_In e t : In e (skeleton t) -> In e t.
Proof. intros H. apply List.filter_In in H. tauto. Qed.

Section TurnsSkeleton.

Variables (profile : UserProfile.t) (photo : string) (total : nat).

Lemma turns_progress rows : forall k,
  progress_values (turns_skeleton profile photo total k rows) =
  map (fun i => progress_after i total) (seq k (length rows)).
Proof.
  induction rows as [|o rest IH]; intros k; simpl; auto.
  unfold progress_values in *. simpl. rewrite IH. reflexivity.
Qed.

Lemma turns_calls rows : forall k,
  try_on_calls (turns_skeleton profile photo total k rows) =
  map (try_on_args profile photo) (map fst rows).
Proof.
  induction rows as [|o rest IH]; intros k; simpl; auto.
  unfold try_on_calls in *. simpl. rewrite IH. reflexivity.
Qed.

Lemma turns_references rows : forall k,
  try_on_references (turns_skeleton profile photo total k rows) =
  map (fun row => source_or_primary (fst row)) rows.
Proof.
  induction rows as [|o rest IH]; intros k; simpl; auto.
  unfold try_on_references in *. simpl. rewrite IH. reflexivity.
Qed.

Lemma turns_results rows : forall k,
  try_on_results (turns_skeleton profile photo total k rows) = map snd rows.
Proof.
  induction rows as [|o rest IH]; intros k; simpl; auto.
  unfold try_on_results in *. simpl. rewrite IH. reflexivity.
Qed.

Lemma turns_cached rows : forall k,
  omap cached_of (turns_skeleton profile photo total k rows) = [].
Proof. induction rows as [|o rest IH]; intros k; simpl; auto. Qed.

Lemma turns_errors rows : forall k,
  omap error_of (turns_skeleton profile photo total k rows) = [].
Proof. induction rows as [|o rest IH]; intros k; simpl; auto. Qed.

Lemma turns_searches rows : forall k,
  search_calls (turns_skeleton profile photo total k rows) = [].
Proof. induction rows as [|o rest IH]; intros k; simpl; auto. Qed.

(** The last turn reports the number of the last candidate. *)
Lemma turns_last_completed rows : forall k,
  rows <> [] ->
  In (setCompleted (k + length rows - 1))
     (turns_skeleton profile photo total k rows).
Proof.
  induction rows as [|o rest IH]; intros k Hne; [congruence|].
  simpl. destruct rest as [|o' rest'].
  - right; right; left. f_equal. simpl. lia.
  - do 4 right.
    replace (k + S (length (o' :: rest')) - 1) with (S k + length (o' :: rest') - 1)
      by (simpl; lia).
    apply IH. discriminate.
Qed.

End TurnsSkeleton.

(** ** The progress fraction *)

Section Progress.

Local Open Scope Q_scope.

Lemma inject_nat_pos (n : nat) : (0 < n)%nat -> 0 < inject_Z (Z.of_nat n).
Proof. intros H. change 0 with (inject_Z 0). rewrite <- Zlt_Qlt. lia. Qed.

Lemma ratio_lt (k k' n : nat) :
  (0 < n)%nat -> (k < k')%nat ->
  inject_Z (Z.of_nat k) / inject_Z (Z.of_nat n)
  < inject_Z (Z.of_nat k') / inject_Z (Z.of_nat n).
Proof.
  intros Hn Hk. pose proof (inject_nat_pos n Hn) as Hpos.
  apply Qlt_shift_div_l; auto.
  unfold Qdiv. rewrite <- Qmult_assoc, (Qmult_comm (/ _)), Qmult_inv_r, Qmult_1_r.
  - rewrite <- Zlt_Qlt. lia.
  - intro H. rewrite H in Hpos. discriminate.
Qed.

Lemma ratio_le_1 (k n : nat) :
  (0 < n)%nat -> (k <= n)%nat ->
  inject_Z (Z.of_nat k) / inject_Z (Z.of_nat n) <= 1.
Proof.
  intros Hn Hk. pose proof (inject_nat_pos n Hn) as Hpos.
  apply Qle_shift_div_r; auto. rewrite Qmult_1_l. rewrite <- Zle_Qle. lia.
Qed.

Lemma ratio_pos (k n : nat) :
  (0 < n)%nat -> (0 < k)%nat ->
  0 < inject_Z (Z.of_nat k) / inject_Z (Z.of_nat n).
Proof.
  intros Hn Hk. pose proof (inject_nat_pos n Hn) as Hpos.
  apply Qlt_shift_div_l; auto. rewrite Qmult_0_l.
  change 0 with (inject_Z 0). rewrite <- Zlt_Qlt. lia.
Qed.

Lemma progress_after_lt k k' n :
  (0 < n)%nat -> (k < k')%nat -> progress_after k n < progress_after k' n.
Proof.
  intros Hn Hk. unfold progress_after. pose proof (ratio_lt k k' n Hn Hk). lra.
Qed.

Lemma progress_after_upper k n :
  (0 < n)%nat -> (k <= n)%nat -> progress_after k n <= 95 # 100.
Proof.
  intros Hn Hk. unfold progress_after. pose proof (ratio_le_1 k n Hn Hk). lra.
Qed.

Lemma progress_after_lower k n :
  (0 < n)%nat -> (0 < k)%nat -> 15 # 100 < progress_after k n.
Proof.
  intros Hn Hk. unfold progress_after. pose proof (ratio_pos k n Hn Hk). lra.
Qed.

(** The fractions reported by turns [k], [k+1], ... increase. *)
Lemma progress_steps_sorted n : forall m k,
  (0 < n)%nat ->
  StronglySorted Qlt (map (fun i => progress_after i n) (seq k m)).
Proof.
  induction m as [|m IH]; intros k Hn; simpl; constructor; auto.
  apply List.Forall_forall. intros q Hq.
  apply in_map_iff in Hq. destruct Hq as (i & <- & Hi).
  apply in_seq in Hi. apply progress_after_lt; lia.
Qed.

Lemma progress_steps_bounds n m k q :
  (0 < n)%nat -> (0 < k)%nat -> (k + m <= S n)%nat ->
  In q (map (fun i => progress_after i n) (seq k m)) ->
  15 # 100 < q /\ q <= 95 # 100.
Proof.
  intros Hn Hk Hm Hq.
  apply in_map_iff in Hq. destruct Hq as (i & <- & Hi). apply in_seq in Hi.
  split; [apply progress_after_lower | apply progress_after_upper]; lia.
Qed.

Lemma sorted_snoc (l : list Q) (x : Q) :
  StronglySorted Qlt l -> Forall (fun q => q < x) l ->
  StronglySorted Qlt (l ++ [x]).
Proof.
  induction 1 as [|a l Hs IH Ha]; intros Hx; simpl.
  - repeat constructor.
  - inversion Hx; subst. constructor; auto.
    apply Forall_app; split; auto.
Qed.

(** The whole sequence of a run that reached the loop. *)
Lemma full_progress_sorted n :
  (0 < n)%nat ->
  StronglySorted Qlt
    ((5 # 100) :: (15 # 100)
       :: map (fun i => progress_after i n) (seq 1 n) ++ [1]).
Proof.
  intros Hn.
  assert (Hb : forall q, In q (map (fun i => progress_after i n) (seq 1 n)) ->
                         15 # 100 < q /\ q <= 95 # 100).
  { intros q Hq. apply (progress_steps_bounds n n 1); auto; lia. }
  constructor; [constructor|].
  - apply sorted_snoc; [apply progress_steps_sorted; auto|].
    apply List.Forall_forall. intros q Hq. destruct (Hb q Hq). lra.
  - apply Forall_app; split; [|repeat constructor].
    apply List.Forall_forall. intros q Hq. destruct (Hb q Hq). lra.
  - constructor; [reflexivity|].
    apply Forall_app; split; [|repeat constructor].
    apply List.Forall_forall. intros q Hq. destruct (Hb q Hq). lra.
Qed.

End Progress.

(** ** Every run has one of the five shapes *)

Section Shapes.

Variable W : World.t.
Variable cfg : Config.t.
Context {C : Collaborators}.

Lemma truthy_opt_true (x : option string) :
  JS.truthy_opt x = true -> exists s, x = Some s /\ JS.truthy s = true.
Proof. destruct x as [s|]; simpl; [eauto | discriminate]. Qed.

Lemma run_shape s :
  exists s' t, runPipeline W cfg s = (Returned tt, s', t) /\ RunShape cfg (skeleton t).
Proof.
  destruct (getProfile s) as [[[profile|e] s1] t1] eqn:Hprof.
  2:{ do 2 eexists. split; [eapply run_profile_throws; eauto|].
      skeleton_simpl. constructor. }
  destruct (JS.truthy_opt (UserProfile.photoUri profile)) eqn:Hphoto.
  2:{ do 2 eexists. split; [eapply run_no_photo; eauto|].
      skeleton_simpl. constructor. }
  destruct (truthy_opt_true _ Hphoto) as (photo & Hsome & Htruthy).
  destruct (searchPinterest (keywords_of profile)
              (Config.PINTEREST_FETCH_LIMIT cfg) true s1)
    as [[[outfits|e] s2] t2] eqn:Hsearch.
  2:{ destruct (run_search_throws W cfg s profile s1 t1 e s2 t2 Hprof Hphoto Hsearch)
        as (t & Hrun & Hsk).
      do 2 eexists. split; [exact Hrun|]. rewrite Hsk. constructor. }
  destruct outfits as [|o rest].
  - do 2 eexists. split; [eapply run_no_outfits; eauto|].
    skeleton_simpl. constructor.
  - destruct (run_composed W cfg s profile photo s1 t1 (o :: rest) s2 t2
                Hprof Hsome Htruthy Hsearch ltac:(discriminate))
      as (rows & posts & s' & t & cached & Hrun & Hrows & Hsk & Hall).
    do 2 eexists. split; [exact Hrun|]. rewrite Hsk. constructor; auto.
    destruct rows; discriminate.
Qed.

End Shapes.

(** ** Where full progress is reported *)

Lemma split_at_unique {A} (P : A -> Prop) (l1 : list A) :
  forall x l2 pre y post,
  l1 ++ x :: l2 = pre ++ y :: post ->
  P y -> Forall (fun e => ~ P e) l1 -> Forall (fun e => ~ P e) l2 ->
  pre = l1 /\ y = x /\ post = l2.
Proof.
  induction l1 as [|a l1 IH]; intros x l2 pre y post Heq Hy H1 H2.
  - destruct pre as [|b pre]; simpl in Heq.
    + inversion Heq; subst. auto.
    + inversion Heq; subst. exfalso.
      rewrite List.Forall_forall in H2. apply (H2 y); auto.
      apply in_or_app. right. left. reflexivity.
  - destruct pre as [|b pre]; simpl in Heq.
    + inversion Heq; subst. inversion H1; subst. contradiction.
    + inversion Heq; subst. inversion H1; subst.
      destruct (IH x l2 pre y post H3 Hy H5 H2) as (-> & -> & ->). auto.
Qed.

Lemma no_full_without_progress (l : list Event) :
  Forall (fun e => forall q, e = setProgress q -> ~ q == 1) l ->
  Forall (fun e => ~ reports_full e) l.
Proof.
  intros H. eapply Forall_impl; [exact H|].
  intros e He (q & -> & Hq). exact (He q eq_refl Hq).
Qed.

Lemma turns_not_full profile photo n rows : forall k,
  (0 < n)%nat -> (0 < k)%nat -> (k + length rows <= S n)%nat ->
  Forall (fun e => ~ reports_full e) (turns_skeleton profile photo n k rows).
Proof.
  induction rows as [|o rest IH]; intros k Hn Hk Hlen; simpl; [constructor|].
  simpl in Hlen.
  constructor; [intros (q & Heq & _); discriminate|].
  constructor; [intros (q & Heq & _); discriminate|].
  constructor; [intros (q & Heq & _); discriminate|].
  constructor.
  - intros (q & Heq & Hq). inversion Heq; subst q.
    pose proof (progress_after_upper k n Hn ltac:(lia)) as Hup. lra.
  - apply IH; lia.
Qed.

(** In a run that reached the loop, full progress is the one report after the
    last turn. *)
Lemma composed_full_position cfg profile photo rows posts cached pre e post :
  rows <> [] ->
  composed_skeleton cfg profile photo rows posts cached = pre ++ e :: post ->
  reports_full e ->
  pre =
    [ call_getProfile; setProgress (5 # 100);
      call_searchPinterest (keywords_of profile)
        (Config.PINTEREST_FETCH_LIMIT cfg) true;
      setTotal (length rows); setProgress (15 # 100) ] ++
    turns_skeleton profile photo (length rows) 1 rows.
Proof.
  intros Hne Heq He.
  assert (Hn : (0 < length rows)%nat) by (destruct rows; simpl; [congruence|lia]).
  unfold composed_skeleton in Heq. rewrite app_assoc in Heq.
  change ([setProgress 1; call_cacheFeed posts] ++
          (if cached then [] else [setError PIPELINE_ERROR]))
    with (setProgress 1 ::
          ([call_cacheFeed posts] ++ (if cached then [] else [setError PIPELINE_ERROR])))
    in Heq.
  destruct (split_at_unique reports_full _ _ _ _ _ _ Heq He) as (-> & _ & _);
    [| |reflexivity].
  - apply Forall_app; split.
    + repeat constructor; intros (q & Hq & H1); try discriminate;
        inversion Hq; subst q; vm_compute in H1; discriminate.
    + apply turns_not_full; lia.
  - destruct cached; repeat constructor; intros (q & Hq & _); discriminate.
Qed.

(** ** Strings *)

Lemma startsWith_spec (t : string) : forall s,
  JS.startsWith s t = true <-> exists post, s = t +:+ post.
Proof.
  induction t as [|b t IH]; intros s.
  - destruct s; simpl; split; eauto.
  - destruct s as [|a s]; simpl.
    + split; [discriminate | intros (post & H); discriminate].
    + rewrite andb_true_iff, IH. split.
      * intros (Hab & post & ->). apply Ascii.eqb_eq in Hab. subst. eauto.
      * intros (post & H). inversion H; subst. split; [apply Ascii.eqb_refl | eauto].
Qed.

(** [s.includes(t)] says that [t] is a substring of [s]. *)
Lemma includes_spec (t s : string) :
  JS.includes s t = true <-> exists pre post, s = pre +:+ t +:+ post.
Proof.
  induction s as [|a s IH].
  - cbn [JS.includes]. rewrite orb_false_r, startsWith_spec. split.
    + intros (post & H). exists "", post. exact H.
    + intros (pre & post & H). destruct pre; simpl in H; [eauto | discriminate].
  - cbn [JS.includes]. rewrite orb_true_iff, startsWith_spec, IH. split.
    + intros [(post & H) | (pre & post & H)].
      * exists "", post. exact H.
      * exists (String a pre), post. simpl. rewrite H. reflexivity.
    + intros (pre & post & H). destruct pre as [|b pre]; simpl in H.
      * left. eauto.
      * right. inversion H; subst. eauto.
Qed.

(** ** The style hint *)

Lemma find_first {A} (f : A -> bool) (before : list A) (x : A) (after : list A) :
  Forall (fun u => f u = false) before -> f x = true ->
  find f (before ++ x :: after) = Some x.
Proof.
  induction 1 as [|u before Hu _ IH]; intros Hx; simpl.
  - rewrite Hx. reflexivity.
  - rewrite Hu. auto.
Qed.

Lemma find_none {A} (f : A -> bool) (l : list A) :
  Forall (fun u => f u = false) l -> find f l = None.
Proof. induction 1 as [|u l Hu _ IH]; simpl; [|rewrite Hu]; auto. Qed.

Lemma primaryStyle_head profile :
  primaryStyle profile = head (UserProfile.styles profile).
Proof. unfold primaryStyle. destruct (UserProfile.styles profile); reflexivity. Qed.

(** ** The claims about the run *)

(** C1.  When the profile has a photo and the search returns a non-empty
    list of candidates, the run hands over exactly one feed entry per
    candidate, in the order of the candidates: the entry of a candidate has
    its caption and products and ends with its image.  Whatever
    [generateTryOn] does (return a locator, return null, throw), it is called
    once per candidate, in order, and no candidate is dropped or repeated. *)
Theorem C1_one_entry_per_candidate
    (W : World.t) (cfg : Config.t) (C : Collaborators) (s : Store.t)
    (profile : UserProfile.t) (photo : string) (s1 : Store.t) (t1 : list IOEvent)
    (outfits : list PinterestOutfit.t) (s2 : Store.t) (t2 : list IOEvent) :
  getProfile s = (Returned profile, s1, t1) ->
  UserProfile.photoUri profile = Some photo ->
  JS.truthy photo = true ->
  searchPinterest (keywords_of profile) (Config.PINTEREST_FETCH_LIMIT cfg) true s1
    = (Returned outfits, s2, t2) ->
  outfits <> [] ->
  let t := trace (runPipeline W cfg s) in
  Forall2 entry_of outfits (produced t) /\
  length (produced t) = length outfits /\
  map OutfitPost.captionHint (produced t) = map PinterestOutfit.captionHint outfits /\
  try_on_calls t = map (try_on_args profile photo) outfits.
Proof.
  intros Hprof Hphoto Htruthy Hsearch Hne t.
  destruct (run_composed W cfg s profile photo s1 t1 outfits s2 t2
              Hprof Hphoto Htruthy Hsearch Hne)
    as (rows & posts & s' & t' & cached & Hrun & Hrows & Hsk & Hmade).
  pose proof (made_from_entries rows posts Hmade) as Hall. rewrite Hrows in Hall.
  subst t. rewrite Hrun. unfold trace. simpl.
  assert (Hprod : produced t' = posts).
  { rewrite produced_skeleton, Hsk. unfold produced, composed_skeleton.
    simpl. rewrite omap_app, turns_cached. simpl.
    destruct cached; simpl; apply app_nil_r. }
  rewrite Hprod. repeat split.
  - exact Hall.
  - symmetry. eapply Forall2_length; eauto.
  - clear -Hall. induction Hall as [|o p os ps Hop _ IH]; simpl; auto.
    destruct Hop as (-> & _). f_equal. exact IH.
  - rewrite try_on_calls_skeleton, Hsk. unfold try_on_calls, composed_skeleton.
    simpl. rewrite omap_app.
    fold (try_on_calls (turns_skeleton profile photo (length rows) 1 rows)).
    rewrite turns_calls, Hrows. destruct cached; simpl; apply app_nil_r.
Qed.

Lemma C1_witness :
  let t := trace (runPipeline Demo.world Demo.cfg (C := app Demo.world Demo.cfg)
                    Store.init) in
  Forall2 entry_of Demo.outfits (produced t) /\
  length (produced t) = length Demo.outfits /\
  map OutfitPost.captionHint (produced t)
    = map PinterestOutfit.captionHint Demo.outfits /\
  try_on_calls t
    = map (try_on_args Demo.profile "file:///docs/selfie.heic") Demo.outfits.
Proof.
  eapply (C1_one_entry_per_candidate Demo.world Demo.cfg
            (app Demo.world Demo.cfg) Store.init Demo.profile).
  - vm_compute. reflexivity.
  - reflexivity.
  - reflexivity.
  - vm_compute. reflexivity.
  - discriminate.
Defined.

Lemma images_for_nonempty r reference : images_for r reference <> [].
Proof.
  destruct r as [[uri|]|e]; simpl; try discriminate.
  destruct (JS.truthy uri); discriminate.
Qed.

Lemma made_from_images rows posts :
  Forall2 made_from rows posts ->
  map OutfitPost.images posts =
  zip_with images_for (map snd rows)
    (map (fun row => source_or_primary (fst row)) rows).
Proof.
  induction 1 as [|row post rows posts (_ & _ & Hi) _ IH]; simpl; auto.
  rewrite Hi, IH. reflexivity.
Qed.

(** C2.  A turn of the loop adds one entry whose image list is decided by
    how the call to [generateTryOn] ended: the generated locator followed by
    the candidate's source-or-primary locator when it returned a (non-empty)
    locator, and the candidate's locator alone when it returned null or
    threw.  In every run, the image lists of the entries handed over are, in
    order, the ones so decided by the calls made, and none is empty. *)
Theorem C2_entry_images
    (W : World.t) (C : Collaborators) (profile : UserProfile.t) (photo : string)
    (total : nat) (l : Loop.t) (outfit : PinterestOutfit.t) (s : Store.t) :
  let r :=
    outcome (generateTryOn photo (source_or_primary outfit)
               (PinterestOutfit.captionHint outfit)
               (UserProfile.gender profile) (outfitStyle profile outfit) s) in
  (exists post s' t ai,
     turn W profile photo total l outfit s =
       (Returned (Loop.mk (Loop.posts l ++ [post]) (Loop.done l + 1) ai), s', t) /\
     (forall uri, r = Returned (Some uri) -> JS.truthy uri = true ->
        OutfitPost.images post = [uri; source_or_primary outfit]) /\
     (r = Returned None \/ (exists e, r = Thrown e) ->
        OutfitPost.images post = [source_or_primary outfit]) /\
     OutfitPost.images post <> []) /\
  (forall cfg s0,
     let t := trace (runPipeline W cfg s0) in
     map OutfitPost.images (produced t)
       = zip_with images_for (try_on_results t) (try_on_references t) /\
     Forall (fun post => OutfitPost.images post <> []) (produced t)).
Proof.
  intros r. split.
  - destruct (turn_spec W profile photo total l outfit s)
      as (post & s' & t & ai & Hturn & _ & _ & _ & Hi).
    simpl in Hi. fold r in Hi. exists post, s', t, ai. repeat split; auto.
    + intros uri Hr Hu. rewrite Hi, Hr. simpl. rewrite Hu. reflexivity.
    + intros [Hr|(e & Hr)]; rewrite Hi, Hr; reflexivity.
    + rewrite Hi. apply images_for_nonempty.
  - intros cfg s0 t. subst t.
    destruct (run_shape W cfg s0) as (s' & t & Hrun & Hshape).
    rewrite Hrun. unfold trace. simpl.
    rewrite produced_skeleton, try_on_results_skeleton, try_on_references_skeleton.
    inversion Hshape as [Hsk|Hsk|p Hsk|p Hsk|p ph rows ps c Hne Hall Hsk];
      try solve [split; [reflexivity | constructor]].
    assert (Hprod : produced (composed_skeleton cfg p ph rows ps c) = ps).
    { unfold produced, composed_skeleton. simpl.
      rewrite omap_app, turns_cached. destruct c; simpl; apply app_nil_r. }
    assert (Hres : try_on_results (composed_skeleton cfg p ph rows ps c)
                   = map snd rows).
    { unfold try_on_results, composed_skeleton. simpl. rewrite omap_app.
      fold (try_on_results (turns_skeleton p ph (length rows) 1 rows)).
      rewrite turns_results. destruct c; simpl; apply app_nil_r. }
    assert (Href : try_on_references (composed_skeleton cfg p ph rows ps c)
                   = map (fun row => source_or_primary (fst row)) rows).
    { unfold try_on_references, composed_skeleton. simpl. rewrite omap_app.
      fold (try_on_references (turns_skeleton p ph (length rows) 1 rows)).
      rewrite turns_references. destruct c; simpl; apply app_nil_r. }
    rewrite Hprod, Hres, Href. split.
    + apply made_from_images. exact Hall.
    + clear -Hall. induction Hall as [|row post rows ps (_ & _ & Hi) _ IH];
        constructor; auto.
      rewrite Hi. apply images_for_nonempty.
Qed.

(** C3.  When the profile has no photo reference (null, or an empty string),
    the run ends at once in the failed state with the message that asks for a
    photo: the only thing it did was to read the profile, it hands over no
    feed entry and it never calls [searchPinterest]. *)
Theorem C3_no_photo_aborts
    (W : World.t) (cfg : Config.t) (C : Collaborators) (s : Store.t)
    (profile : UserProfile.t) (s1 : Store.t) (t1 : list IOEvent) :
  getProfile s = (Returned profile, s1, t1) ->
  JS.truthy_opt (UserProfile.photoUri profile) = false ->
  let r := runPipeline W cfg s in
  outcome r = Returned tt /\
  store r = s1 /\
  trace r = call_getProfile :: map IO t1 ++ [setError NO_PHOTO] /\
  final_error (trace r) = Some NO_PHOTO /\
  produced (trace r) = [] /\
  search_calls (trace r) = [] /\
  try_on_calls (trace r) = [].
Proof.
  intros Hprof Hphoto r. subst r.
  rewrite (run_no_photo W cfg s profile s1 t1 Hprof Hphoto).
  unfold outcome, store, trace. simpl. repeat split.
  - rewrite final_error_skeleton. skeleton_simpl. reflexivity.
  - rewrite produced_skeleton. skeleton_simpl. reflexivity.
  - rewrite search_calls_skeleton. skeleton_simpl. reflexivity.
  - rewrite try_on_calls_skeleton. skeleton_simpl. reflexivity.
Qed.

Lemma C3_witness :
  let r := runPipeline Demo.world_without_photo Demo.cfg
             (C := app Demo.world_without_photo Demo.cfg) Store.init in
  outcome r = Returned tt /\
  store r = Store.next_read Store.init /\
  trace r = call_getProfile :: map IO [ProfileRead] ++ [setError NO_PHOTO] /\
  final_error (trace r) = Some NO_PHOTO /\
  produced (trace r) = [] /\
  search_calls (trace r) = [] /\
  try_on_calls (trace r) = [].
Proof.
  eapply (C3_no_photo_aborts Demo.world_without_photo Demo.cfg
            (app Demo.world_without_photo Demo.cfg) Store.init
            Storage.DEFAULT_PROFILE).
  - vm_compute. reflexivity.
  - reflexivity.
Defined.

(** C4.  When the profile has a photo and [searchPinterest] returns an empty
    list, the run ends in the failed state with the no-outfits message, which
    differs from the message for a missing photo and from the generic one; it
    hands over no feed entry and never calls [generateTryOn]. *)
Theorem C4_no_outfits_aborts
    (W : World.t) (cfg : Config.t) (C : Collaborators) (s : Store.t)
    (profile : UserProfile.t) (s1 : Store.t) (t1 : list IOEvent)
    (s2 : Store.t) (t2 : list IOEvent) :
  getProfile s = (Returned profile, s1, t1) ->
  JS.truthy_opt (UserProfile.photoUri profile) = true ->
  searchPinterest (keywords_of profile) (Config.PINTEREST_FETCH_LIMIT cfg) true s1
    = (Returned [], s2, t2) ->
  let r := runPipeline W cfg s in
  outcome r = Returned tt /\
  store r = s2 /\
  final_error (trace r) = Some NO_OUTFITS /\
  NO_OUTFITS <> NO_PHOTO /\ NO_OUTFITS <> PIPELINE_ERROR /\
  produced (trace r) = [] /\
  try_on_calls (trace r) = [] /\
  search_calls (trace r)
    = [(keywords_of profile, Config.PINTEREST_FETCH_LIMIT cfg, true)].
Proof.
  intros Hprof Hphoto Hsearch r. subst r.
  rewrite (run_no_outfits W cfg s profile s1 t1 s2 t2 Hprof Hphoto Hsearch).
  unfold outcome, store, trace. simpl. repeat split.
  - rewrite final_error_skeleton. skeleton_simpl. reflexivity.
  - discriminate.
  - discriminate.
  - rewrite produced_skeleton. skeleton_simpl. reflexivity.
  - rewrite try_on_calls_skeleton. skeleton_simpl. reflexivity.
  - rewrite search_calls_skeleton. skeleton_simpl. reflexivity.
Qed.

Lemma C4_witness :
  let r := runPipeline Demo.world_slow_bridge Demo.cfg
             (C := app Demo.world_slow_bridge Demo.cfg) Store.init in
  outcome r = Returned tt /\
  store r = Store.next_bridge (Store.next_read Store.init) /\
  final_error (trace r) = Some NO_OUTFITS /\
  NO_OUTFITS <> NO_PHOTO /\ NO_OUTFITS <> PIPELINE_ERROR /\
  produced (trace r) = [] /\
  try_on_calls (trace r) = [] /\
  search_calls (trace r) = [(["y2k outfit"], 10, true)].
Proof.
  eapply (C4_no_outfits_aborts Demo.world_slow_bridge Demo.cfg
            (app Demo.world_slow_bridge Demo.cfg) Store.init Demo.profile).
  - vm_compute. reflexivity.
  - reflexivity.
  - vm_compute. reflexivity.
Defined.

(** C9.  In every run, whatever the collaborators do, the values given to the
    progress bar increase strictly from one report to the next (so they never
    decrease, and each completed candidate raises the value), and a report of
    full progress comes only after the last candidate was completed: before
    it, the run has set the total to some [n], has made [n] calls to
    [generateTryOn] and has reported [n] completed candidates.  Progress is
    computed over the rationals here. *)
Theorem C9_progress_monotone
    (W : World.t) (cfg : Config.t) (C : Collaborators) (s : Store.t) :
  let t := trace (runPipeline W cfg s) in
  StronglySorted Qlt (progress_values t) /\
  StronglySorted Qle (progress_values t) /\
  (forall pre q post,
     t = pre ++ setProgress q :: post -> q == 1 ->
     exists n, In (setTotal n) pre /\ In (setCompleted n) pre /\
               length (try_on_calls pre) = n).
Proof.
  intros t. subst t.
  destruct (run_shape W cfg s) as (s' & t & Hrun & Hshape).
  rewrite Hrun. unfold trace. simpl.
  assert (Hsorted : StronglySorted Qlt (progress_values t)).
  { rewrite progress_values_skeleton.
    inversion Hshape as [Hsk|Hsk|p Hsk|p Hsk|p ph os ps c Hne Hall Hsk];
      try solve [unfold progress_values; simpl; repeat constructor].
    unfold progress_values, composed_skeleton. simpl.
    rewrite omap_app.
    fold (progress_values (turns_skeleton p ph (@length Row os) 1 os)).
    rewrite turns_progress.
    replace (omap progress_of
               ([setProgress 1; call_cacheFeed ps] ++
                (if c then [] else [setError PIPELINE_ERROR])))
      with [1%Q] by (destruct c; reflexivity).
    apply full_progress_sorted. destruct os; simpl; [congruence|lia]. }
  split; [exact Hsorted|]. split.
  - clear -Hsorted. induction Hsorted as [|a l Hs IH Ha]; constructor; auto.
    eapply Forall_impl; [exact Ha|]. intros q Hq. apply Qlt_le_weak. exact Hq.
  - intros pre q post Heq Hq.
    assert (Hsk : skeleton t = skeleton pre ++ setProgress q :: skeleton post).
    { rewrite Heq, skeleton_app. reflexivity. }
    assert (Hfull : reports_full (setProgress q)) by (exists q; auto).
    inversion Hshape as [Hs|Hs|p Hs|p Hs|p ph os ps c Hne Hall Hs];
      rewrite Hsk in Hs.
    + destruct (skeleton pre) as [|? [|? [|? ?]]]; simpl in Hs; inversion Hs.
    + destruct (skeleton pre) as [|? [|? [|? ?]]]; simpl in Hs; inversion Hs.
    + destruct (skeleton pre) as [|? [|? [|? [|? [|? ?]]]]]; simpl in Hs;
        inversion Hs; subst; vm_compute in Hq; discriminate.
    + destruct (skeleton pre) as [|? [|? [|? [|? [|? ?]]]]]; simpl in Hs;
        inversion Hs; subst; vm_compute in Hq; discriminate.
    + pose proof (composed_full_position cfg p ph os ps c _ _ _ Hne Hs Hfull) as Hpre.
      exists (length os). repeat split.
      * apply skeleton_In. rewrite Hpre. simpl. auto 10.
      * apply skeleton_In. rewrite Hpre. simpl. do 5 right.
        pose proof (turns_last_completed p ph (length os) os 1 Hne) as Hlast.
        replace (1 + length os - 1) with (length os) in Hlast by lia.
        exact Hlast.
      * rewrite try_on_calls_skeleton, Hpre. unfold try_on_calls. simpl.
        fold (try_on_calls (turns_skeleton p ph (length os) 1 os)).
        rewrite turns_calls. rewrite !length_map. reflexivity.
Qed.

(** ** The claims about the style hint and the environment *)

(** C5, as stated, at the spec's pinned scenario: with the tags
    [Streetwear; Y2K] and the caption "best y2k streetwear look" the style
    hint is not "Y2K": both tags occur in the caption and "Streetwear" comes
    first in the tag list. *)
Lemma C5_counterexample :
  outfitStyle (Scenario.tagged ["Streetwear"; "Y2K"]) Scenario.caption
    = Some "Streetwear" /\
  outfitStyle (Scenario.tagged ["Streetwear"; "Y2K"]) Scenario.caption
    <> Some "Y2K".
Proof. split; [reflexivity | discriminate]. Qed.

(** C5, amended.  The style hint of a candidate is the first of the
    profile's style tags, in tag order, whose lower-cased text is a substring
    of the lower-cased caption; when no tag is, it is the first tag, and
    null when there is no tag.  It is what the loop passes to
    [generateTryOn].  In the pinned scenario the hint is "Streetwear"; with
    the tags in the order [Y2K; Streetwear] it is "Y2K". *)
Theorem C5_style_hint (profile : UserProfile.t) (outfit : PinterestOutfit.t) :
  let styles := UserProfile.styles profile in
  let caption := PinterestOutfit.captionHint outfit in
  (forall tag,
     caption_mentions caption tag = true <->
     exists pre post,
       JS.toLowerCase caption = pre +:+ JS.toLowerCase tag +:+ post) /\
  (forall before tag after,
     styles = before ++ tag :: after ->
     Forall (fun u => caption_mentions caption u = false) before ->
     caption_mentions caption tag = true ->
     outfitStyle profile outfit = Some tag) /\
  (Forall (fun u => caption_mentions caption u = false) styles ->
   outfitStyle profile outfit = head styles) /\
  (styles = [] -> outfitStyle profile outfit = None) /\
  (forall (W : World.t) (C : Collaborators) photo total l s,
     try_on_calls (trace (turn W profile photo total l outfit s))
       = [(photo, source_or_primary outfit, caption,
           UserProfile.gender profile, outfitStyle profile outfit)]) /\
  outfitStyle (Scenario.tagged ["Streetwear"; "Y2K"]) Scenario.caption
    = Some "Streetwear" /\
  outfitStyle (Scenario.tagged ["Y2K"; "Streetwear"]) Scenario.caption
    = Some "Y2K".
Proof.
  intros styles caption. repeat split.
  - apply includes_spec.
  - apply includes_spec.
  - intros before tag after Hs Hb Ht. unfold outfitStyle. fold styles caption.
    rewrite Hs, (find_first _ before tag after Hb Ht). reflexivity.
  - intros Hnone. unfold outfitStyle. fold styles caption.
    rewrite (find_none _ styles Hnone). apply primaryStyle_head.
  - intros Hs. unfold outfitStyle, primaryStyle. fold styles. rewrite Hs. reflexivity.
  - intros W C photo total l s.
    destruct (turn_spec W profile photo total l outfit s)
      as (post & s' & t & ai & Hturn & Hsk & _).
    rewrite Hturn. unfold trace. simpl.
    rewrite try_on_calls_skeleton, Hsk. reflexivity.
Qed.



(** ** The generation client *)

Section GeminiFacts.

Variable W : World.t.
Variable cfg : Config.t.
Variables (url prompt : string) (images : list EncodedImage.t).

Lemma save_generated_schedule data s :
  schedule (trace (Gemini.save_generated W data s)) = [] /\
  Store.gemini_requests (store (Gemini.save_generated W data s))
    = Store.gemini_requests s.
Proof.
  unfold Gemini.save_generated, bind, mutate, Date_now, random_suffix,
    Math_random, bind, ret, throw, schedule, trace, store.
  simpl.
  destruct (World.mutation_ok W (Store.file_mutations s)); simpl; auto.
  destruct (World.atob W data); simpl; auto.
  destruct (World.mutation_ok W (S (Store.file_mutations s))); simpl; auto.
Qed.

Ltac settle :=
  repeat split; intros;
  repeat match goal with
         | H : _ /\ _ |- _ => destruct H
         | H : exists _, _ |- _ => destruct H
         | H : _ \/ _ |- _ => destruct H
         | H : False |- _ => contradiction
         end;
  try discriminate; try congruence; eauto;
  try (apply Nat.ltb_lt; assumption).

(** A response is handled without a further request or wait; when handling
    it throws, that is one of the cases of [can_throw]. *)
Lemma on_response_spec attempt elapsed status body s :
  let reply := Responded elapsed status body in
  let r := Gemini.on_response W attempt (status, body) s in
  schedule (trace r) = [] /\
  Store.gemini_requests (store r) = Store.gemini_requests s /\
  ((exists e, outcome r = Thrown e) -> can_throw reply) /\
  (outcome r = Returned Gemini.Continue ->
     (attempt < Gemini.MAX_RETRIES)%nat /\ transient_reply reply) /\
  (terminal_reply reply -> outcome r = Returned (Gemini.Return None)) /\
  (imageless_reply reply -> outcome r = Returned (Gemini.Return None)) /\
  (transient_reply reply -> outcome r = Returned (retry_or_null attempt)).
Proof.
  intros reply r. subst reply r.
  unfold Gemini.on_response, retry_or_null, transient_reply, terminal_reply,
    imageless_reply, can_throw.
  change ((status =? 429)%Z || (500 <=? status)%Z) with (transient status).
  destruct (ok status) eqn:Hok; cbn [negb].
  - (* a success response *)
    assert (Hnt : transient status = false).
    { unfold ok, transient in *. apply andb_true_iff in Hok. lia. }
    destruct body as [|candidates feedback].
    + unfold throw, outcome, trace, store. simpl. settle.
    + destruct (length (JS.nullish candidates []) =? 0)%nat eqn:Hlen.
      * unfold ret, outcome, trace, store. simpl. settle.
      * destruct (Gemini.first_image (JS.nullish candidates [])) as [data|] eqn:Hfirst.
        -- pose proof (save_generated_schedule data s) as (Hsched & Hreq).
           unfold bind, ret, outcome, trace, store in *.
           destruct (Gemini.save_generated W data s) as [[[uri|e] s1] t1];
             simpl in *; rewrite ?app_nil_r; settle.
        -- unfold ret, outcome, trace, store. simpl. settle.
  - (* a non-success response *)
    destruct (transient status) eqn:Htr, (attempt <? Gemini.MAX_RETRIES)%nat eqn:Hb;
      unfold ret, outcome, trace, store; simpl; settle;
      destruct body; settle.
Qed.

(** One turn makes one request, after the wait that its number asks for. *)
Lemma attempt_turn_spec attempt s :
  exists res s' rest,
    Gemini.attempt_turn W cfg url prompt images attempt s
      = (Returned res, s',
         (if (0 <? attempt)%nat
          then [Delay (Gemini.RETRY_DELAY_MS * Z.of_nat attempt)] else [])
           ++ GeminiPost url (Config.GEMINI_API_KEY cfg) prompt images :: rest) /\
    Store.gemini_requests s' = S (Store.gemini_requests s) /\
    schedule rest = [] /\
    (res = Gemini.Continue ->
       (attempt < Gemini.MAX_RETRIES)%nat /\
       (transient_reply (reply_at W s 0) \/ can_throw (reply_at W s 0))) /\
    (terminal_reply (reply_at W s 0) -> res = Gemini.Return None) /\
    (imageless_reply (reply_at W s 0) -> res = Gemini.Return None) /\
    (transient_reply (reply_at W s 0) -> res = retry_or_null attempt) /\
    ((exists e, reply_at W s 0 = Rejected e) -> res = retry_or_null attempt).
Proof.
  unfold reply_at. rewrite Nat.add_0_r.
  assert (Hwait : forall (k : Prog IOEvent (Gemini.Turn (option string))),
            bind (if (0 <? attempt)%nat
                  then delay (Gemini.RETRY_DELAY_MS * Z.of_nat attempt)
                  else ret tt) (fun _ => k) s
            = match k s with
              | (o, s1, t1) =>
                  (o, s1,
                   (if (0 <? attempt)%nat
                    then [Delay (Gemini.RETRY_DELAY_MS * Z.of_nat attempt)]
                    else []) ++ t1)
              end).
  { intros k. unfold bind, delay, emit, ret.
    destruct (0 <? attempt)%nat; simpl; destruct (k s) as [[o s1] t1]; reflexivity. }
  unfold Gemini.attempt_turn, try_catch. rewrite Hwait. clear Hwait.
  unfold bind at 1, fetch_gemini.
  destruct (World.gemini W (Store.gemini_requests s))
    as [elapsed|elapsed status body] eqn:Hreply.
  - (* the request was rejected: the handler decides *)
    unfold retry_or_null, ret.
    destruct (attempt <? Gemini.MAX_RETRIES)%nat eqn:Hb; simpl;
      do 3 eexists; (split; [rewrite <- app_assoc; reflexivity|]); settle.
  - pose proof (on_response_spec attempt elapsed status body (Store.next_gemini s))
      as (Hsched & Hreq & Hthrow & Hcont & Hterm & Hnone & Htrans).
    unfold outcome, store, trace in *.
    destruct (Gemini.on_response W attempt (status, body) (Store.next_gemini s))
      as [[[res|e] s1] t1]; simpl in *.
    + do 3 eexists. split; [reflexivity|]. settle.
      * apply Hcont. congruence.
      * left. apply Hcont. congruence.
      * specialize (Hterm ltac:(auto)). congruence.
      * specialize (Hnone ltac:(auto)). congruence.
      * specialize (Htrans ltac:(auto)). congruence.
    + unfold retry_or_null, ret.
      destruct (attempt <? Gemini.MAX_RETRIES)%nat eqn:Hb; simpl;
        do 3 eexists; (split; [rewrite ?app_nil_r; reflexivity|]); settle.
      all: try (right; apply Hthrow; eauto).
      all: try (exfalso;
                first [ specialize (Hterm ltac:(auto))
                      | specialize (Hnone ltac:(auto))
                      | specialize (Htrans ltac:(auto)) ];
                discriminate).
Qed.

(** A turn whose request got a response, as an equation. *)
Lemma attempt_turn_responded attempt s elapsed status body :
  reply_at W s 0 = Responded elapsed status body ->
  Gemini.attempt_turn W cfg url prompt images attempt s =
  let wait :=
    if (0 <? attempt)%nat
    then [Delay (Gemini.RETRY_DELAY_MS * Z.of_nat attempt)] else [] in
  let post := GeminiPost url (Config.GEMINI_API_KEY cfg) prompt images in
  match Gemini.on_response W attempt (status, body) (Store.next_gemini s) with
  | (Returned res, s1, t1) => (Returned res, s1, wait ++ post :: t1)
  | (Thrown _, s1, t1) => (Returned (retry_or_null attempt), s1, wait ++ post :: t1)
  end.
Proof.
  unfold reply_at. rewrite Nat.add_0_r. intros Hreply.
  unfold Gemini.attempt_turn, try_catch, retry_or_null.
  unfold bind at 1. unfold delay, emit, ret.
  destruct (0 <? attempt)%nat, (attempt <? Gemini.MAX_RETRIES)%nat;
    cbn beta iota; unfold bind, fetch_gemini; rewrite Hreply;
    destruct (Gemini.on_response W attempt (status, body) (Store.next_gemini s))
      as [[[res|e] s1] t1]; cbn; rewrite ?app_nil_r; reflexivity.
Qed.

Lemma schedule_turn attempt rest t :
  schedule rest = [] ->
  schedule (((if (0 <? attempt)%nat
              then [Delay (Gemini.RETRY_DELAY_MS * Z.of_nat attempt)] else [])
             ++ GeminiPost url (Config.GEMINI_API_KEY cfg) prompt images :: rest)
            ++ t)
  = (if (0 <? attempt)%nat
     then [Wait (Gemini.RETRY_DELAY_MS * Z.of_nat attempt)] else [])
      ++ Request :: schedule t.
Proof.
  intros Hrest. unfold schedule in *. rewrite !omap_app.
  change (omap tick_of (GeminiPost url (Config.GEMINI_API_KEY cfg) prompt images :: rest))
    with (Request :: omap tick_of rest).
  rewrite Hrest. destruct (0 <? attempt)%nat; reflexivity.
Qed.

Lemma reply_at_next s s1 k :
  Store.gemini_requests s1 = S (Store.gemini_requests s) ->
  reply_at W s1 k = reply_at W s (S k).
Proof.
  intros H. unfold reply_at. rewrite H. f_equal. lia.
Qed.

(** The loop over the attempt numbers [a], ..., [MAX_RETRIES]: it makes [n]
    requests, at least one, with the waits of the plan between them; every
    attempt but the last one failed in a way that is retried, and the first
    reply that is not retried ends the loop. *)
Lemma attempts_spec : forall m a s,
  a + m = S Gemini.MAX_RETRIES ->
  exists n v s' t,
    Gemini.attempts W cfg url prompt images (seq a m) s = (Returned v, s', t) /\
    n <= m /\ (0 < m -> 0 < n) /\
    Store.gemini_requests s' = Store.gemini_requests s + n /\
    schedule t = plan_from a n /\
    (forall k, S k < n ->
       transient_reply (reply_at W s k) \/ can_throw (reply_at W s k)) /\
    (forall k, k < n -> terminal_reply (reply_at W s k) -> n = S k /\ v = None) /\
    (forall k, k < n -> imageless_reply (reply_at W s k) -> n = S k /\ v = None) /\
    (forall k, k < n -> a + k < Gemini.MAX_RETRIES ->
       transient_reply (reply_at W s k) \/ (exists e, reply_at W s k = Rejected e) ->
       S k < n) /\
    ((forall k, k < m ->
        transient_reply (reply_at W s k) \/ exists e, reply_at W s k = Rejected e) ->
     n = m /\ v = None).
Proof.
  induction m as [|m IH]; intros a s Ham.
  - exists 0, None, s, []. simpl. unfold ret.
    repeat split; auto; try lia; intros; lia.
  - destruct (attempt_turn_spec a s)
      as (res & s1 & rest & Hturn & Hreq & Hrest & Hcont & Hterm & Hnone & Htrans & Hrej).
    cbn [seq Gemini.attempts]. unfold bind. rewrite Hturn.
    destruct res as [|v].
    + (* continue *)
      destruct (Hcont eq_refl) as (Hbudget & Hcause).
      destruct (IH (S a) s1 ltac:(lia))
        as (n & v & s2 & t & Hrun & Hle & Hpos & Hreq2 & Hsched & Hcauses
            & Hterms & Hnones & Hmore & Hall).
      rewrite Hrun.
      exists (S n), v, s2,
        (((if (0 <? a)%nat
           then [Delay (Gemini.RETRY_DELAY_MS * Z.of_nat a)] else [])
          ++ GeminiPost url (Config.GEMINI_API_KEY cfg) prompt images :: rest) ++ t).
      split; [reflexivity|]. split; [lia|]. split; [lia|].
      split; [rewrite Hreq2, Hreq; lia|].
      split; [rewrite schedule_turn, Hsched by assumption; reflexivity|].
      split; [|split; [|split; [|split]]].
      * intros [|k] Hk; [exact Hcause|].
        rewrite <- (reply_at_next s s1 k Hreq). apply Hcauses. lia.
      * intros [|k] Hk Ht.
        -- specialize (Hterm Ht). discriminate.
        -- rewrite <- (reply_at_next s s1 k Hreq) in Ht.
           destruct (Hterms k ltac:(lia) Ht) as (-> & ->). auto.
      * intros [|k] Hk Ht.
        -- specialize (Hnone Ht). discriminate.
        -- rewrite <- (reply_at_next s s1 k Hreq) in Ht.
           destruct (Hnones k ltac:(lia) Ht) as (-> & ->). auto.
      * intros [|k] Hk Hbud Ht; [lia|].
        rewrite <- (reply_at_next s s1 k Hreq) in Ht.
        specialize (Hmore k ltac:(lia) ltac:(lia) Ht). lia.
      * intros Hfail.
        destruct Hall as (-> & ->); [|auto].
        intros k Hk. rewrite (reply_at_next s s1 k Hreq). apply Hfail. lia.
    + (* return *)
      exists 1, v, s1,
        ((if (0 <? a)%nat
          then [Delay (Gemini.RETRY_DELAY_MS * Z.of_nat a)] else [])
         ++ GeminiPost url (Config.GEMINI_API_KEY cfg) prompt images :: rest).
      split; [unfold ret; rewrite app_nil_r; reflexivity|].
      split; [lia|]. split; [lia|]. split; [rewrite Hreq; lia|].
      split.
      { rewrite <- (app_nil_r (_ ++ _ :: rest)), schedule_turn by assumption.
        reflexivity. }
      split; [intros k Hk; lia|]. split; [|split; [|split]].
      * intros k Hk Ht. assert (k = 0) by lia. subst k.
        specialize (Hterm Ht). inversion Hterm. auto.
      * intros k Hk Ht. assert (k = 0) by lia. subst k.
        specialize (Hnone Ht). inversion Hnone. auto.
      * intros k Hk Hbud Ht. assert (k = 0) by lia. subst k. exfalso.
        assert (Hres : Gemini.Return v = retry_or_null a)
          by (destruct Ht as [Ht|Ht]; auto).
        unfold retry_or_null in Hres.
        destruct (a <? Gemini.MAX_RETRIES)%nat eqn:Hb; [discriminate|].
        apply Nat.ltb_ge in Hb. lia.
      * intros Hfail.
        assert (Hres : Gemini.Return v = retry_or_null a).
        { destruct (Hfail 0 ltac:(lia)) as [H0|H0]; auto. }
        unfold retry_or_null in Hres.
        destruct (a <? Gemini.MAX_RETRIES)%nat eqn:Hb; [discriminate|].
        apply Nat.ltb_ge in Hb. inversion Hres. split; [lia|reflexivity].
Qed.

End GeminiFacts.


Lemma first_image_part_app ps qs :
  Gemini.first_image_part (ps ++ qs) =
  match Gemini.first_image_part ps with
  | Some d => Some d
  | None => Gemini.first_image_part qs
  end.
Proof.
  induction ps as [|p ps IH]; simpl; auto.
  destruct (Gemini.image_data p); auto.
Qed.

(** The two nested loops scan the parts of all candidates in order. *)
Lemma first_image_flat cs :
  Gemini.first_image cs = Gemini.first_image_part (concat (map Gemini.parts_of cs)).
Proof.
  induction cs as [|c cs IH]; simpl; auto.
  rewrite first_image_part_app, IH. reflexivity.
Qed.

Lemma first_image_part_none ps :
  Forall (fun p => Gemini.image_data p = None) ps ->
  Gemini.first_image_part ps = None.
Proof. induction 1 as [|p ps Hp _ IH]; simpl; [|rewrite Hp]; auto. Qed.

Lemma first_image_part_first before p after data :
  Forall (fun q => Gemini.image_data q = None) before ->
  Gemini.image_data p = Some data ->
  Gemini.first_image_part (before ++ p :: after) = Some data.
Proof.
  intros Hb Hp. rewrite first_image_part_app, (first_image_part_none before Hb).
  simpl. rewrite Hp. reflexivity.
Qed.

(** ** The claims about the generation client *)




(** When the service is always overloaded: three requests, 2 s and 4 s
    apart, then null. *)
Example busy_service_exhausts_budget :
  let r := Gemini.generateWithImages Demo.world_busy_gemini Demo.cfg "p" []
             Store.init in
  outcome r = Returned None /\ schedule (trace r) = RETRY_PLAN.
Proof. split; reflexivity. Qed.

(** A bad request is not retried. *)
Example bad_request_is_final :
  let s := Store.next_gemini Store.init in
  let r := Gemini.generateWithImages Demo.world Demo.cfg "p" [] s in
  outcome r = Returned None /\ schedule (trace r) = [Request].
Proof. split; reflexivity. Qed.

(** C7.  When the reply to a request is a success response with a JSON body,
    the turn scans the parts of all candidates, in candidate order and in
    part order within a candidate: if no part has inline image data (in
    particular when there are no candidates) the call returns null at once;
    otherwise the first part that has some decides: its data is decoded and
    written to a new file whose URI is returned, whatever comes after it.  So
    a response whose first candidate has only text and whose second has an
    inlined image yields the second candidate's image. *)
Theorem C7_first_image_wins
    (W : World.t) (cfg : Config.t) (url prompt : string)
    (images : list EncodedImage.t) (attempt : nat) (later : list nat)
    (s : Store.t) (elapsed status : Z)
    (candidates : option (list GeminiCandidate.t)) (feedback : option string) :
  reply_at W s 0 = Responded elapsed status (GeminiJson candidates feedback) ->
  ok status = true ->
  let parts := concat (map Gemini.parts_of (JS.nullish candidates [])) in
  let r := Gemini.attempts W cfg url prompt images (attempt :: later) s in
  (Forall (fun p => Gemini.image_data p = None) parts ->
   outcome r = Returned None /\
   Store.gemini_requests (store r) = S (Store.gemini_requests s)) /\
  (forall before p after data raw,
     parts = before ++ p :: after ->
     Forall (fun q => Gemini.image_data q = None) before ->
     Gemini.image_data p = Some data ->
     World.atob W data = Some raw ->
     World.mutation_ok W (Store.file_mutations s) = true ->
     World.mutation_ok W (S (Store.file_mutations s)) = true ->
     let filename :=
       "gen-" +:+ JS.show_Z (World.Date_now W (Store.clock_reads s)) +:+ "-"
         +:+ JS.slice 2 6
               (World.toString36 W (World.Math_random W (Store.random_draws s)))
         +:+ ".png" in
     let uri := World.join W (World.document W) (Gemini.generated_path filename) in
     outcome r = Returned (Some uri) /\
     In (FileWrite uri raw) (trace r) /\
     Store.gemini_requests (store r) = S (Store.gemini_requests s)) /\
  Gemini.first_image [Demo.text_only; Demo.with_image] = Some "aGVsbG8=" /\
  outcome (Gemini.generateWithImages Demo.world Demo.cfg "p" [] Store.init)
    = Returned (Some "file:///docs/fitscroll/generated/gen-1700000000000-i.png").
Proof.
  intros Hreply Hok parts r.
  assert (Hlater : forall v s1 t1,
            Gemini.on_response W attempt (status, GeminiJson candidates feedback)
              (Store.next_gemini s) = (Returned (Gemini.Return v), s1, t1) ->
            r = (Returned v, s1,
                 ((if (0 <? attempt)%nat
                   then [Delay (Gemini.RETRY_DELAY_MS * Z.of_nat attempt)] else [])
                  ++ GeminiPost url (Config.GEMINI_API_KEY cfg) prompt images :: t1)
                 ++ [])).
  { intros v s1 t1 Hresp. subst r. cbn [Gemini.attempts].
    unfold bind at 1.
    rewrite (attempt_turn_responded W cfg url prompt images attempt s _ _ _ Hreply).
    cbn zeta. rewrite Hresp. reflexivity. }
  split; [|split; [|split; reflexivity]].
  - intros Hnone. fold parts in Hnone.
    rewrite (Hlater None (Store.next_gemini s) []); [split; reflexivity|].
    unfold Gemini.on_response. rewrite Hok. cbn [negb].
    rewrite first_image_flat. fold parts. rewrite (first_image_part_none _ Hnone).
    destruct (length (JS.nullish candidates []) =? 0)%nat; reflexivity.
  - intros before p after data raw Hparts Hbefore Hdata Hatob Hm1 Hm2 filename uri.
    assert (Hfirst : Gemini.first_image (JS.nullish candidates []) = Some data).
    { rewrite first_image_flat. fold parts. rewrite Hparts.
      apply first_image_part_first; assumption. }
    assert (Hlen : (length (JS.nullish candidates []) =? 0)%nat = false).
    { destruct (JS.nullish candidates []); [discriminate|reflexivity]. }
    rewrite (Hlater (Some uri)
               (Store.next_mutation (Store.next_random (Store.next_clock
                  (Store.next_mutation (Store.next_gemini s)))))
               [DirectoryEnsure ["fitscroll"; "generated"]; FileWrite uri raw]).
    + unfold outcome, store, trace. simpl. repeat split.
      apply in_or_app. left. apply in_or_app. right. simpl. auto.
    + unfold Gemini.on_response. rewrite Hok. cbn [negb]. rewrite Hlen, Hfirst.
      unfold Gemini.save_generated, bind, mutate, Date_now, random_suffix,
        Math_random, bind, ret.
      simpl. rewrite Hm1. simpl. rewrite Hatob. simpl. rewrite Hm2. reflexivity.
Qed.

Lemma C7_witness :
  let s := Store.init in
  let r := Gemini.attempts Demo.world Demo.cfg "u" "p" [] [0; 1; 2] s in
  let parts := concat (map Gemini.parts_of [Demo.text_only; Demo.with_image]) in
  (Forall (fun p => Gemini.image_data p = None) parts ->
   outcome r = Returned None /\
   Store.gemini_requests (store r) = S (Store.gemini_requests s)) /\
  (forall before p after data raw,
     parts = before ++ p :: after ->
     Forall (fun q => Gemini.image_data q = None) before ->
     Gemini.image_data p = Some data ->
     World.atob Demo.world data = Some raw ->
     World.mutation_ok Demo.world (Store.file_mutations s) = true ->
     World.mutation_ok Demo.world (S (Store.file_mutations s)) = true ->
     let filename :=
       "gen-" +:+ JS.show_Z (World.Date_now Demo.world (Store.clock_reads s)) +:+ "-"
         +:+ JS.slice 2 6
               (World.toString36 Demo.world
                  (World.Math_random Demo.world (Store.random_draws s)))
         +:+ ".png" in
     let uri :=
       World.join Demo.world (World.document Demo.world)
         (Gemini.generated_path filename) in
     outcome r = Returned (Some uri) /\
     In (FileWrite uri raw) (trace r) /\
     Store.gemini_requests (store r) = S (Store.gemini_requests s)) /\
  Gemini.first_image [Demo.text_only; Demo.with_image] = Some "aGVsbG8=" /\
  outcome (Gemini.generateWithImages Demo.world Demo.cfg "p" [] Store.init)
    = Returned (Some "file:///docs/fitscroll/generated/gen-1700000000000-i.png").
Proof.
  apply (C7_first_image_wins Demo.world Demo.cfg "u" "p" [] 0 [1; 2] Store.init
           900 200 (Some [Demo.text_only; Demo.with_image]) None).
  - reflexivity.
  - reflexivity.
Defined.

(** ** The claim about the bridge client *)


(** A fresh search that takes 150 s is cut off by the timer; the same
    backend, asked without [fresh], is cut off after 30 s as well. *)
Example slow_bridge_times_out :
  outcome (Pinterest.searchPinterest Demo.world_slow_bridge Demo.cfg ["a"] 10 true
             Store.init) = Returned [] /\
  outcome (Pinterest.searchPinterest Demo.world_slow_bridge Demo.cfg ["a"] 10 false
             Store.init) = Returned [] /\
  outcome (Pinterest.searchPinterest Demo.world Demo.cfg ["a"] 10 true
             Store.init) = Returned Demo.outfits /\
  outcome (Pinterest.searchPinterest Demo.world Demo.cfg ["a"] 10 false
             Store.init) = Returned [].
Proof. repeat split. Qed.

(** The earlier revision differs only in having no timer: it makes one
    request, never throws, and returns the empty list on a rejected request
    and on a non-success status, however long the reply takes. *)
Lemma searchPinterest_untimed_spec
    (W : World.t) (cfg : Config.t) (keywords : list string) (limit : nat)
    (fresh : bool) (s : Store.t) :
  let r := Pinterest.searchPinterest_untimed W cfg keywords limit fresh s in
  trace r = [BridgePost (Config.BRIDGE_URL cfg +:+ "/search") keywords limit
               fresh None] /\
  store r = Store.next_bridge s /\
  outcome r =
    Returned match World.bridge W (Store.bridge_requests s) with
             | Responded _ status (BridgeJson (Some outfits)) =>
                 if ok status then outfits else []
             | _ => []
             end.
Proof.
  intros r. subst r.
  unfold Pinterest.searchPinterest_untimed, try_catch, bind, fetch_bridge, ret, throw.
  destruct (World.bridge W (Store.bridge_requests s))
    as [elapsed|elapsed status [|[outfits|]]]; simpl;
    try destruct (ok status); repeat split.
Qed.

(** ** The application's own collaborators *)

Lemma catch_all_returns {E A} (m : Prog E A) (a : A) (s : Store.t) :
  exists v, outcome (try_catch m (fun _ => ret a) s) = Returned v.
Proof.
  unfold try_catch, ret, outcome. destruct (m s) as [[[v|e] s1] t1]; simpl; eauto.
Qed.

(** [generateWithImages] never throws. *)
Lemma generateWithImages_returns W cfg prompt images s :
  exists v, outcome (Gemini.generateWithImages W cfg prompt images s) = Returned v.
Proof.
  unfold Gemini.generateWithImages.
  destruct (negb (JS.truthy (Config.GEMINI_API_KEY cfg))).
  - exists None. reflexivity.
  - destruct (attempts_spec W cfg
                (Gemini.BASE_URL +:+ "/" +:+ Config.GEMINI_MODEL cfg +:+ ":generateContent")
                prompt images (S Gemini.MAX_RETRIES) 0 s eq_refl)
      as (n & v & s' & t & Hrun & _).
    exists v. rewrite Hrun. reflexivity.
Qed.

(** [generateTryOn] never throws: in the application the [catch] block of
    the loop is not reached. *)
Lemma generateTryOn_returns W cfg userPhotoUri outfitImageUrl outfitDescription
    gender style s :
  exists v,
    outcome (Gemini.generateTryOn W cfg userPhotoUri outfitImageUrl
               outfitDescription gender style s) = Returned v.
Proof.
  unfold Gemini.generateTryOn, bind.
  destruct (catch_all_returns
              (file <- open_local W userPhotoUri ;;
               match file with
               | BadUri => throw TypeError
               | Missing => ret None
               | Unreadable => throw FileSystemError
               | Readable b64 extension =>
                   ret (Some (EncodedImage.mk b64
                                (JS.nullish
                                   (JS.get Gemini.mimeMap
                                      (JS.toLowerCase (JS.nullish extension "jpg")))
                                   (JS.Str "image/jpeg"))))
               end)%prog None s) as (user & Huser).
  fold (Gemini.readLocalImageAsBase64 W userPhotoUri) in Huser.
  unfold outcome in *.
  destruct (Gemini.readLocalImageAsBase64 W userPhotoUri s) as [[o1 s1] t1].
  simpl in Huser. subst o1.
  destruct user as [userImg|]; [|exists None; reflexivity].
  pose proof (catch_all_returns
                (res <- fetch_image W outfitImageUrl ;;
                 let '(status, body) := res in
                 if negb (ok status) then ret None
                 else
                   match ImageBody.bytes body with
                   | None => throw NetworkError
                   | Some buf =>
                       ret (Some (EncodedImage.mk (World.btoa W buf)
                                    (JS.Str (JS.trim (JS.before ";"
                                       (JS.nullish (ImageBody.contentType body)
                                          "image/jpeg"))))))
                   end)%prog None s1) as (outfit & Houtfit).
  fold (Gemini.fetchImageAsBase64 W outfitImageUrl) in Houtfit.
  unfold outcome in *.
  destruct (Gemini.fetchImageAsBase64 W outfitImageUrl s1) as [[o2 s2] t2].
  simpl in Houtfit. subst o2.
  destruct outfit as [outfitImg|]; [|exists None; reflexivity].
  destruct (generateWithImages_returns W cfg
              (Gemini.try_on_prompt W outfitDescription gender
                 (Gemini.try_on_environment outfitDescription style))
              [userImg; outfitImg] s2) as (v & Hv).
  unfold outcome in Hv.
  destruct (Gemini.generateWithImages W cfg _ _ s2) as [[o3 s3] t3].
  simpl in Hv. subst o3. exists v. reflexivity.
Qed.

(** The demo world, run: the first look gets the image of the second
    candidate of the service's reply, the second look falls back to its own
    image after a bad request. *)
Example demo_run :
  let t := trace (runPipeline Demo.world Demo.cfg (C := app Demo.world Demo.cfg)
                    Store.init) in
  map OutfitPost.images (produced t) =
    [ ["file:///docs/fitscroll/generated/gen-1700000000000-i.png";
       "https://i.pinimg.com/originals/1.jpg"];
      ["http://localhost:8000/img/2.jpg"] ] /\
  try_on_calls t
    = map (try_on_args Demo.profile "file:///docs/selfie.heic") Demo.outfits /\
  progress_values t = [5 # 100; 15 # 100; 1100 # 2000; 1900 # 2000; 1]%Q /\
  final_error t = None.
Proof. vm_compute. auto. Qed.

(** * Further properties of the code *)

(** ** Strings, continued *)

Lemma lower_ascii_idem (c : ascii) : JS.lower_ascii (JS.lower_ascii c) = JS.lower_ascii c.
Proof. destruct c as [[] [] [] [] [] [] [] []]; reflexivity. Qed.

Lemma lower_ascii_space (c : ascii) : JS.is_space (JS.lower_ascii c) = JS.is_space c.
Proof. destruct c as [[] [] [] [] [] [] [] []]; reflexivity. Qed.

Lemma toLowerCase_idem (s : string) : JS.toLowerCase (JS.toLowerCase s) = JS.toLowerCase s.
Proof.
  induction s as [|c s IH]; simpl; [reflexivity|].
  rewrite lower_ascii_idem, IH. reflexivity.
Qed.

Lemma toLowerCase_empty (s : string) : JS.toLowerCase s = "" -> s = "".
Proof. destruct s; simpl; [reflexivity | discriminate]. Qed.

Lemma toLowerCase_trimStart (s : string) :
  JS.toLowerCase (JS.trimStart s) = JS.trimStart (JS.toLowerCase s).
Proof.
  induction s as [|c s IH]; simpl; [reflexivity|].
  rewrite lower_ascii_space. destruct (JS.is_space c); simpl; auto.
Qed.

Lemma toLowerCase_trimEnd (s : string) :
  JS.toLowerCase (JS.trimEnd s) = JS.trimEnd (JS.toLowerCase s).
Proof.
  induction s as [|c s IH]; simpl; [reflexivity|].
  rewrite <- IH, lower_ascii_space.
  destruct (JS.trimEnd s) as [|d r] eqn:Hr; simpl.
  - destruct (JS.is_space c); reflexivity.
  - reflexivity.
Qed.

Lemma toLowerCase_trim (s : string) :
  JS.toLowerCase (JS.trim s) = JS.trim (JS.toLowerCase s).
Proof. unfold JS.trim. rewrite toLowerCase_trimEnd, toLowerCase_trimStart. reflexivity. Qed.

(** A string without white space at either end. *)
Lemma trimStart_head (s : string) :
  match JS.trimStart s with
  | EmptyString => True
  | String c _ => JS.is_space c = false
  end.
Proof.
  induction s as [|c s IH]; simpl; [exact I|].
  destruct (JS.is_space c) eqn:Hc; [exact IH | exact Hc].
Qed.

Lemma trimEnd_idem (s : string) : JS.trimEnd (JS.trimEnd s) = JS.trimEnd s.
Proof.
  induction s as [|c s IH]; simpl; [reflexivity|].
  destruct (JS.trimEnd s) as [|d r] eqn:Hr.
  - destruct (JS.is_space c) eqn:Hc; simpl; [reflexivity|]. rewrite Hc. reflexivity.
  - change (JS.trimEnd (String c (String d r)))
      with (match JS.trimEnd (String d r) with
            | EmptyString => if JS.is_space c then EmptyString else String c EmptyString
            | String x y => String c (String x y)
            end).
    rewrite IH. reflexivity.
Qed.

Lemma trimEnd_keeps_head (c : ascii) (s : string) :
  JS.is_space c = false -> exists r, JS.trimEnd (String c s) = String c r.
Proof.
  intros Hc. simpl. destruct (JS.trimEnd s); [rewrite Hc|]; eauto.
Qed.

Lemma trimStart_fixed (c : ascii) (s : string) :
  JS.is_space c = false -> JS.trimStart (String c s) = String c s.
Proof. intros Hc. simpl. rewrite Hc. reflexivity. Qed.

Lemma trim_idem (s : string) : JS.trim (JS.trim s) = JS.trim s.
Proof.
  unfold JS.trim. pose proof (trimStart_head s) as Hh.
  destruct (JS.trimStart s) as [|c u] eqn:Hu; [reflexivity|].
  destruct (trimEnd_keeps_head c u Hh) as (r & Hr).
  rewrite Hr, (trimStart_fixed c r Hh), <- Hr. apply trimEnd_idem.
Qed.

Lemma has_char_before (c : ascii) (s : string) : has_char c (JS.before c s) = false.
Proof.
  induction s as [|d s IH]; simpl; [reflexivity|].
  destruct (Ascii.eqb d c) eqn:Hd; simpl; [reflexivity|]. rewrite Hd. exact IH.
Qed.

Lemma has_char_trimStart (c : ascii) (s : string) :
  has_char c s = false -> has_char c (JS.trimStart s) = false.
Proof.
  induction s as [|d s IH]; simpl; [auto|].
  intros H. apply orb_false_iff in H. destruct H as (Hd & Hs).
  destruct (JS.is_space d); [auto|]. simpl. rewrite Hd. exact Hs.
Qed.

Lemma has_char_trimEnd (c : ascii) (s : string) :
  has_char c s = false -> has_char c (JS.trimEnd s) = false.
Proof.
  induction s as [|d s IH]; simpl; [auto|].
  intros H. apply orb_false_iff in H. destruct H as (Hd & Hs).
  specialize (IH Hs).
  destruct (JS.trimEnd s) as [|x y].
  - destruct (JS.is_space d); simpl; [reflexivity|]. rewrite Hd. reflexivity.
  - cbn [has_char] in *. rewrite Hd. exact IH.
Qed.

Lemma has_char_trim (c : ascii) (s : string) :
  has_char c s = false -> has_char c (JS.trim s) = false.
Proof. intros H. apply has_char_trimEnd, has_char_trimStart, H. Qed.

(** ** The generation client, continued *)

(** [getEnvironment] looks its argument up without regard to letter case and
    to white space around it. *)
Theorem getEnvironment_ignores_case_and_padding (style : string) :
  Gemini.getEnvironment (JS.toLowerCase style) = Gemini.getEnvironment style /\
  Gemini.getEnvironment (JS.trim style) = Gemini.getEnvironment style /\
  Gemini.getEnvironment (JS.toLowerCase (JS.trim style)) = Gemini.getEnvironment style.
Proof.
  unfold Gemini.getEnvironment. repeat split.
  - rewrite toLowerCase_idem. reflexivity.
  - rewrite toLowerCase_trim, trim_idem. reflexivity.
  - rewrite toLowerCase_idem, toLowerCase_trim, trim_idem. reflexivity.
Qed.

(** [readLocalImageAsBase64] never throws and reads the file once.  A file
    that cannot be opened or read gives null.  A readable file gives its
    content with a MIME type chosen by the extension, whatever its letter
    case: [image/png] for png, [image/webp] for webp, [image/jpeg] for jpg,
    jpeg and heic, for a file without extension and for every extension the
    table does not know. *)
Theorem readLocalImageAsBase64_mime (W : World.t) (uri : string) (s : Store.t) :
  let r := Gemini.readLocalImageAsBase64 W uri s in
  trace r = [FileRead uri] /\
  store r = Store.next_read s /\
  match World.local W (Store.file_reads s) uri with
  | Readable b64 extension =>
      let ext := JS.toLowerCase (JS.nullish extension "jpg") in
      exists mimeType,
        outcome r = Returned (Some (EncodedImage.mk b64 mimeType)) /\
        (ext = "png" -> mimeType = JS.Str "image/png") /\
        (ext = "webp" -> mimeType = JS.Str "image/webp") /\
        (ext = "jpg" \/ ext = "jpeg" \/ ext = "heic" -> mimeType = JS.Str "image/jpeg") /\
        (extension = None -> mimeType = JS.Str "image/jpeg") /\
        (JS.get Gemini.mimeMap ext = None -> mimeType = JS.Str "image/jpeg") /\
        (mimeType = JS.Str "image/png" -> ext = "png") /\
        (mimeType = JS.Str "image/webp" -> ext = "webp")
  | _ => outcome r = Returned None
  end.
Proof.
  intros r. subst r.
  unfold Gemini.readLocalImageAsBase64, try_catch, bind, open_local, ret, throw,
    outcome, store, trace.
  destruct (World.local W (Store.file_reads s) uri) as [| | |b64 extension];
    simpl; repeat split.
  eexists. split; [reflexivity|].
  assert (Hkeys : forall k v,
            Gemini.mimeMap !! k = Some v ->
            (k = "jpg" /\ v = "image/jpeg") \/ (k = "jpeg" /\ v = "image/jpeg") \/
            (k = "png" /\ v = "image/png") \/ (k = "webp" /\ v = "image/webp") \/
            (k = "heic" /\ v = "image/jpeg")).
  { intros k v Hkv. unfold Gemini.mimeMap in Hkv.
    apply elem_of_list_to_map_2 in Hkv.
    repeat (apply elem_of_cons in Hkv; destruct Hkv as [Hkv|Hkv];
            [inversion Hkv; subst; tauto|]).
    apply elem_of_nil in Hkv. contradiction. }
  repeat split.
  - intros ->. reflexivity.
  - intros ->. reflexivity.
  - intros [->|[->| ->]]; reflexivity.
  - intros ->. reflexivity.
  - intros ->. reflexivity.
  - unfold JS.get.
    destruct (Gemini.mimeMap !! JS.toLowerCase (JS.nullish extension "jpg"))
      as [v|] eqn:Hl.
    + destruct (Hkeys _ _ Hl) as [(Hk & ->)|[(Hk & ->)|[(Hk & ->)|[(Hk & ->)|(Hk & ->)]]]];
        simpl; intros H; try discriminate; exact Hk.
    + destruct (bool_decide _); simpl; discriminate.
  - unfold JS.get.
    destruct (Gemini.mimeMap !! JS.toLowerCase (JS.nullish extension "jpg"))
      as [v|] eqn:Hl.
    + destruct (Hkeys _ _ Hl) as [(Hk & ->)|[(Hk & ->)|[(Hk & ->)|[(Hk & ->)|(Hk & ->)]]]];
        simpl; intros H; try discriminate; exact Hk.
    + destruct (bool_decide _); simpl; discriminate.
Qed.

(** [fetchImageAsBase64] never throws and makes one request.  It gives null
    when the request is rejected, when the status is not a success and when
    the bytes cannot be read.  Otherwise the MIME type it reports is the
    declared content type up to the first semicolon, without white space
    around it, and [image/jpeg] when no content type is declared. *)
Theorem fetchImageAsBase64_mime (W : World.t) (url : string) (s : Store.t) :
  let r := Gemini.fetchImageAsBase64 W url s in
  let reply := World.image W (Store.image_requests s) url in
  trace r = [ImageGet url] /\
  store r = Store.next_image s /\
  (delivered reply = false -> outcome r = Returned None) /\
  (delivered reply = true ->
   exists elapsed status body bytes mime,
     reply = Responded elapsed status body /\
     ImageBody.bytes body = Some bytes /\
     outcome r = Returned (Some (EncodedImage.mk (World.btoa W bytes) (JS.Str mime))) /\
     JS.trim mime = mime /\
     has_char ";" mime = false /\
     (ImageBody.contentType body = None -> mime = "image/jpeg") /\
     (forall declared, ImageBody.contentType body = Some declared ->
        mime = JS.trim (JS.before ";" declared))).
Proof.
  intros r reply. subst r reply.
  unfold Gemini.fetchImageAsBase64, try_catch, bind, fetch_image, ret, throw,
    outcome, store, trace, delivered.
  destruct (World.image W (Store.image_requests s) url)
    as [elapsed|elapsed status [contentType [bytes|]]]; simpl;
    try (destruct (ok status) eqn:Hok; simpl);
    repeat split; try discriminate; auto.
  intros _. exists elapsed, status, (ImageBody.mk contentType (Some bytes)), bytes.
  eexists. split; [reflexivity|]. split; [reflexivity|]. split; [reflexivity|].
  split; [apply trim_idem|]. split; [apply has_char_trim, has_char_before|].
  split.
  - simpl. intros ->. reflexivity.
  - simpl. intros declared ->. reflexivity.
Qed.

(** [generateTryOn] fails fast.  When the user's photo cannot be read it
    returns null after the one file read; when the photo is read and the
    reference image does not arrive it returns null after the one download.
    A request to the generation service is made only when both images were
    loaded and an API key is configured. *)
Theorem generateTryOn_fails_fast
    (W : World.t) (cfg : Config.t)
    (userPhotoUri outfitImageUrl outfitDescription : string)
    (gender : option Gender) (style : option string) (s : Store.t) :
  let r := Gemini.generateTryOn W cfg userPhotoUri outfitImageUrl
             outfitDescription gender style s in
  let photo := World.local W (Store.file_reads s) userPhotoUri in
  let reference := World.image W (Store.image_requests s) outfitImageUrl in
  (readable photo = false ->
   r = (Returned None, Store.next_read s, [FileRead userPhotoUri])) /\
  (readable photo = true -> delivered reference = false ->
   r = (Returned None, Store.next_image (Store.next_read s),
        [FileRead userPhotoUri; ImageGet outfitImageUrl])) /\
  (schedule (trace r) <> [] ->
   readable photo = true /\ delivered reference = true /\
   Config.GEMINI_API_KEY cfg <> "").
Proof.
  intros r photo reference.
  assert (Hphoto : readable photo = false ->
            r = (Returned None, Store.next_read s, [FileRead userPhotoUri])).
  { intros Hr. subst r photo.
    unfold Gemini.generateTryOn, Gemini.readLocalImageAsBase64, try_catch, bind,
      open_local, ret, throw.
    destruct (World.local W (Store.file_reads s) userPhotoUri);
      simpl in *; try discriminate; reflexivity. }
  assert (Hreference : readable photo = true -> delivered reference = false ->
            r = (Returned None, Store.next_image (Store.next_read s),
                 [FileRead userPhotoUri; ImageGet outfitImageUrl])).
  { intros Hr Hd. subst r photo reference.
    unfold Gemini.generateTryOn, Gemini.readLocalImageAsBase64,
      Gemini.fetchImageAsBase64, try_catch, bind, open_local, fetch_image,
      ret, throw.
    destruct (World.local W (Store.file_reads s) userPhotoUri);
      simpl in *; try discriminate.
    destruct (World.image W (Store.image_requests s) outfitImageUrl)
      as [elapsed|elapsed status [contentType [bytes|]]]; simpl in *;
      try destruct (ok status); simpl in *; try discriminate; reflexivity. }
  split; [exact Hphoto|]. split; [exact Hreference|].
  intros Hsched.
  destruct (readable photo) eqn:Hr;
    [|rewrite (Hphoto eq_refl) in Hsched; exfalso; apply Hsched; reflexivity].
  destruct (delivered reference) eqn:Hd;
    [|rewrite (Hreference eq_refl eq_refl) in Hsched; exfalso; apply Hsched;
      reflexivity].
  split; [reflexivity|]. split; [reflexivity|].
  intros Hkey. apply Hsched. subst r photo reference.
  unfold Gemini.generateTryOn, Gemini.readLocalImageAsBase64,
    Gemini.fetchImageAsBase64, Gemini.generateWithImages, try_catch, bind,
    open_local, fetch_image, ret, throw.
  rewrite Hkey.
  destruct (World.local W (Store.file_reads s) userPhotoUri);
    simpl in *; try discriminate.
  destruct (World.image W (Store.image_requests s) outfitImageUrl)
    as [elapsed|elapsed status [contentType [bytes|]]]; simpl in *;
    try destruct (ok status); simpl in *; try discriminate; reflexivity.
Qed.

(** ** Joining strings *)

Lemma append_empty_r (s : string) : s +:+ "" = s.
Proof.
  induction s as [|c s IH]; [reflexivity|].
  change (String c (s +:+ "") = String c s). now rewrite IH.
Qed.

Lemma append_assoc (a b c : string) : (a +:+ b) +:+ c = a +:+ (b +:+ c).
Proof.
  induction a as [|x a IH]; [reflexivity|].
  change (String x ((a +:+ b) +:+ c) = String x (a +:+ (b +:+ c))).
  now rewrite IH.
Qed.

(** ** The generation screen, continued *)

Lemma screen_app (t1 t2 : list Event) : screen (t1 ++ t2) = screen t1 ++ screen t2.
Proof. apply List.filter_app. Qed.

Lemma screen_IO (t : list IOEvent) : screen (map IO t) = [].
Proof. induction t as [|e t IH]; simpl; auto. Qed.

Ltac screen_simpl :=
  unfold screen; simpl;
  repeat (rewrite ?List.filter_app; fold (screen); rewrite ?screen_IO;
          unfold screen; simpl).

Section ScreenFacts.

Variable W : World.t.
Variable cfg : Config.t.
Context {C : Collaborators}.

Lemma turn_screen profile photo total l outfit s :
  let r :=
    outcome (generateTryOn photo (source_or_primary outfit)
               (PinterestOutfit.captionHint outfit)
               (UserProfile.gender profile) (outfitStyle profile outfit) s) in
  exists post s' t,
    turn W profile photo total l outfit s =
      (Returned (Loop.mk (Loop.posts l ++ [post]) (Loop.done l + 1)
                   (Loop.aiSuccessCount l +
                    match generated r with Some _ => 1 | None => 0 end)),
       s', t) /\
    screen t = turns_screen profile photo total (Loop.done l + 1) [(outfit, r)] /\
    made_from (outfit, r) post /\
    fresh_entry W (Loop.done l) post.
Proof.
  unfold turn, new_post_suffixed, new_post_plain, new_post, random_suffix,
    now_iso, Date_now, Math_random, bind, emit, try_catch, lift, ret, outcome,
    made_from, fresh_entry, generated, turn_status.
  destruct (generateTryOn photo _ _ _ _ s) as [[[[uri|]|e] s1] t1]; simpl.
  - destruct (JS.truthy uri) eqn:Hu; simpl;
      do 3 eexists; (split; [rewrite ?Nat.add_0_r; reflexivity|]);
      (split; [screen_simpl; rewrite ?Hu; reflexivity|]);
      rewrite ?Hu; repeat split; eauto;
      eexists _, _, _; (split; [reflexivity|]); split; eauto.
  - do 3 eexists; (split; [rewrite ?Nat.add_0_r; reflexivity|]);
      (split; [screen_simpl; reflexivity|]);
      repeat split; eauto;
      eexists _, _, _; (split; [reflexivity|]); split; eauto.
  - do 3 eexists; (split; [rewrite ?Nat.add_0_r; reflexivity|]);
      (split; [screen_simpl; reflexivity|]);
      repeat split; eauto.
    exists "pin", (Store.clock_reads s1), "".
    split; [|split; auto].
    simpl. now rewrite append_empty_r.
Qed.


Lemma compose_screen profile photo total outfits :
  forall l s,
  exists (rows : list Row) posts' s' t,
    compose W profile photo total l outfits s =
      (Returned (Loop.mk (Loop.posts l ++ posts') (Loop.done l + length outfits)
                   (Loop.aiSuccessCount l + successes rows)),
       s', t) /\
    map fst rows = outfits /\
    screen t = turns_screen profile photo total (Loop.done l + 1) rows /\
    Forall2 made_from rows posts' /\
    Forall2 (fresh_entry W) (seq (Loop.done l) (length rows)) posts'.
Proof.
  induction outfits as [|outfit rest IH]; intros l s.
  - exists ([] : list Row), [], s, []. simpl.
    rewrite app_nil_r, !Nat.add_0_r. destruct l; repeat split; auto.
  - pose (r := outcome (generateTryOn photo (source_or_primary outfit)
                          (PinterestOutfit.captionHint outfit)
                          (UserProfile.gender profile)
                          (outfitStyle profile outfit) s)).
    destruct (turn_screen profile photo total l outfit s)
      as (post & s1 & t1 & Hturn & Hsc & Hmade & Hfresh).
    fold r in Hturn, Hsc, Hmade.
    destruct (IH (Loop.mk (Loop.posts l ++ [post]) (Loop.done l + 1)
                    (Loop.aiSuccessCount l +
                     match generated r with Some _ => 1 | None => 0 end)) s1)
      as (rows & posts' & s2 & t2 & Hrest & Hrows & Hsc2 & Hall & Hfr).
    exists ((outfit, r) :: rows : list Row), (post :: posts'), s2, (t1 ++ t2).
    split; [|split; [|split; [|split]]].
    + simpl. unfold bind. rewrite Hturn, Hrest. simpl.
      rewrite <- app_assoc. simpl.
      do 3 f_equal; try lia.
      unfold successes. simpl.
      destruct (generated r); simpl; rewrite ?Nat.add_0_r, <- ?Nat.add_assoc;
        reflexivity.
    + simpl. rewrite Hrows. reflexivity.
    + rewrite screen_app, Hsc, Hsc2. simpl. rewrite <- app_assoc. simpl.
      replace (Loop.done l + 1 + 1) with (S (Loop.done l + 1)) by lia.
      reflexivity.
    + constructor; auto.
    + simpl. constructor; auto. simpl in Hfr.
      replace (S (Loop.done l)) with (Loop.done l + 1) by lia. exact Hfr.
Qed.

Lemma run_screen s :
  exists s' t,
    runPipeline W cfg s = (Returned tt, s', t) /\ RunScreen W cfg (screen t).
Proof.
  destruct (getProfile s) as [[[profile|e] s1] t1] eqn:Hprof.
  2:{ do 2 eexists. split; [eapply run_profile_throws; eauto|].
      screen_simpl. constructor. }
  destruct (JS.truthy_opt (UserProfile.photoUri profile)) eqn:Hphoto.
  2:{ do 2 eexists. split; [eapply run_no_photo; eauto|].
      screen_simpl. constructor. }
  destruct (truthy_opt_true _ Hphoto) as (photo & Hsome & Htruthy).
  destruct (searchPinterest (keywords_of profile)
              (Config.PINTEREST_FETCH_LIMIT cfg) true s1)
    as [[[outfits|e] s2] t2] eqn:Hsearch.
  2:{ do 2 eexists. split.
      - unfold runPipeline, try_catch, bind, emit, lift. rewrite Hprof, Hsome.
        simpl. rewrite Htruthy. simpl. rewrite Hsearch. simpl. reflexivity.
      - screen_simpl. constructor. }
  destruct outfits as [|o rest].
  { do 2 eexists. split; [eapply run_no_outfits; eauto|].
    screen_simpl. constructor. }
  assert (Hnz : (length (o :: rest) =? 0)%nat = false) by reflexivity.
  assert (Hsz : length (o :: rest) > 0) by (simpl; lia).
  remember (o :: rest) as outfits eqn:Ho. clear Ho.
  destruct (compose_screen profile photo (length outfits) outfits (Loop.mk [] 0 0) s2)
    as (rows & posts & s3 & t3 & Hc & Hrows & Hsc & Hall & Hfr).
  simpl in Hc, Hsc, Hfr.
  assert (Hrl : @length Row rows = length outfits)
    by (rewrite <- Hrows; symmetry; apply length_map).
  assert (Hlen : length posts = length outfits)
    by (rewrite <- Hrl; symmetry; eapply Forall2_length; eauto).
  assert (Hpos : (0 <? length posts)%nat = true).
  { apply Nat.ltb_lt. rewrite Hlen. lia. }
  assert (Hne : rows <> []).
  { intros ->. simpl in Hrl. lia. }
  destruct (cacheFeed posts s3) as [[[[]|e] s4] t4] eqn:Hcache.
  - exists s4. eexists. split.
    + unfold runPipeline, try_catch, bind, emit, lift. rewrite Hprof, Hsome. simpl.
      rewrite Htruthy. simpl. rewrite Hsearch. simpl. rewrite Hnz.
      unfold bind in Hc. rewrite Hc. simpl. rewrite Hpos, Hcache. reflexivity.
    + screen_simpl; fold (screen t3); rewrite Hsc; rewrite <- Hrl, <- ?app_assoc.
      apply (ScreenComposed W cfg profile photo rows posts true); auto.
  - exists s4. eexists. split.
    + unfold runPipeline, try_catch, bind, emit, lift. rewrite Hprof, Hsome. simpl.
      rewrite Htruthy. simpl. rewrite Hsearch. simpl. rewrite Hnz.
      unfold bind in Hc. rewrite Hc. simpl. rewrite Hpos, Hcache. reflexivity.
    + screen_simpl; fold (screen t3); rewrite Hsc; rewrite <- Hrl, <- ?app_assoc.
      apply (ScreenComposed W cfg profile photo rows posts false); auto.
Qed.

End ScreenFacts.

(** ** What a run leaves behind *)

Lemma omap_screen {A} (f : Event -> option A) (t : list Event) :
  (forall e, visible e = false -> f e = None) ->
  omap f t = omap f (screen t).
Proof.
  intros Hf. induction t as [|e t IH]; auto.
  unfold screen in *. cbn [List.filter].
  destruct (visible e) eqn:He.
  - change (omap f (e :: t)) with
      (match f e with Some y => y :: omap f t | None => omap f t end).
    change (omap f (e :: List.filter visible t)) with
      (match f e with
       | Some y => y :: omap f (List.filter visible t)
       | None => omap f (List.filter visible t)
       end).
    rewrite IH. reflexivity.
  - change (omap f (e :: t)) with
      (match f e with Some y => y :: omap f t | None => omap f t end).
    rewrite (Hf e He). exact IH.
Qed.

Lemma digest_screen t : digest t = digest (screen t).
Proof.
  unfold digest, produced, statuses, previews, completed_counts, totals,
    navigations, final_error.
  f_equal; [f_equal| | | | | |f_equal]; apply omap_screen;
    intros []; simpl; congruence.
Qed.

Lemma omap_cons {A} (f : Event -> option A) (e : Event) (t : list Event) :
  omap f (e :: t) = match f e with Some y => y :: omap f t | None => omap f t end.
Proof. reflexivity. Qed.

Section TurnsScreen.

Variables (profile : UserProfile.t) (photo : string) (total : nat).

Lemma turns_screen_produced rows : forall k,
  omap cached_of (turns_screen profile photo total k rows) = [].
Proof.
  induction rows as [|row rest IH]; intros k; [reflexivity|].
  cbn [turns_screen]. rewrite !omap_cons. cbn.
  destruct (generated (snd row)); cbn [app]; rewrite ?omap_cons; cbn; apply IH.
Qed.

Lemma turns_screen_errors rows : forall k,
  omap error_of (turns_screen profile photo total k rows) = [].
Proof.
  induction rows as [|row rest IH]; intros k; [reflexivity|].
  cbn [turns_screen]. rewrite !omap_cons. cbn.
  destruct (generated (snd row)); cbn [app]; rewrite ?omap_cons; cbn; apply IH.
Qed.

Lemma turns_screen_totals rows : forall k,
  omap total_of (turns_screen profile photo total k rows) = [].
Proof.
  induction rows as [|row rest IH]; intros k; [reflexivity|].
  cbn [turns_screen]. rewrite !omap_cons. cbn.
  destruct (generated (snd row)); cbn [app]; rewrite ?omap_cons; cbn; apply IH.
Qed.

Lemma turns_screen_navigations rows : forall k,
  omap navigation_of (turns_screen profile photo total k rows) = [].
Proof.
  induction rows as [|row rest IH]; intros k; [reflexivity|].
  cbn [turns_screen]. rewrite !omap_cons. cbn.
  destruct (generated (snd row)); cbn [app]; rewrite ?omap_cons; cbn; apply IH.
Qed.

Lemma turns_screen_completed rows : forall k,
  omap completed_of (turns_screen profile photo total k rows)
    = seq k (length rows).
Proof.
  induction rows as [|row rest IH]; intros k; [reflexivity|].
  cbn [turns_screen]. rewrite !omap_cons. cbn.
  destruct (generated (snd row)); cbn [app]; rewrite ?omap_cons; cbn;
    rewrite IH; reflexivity.
Qed.

Lemma turns_screen_previews rows : forall k,
  omap preview_of (turns_screen profile photo total k rows)
    = omap (fun row : Row => generated (snd row)) rows.
Proof.
  induction rows as [|row rest IH]; intros k; [reflexivity|].
  cbn [turns_screen]. rewrite !omap_cons. cbn.
  change (omap (fun row : Row => generated (snd row)) (row :: rest)) with
    (match generated (snd row) with
     | Some y => y :: omap (fun row : Row => generated (snd row)) rest
     | None => omap (fun row : Row => generated (snd row)) rest
     end).
  destruct (generated (snd row)); cbn [app]; rewrite ?omap_cons; cbn;
    rewrite IH; reflexivity.
Qed.

Lemma turns_screen_statuses rows : forall k,
  omap status_of (turns_screen profile photo total k rows)
    = map (fun i => turn_status i total) (seq k (length rows)).
Proof.
  induction rows as [|row rest IH]; intros k; [reflexivity|].
  cbn [turns_screen]. rewrite !omap_cons. cbn.
  destruct (generated (snd row)); cbn [app]; rewrite ?omap_cons; cbn;
    rewrite IH; reflexivity.
Qed.

End TurnsScreen.

Lemma successes_previews (rows : list Row) :
  successes rows = length (omap (fun row : Row => generated (snd row)) rows).
Proof.
  unfold successes. induction rows as [|row rest IH]; [reflexivity|].
  change (omap (fun row : Row => generated (snd row)) (row :: rest)) with
    (match generated (snd row) with
     | Some y => y :: omap (fun row : Row => generated (snd row)) rest
     | None => omap (fun row : Row => generated (snd row)) rest
     end).
  simpl. destruct (generated (snd row)); simpl; rewrite IH; reflexivity.
Qed.

Lemma made_from_generated row post :
  made_from row post -> generated_image post = generated (snd row).
Proof.
  intros (_ & _ & Hi). unfold generated_image. rewrite Hi.
  destruct (snd row) as [[uri|]|e]; simpl; auto.
  destruct (JS.truthy uri); reflexivity.
Qed.

Lemma made_from_previews (rows : list Row) posts :
  Forall2 made_from rows posts ->
  omap generated_image posts = omap (fun row : Row => generated (snd row)) rows.
Proof.
  induction 1 as [|row post rows posts H _ IH]; [reflexivity|].
  change (omap generated_image (post :: posts)) with
    (match generated_image post with
     | Some y => y :: omap generated_image posts
     | None => omap generated_image posts
     end).
  change (omap (fun row : Row => generated (snd row)) (row :: rows)) with
    (match generated (snd row) with
     | Some y => y :: omap (fun row : Row => generated (snd row)) rows
     | None => omap (fun row : Row => generated (snd row)) rows
     end).
  rewrite (made_from_generated row post H), IH. reflexivity.
Qed.

(** What a run that reached the loop leaves behind. *)
Lemma composed_digest cfg profile photo (rows : list Row) posts cached :
  digest (composed_screen cfg profile photo rows posts cached)
    = composed rows posts cached.
Proof.
  unfold digest, produced, statuses, previews, completed_counts, totals,
    navigations, final_error, composed_screen, composed.
  rewrite !omap_app, turns_screen_produced, turns_screen_statuses,
    turns_screen_previews, turns_screen_completed, turns_screen_totals,
    turns_screen_navigations, turns_screen_errors.
  destruct cached; cbn; rewrite ?app_nil_r; reflexivity.
Qed.

(** Every run ends, and leaves behind one of the two. *)
Lemma run_digest W cfg {C : Collaborators} s :
  RunDigest W (digest (trace (runPipeline W cfg s))).
Proof.
  destruct (run_screen W cfg s) as (s' & t' & Hrun & Hsh).
  rewrite Hrun. unfold trace. simpl. rewrite digest_screen.
  destruct Hsh as [| | | |profile photo rows posts cached Hne Hmade Hfresh].
  - apply (DigestAborted W [] PIPELINE_ERROR). simpl. auto.
  - apply (DigestAborted W [] NO_PHOTO). simpl. auto.
  - apply (DigestAborted W ["Finding outfit inspiration…"] PIPELINE_ERROR).
    simpl. auto.
  - apply (DigestAborted W ["Finding outfit inspiration…"] NO_OUTFITS).
    simpl. auto.
  - rewrite composed_digest. constructor; auto.
Qed.

(** ** Numbers in template literals *)

Lemma digits_uint (d : Decimal.uint) : digits (NilEmpty.string_of_uint d) = true.
Proof. induction d; simpl; auto. Qed.

Lemma show_nat_digits (n : nat) : digits (JS.show_nat n) = true.
Proof.
  unfold JS.show_nat, NilZero.string_of_uint.
  destruct (Nat.to_uint n) eqn:E; try reflexivity;
    rewrite <- E; apply digits_uint.
Qed.

Lemma show_Z_digits (z : Z) : (0 <= z)%Z -> digits (JS.show_Z z) = true.
Proof.
  intros Hz. unfold JS.show_Z. destruct z as [|p|p]; [reflexivity| |lia].
  simpl. unfold NilZero.string_of_uint.
  destruct (Pos.to_uint p) eqn:E; try reflexivity; rewrite <- E; apply digits_uint.
Qed.

Lemma to_uint_not_nil (n : nat) : Nat.to_uint n <> Decimal.Nil.
Proof.
  intros E. pose proof (DecimalNat.Unsigned.of_to n) as H. rewrite E in H.
  simpl in H. subst n. discriminate E.
Qed.

Lemma show_nat_inj (n m : nat) : JS.show_nat n = JS.show_nat m -> n = m.
Proof.
  unfold JS.show_nat. intros E.
  apply DecimalNat.Unsigned.to_uint_inj.
  pose proof (NilZero.usu _ (to_uint_not_nil n)) as Hn.
  pose proof (NilZero.usu _ (to_uint_not_nil m)) as Hm.
  rewrite E in Hn. congruence.
Qed.

Lemma digits_dash_split (a a' x x' : string) :
  digits a = true -> digits a' = true ->
  a +:+ String "-" x = a' +:+ String "-" x' -> a = a' /\ x = x'.
Proof.
  revert a'. induction a as [|c a IH]; intros [|c' a'] Ha Ha' E.
  - injection E as ->. auto.
  - injection E as <- _. discriminate Ha'.
  - injection E as -> _. discriminate Ha.
  - injection E as -> E. simpl in Ha, Ha'.
    apply andb_prop in Ha as [_ Ha]. apply andb_prop in Ha' as [_ Ha'].
    destruct (IH a' Ha Ha' E) as [-> ->]. auto.
Qed.

Lemma digits_before_tail (n n' t t' : string) :
  digits n = true -> digits n' = true ->
  (t = "" \/ exists u, t = "-" +:+ u) ->
  (t' = "" \/ exists u, t' = "-" +:+ u) ->
  n +:+ t = n' +:+ t' -> n = n'.
Proof.
  revert n'. induction n as [|c n IH]; intros [|c' n'] Hn Hn' Ht Ht' E.
  - reflexivity.
  - exfalso. change (t = String c' (n' +:+ t')) in E.
    destruct Ht as [->|[u ->]]; [discriminate|].
    injection E as <- _. discriminate Hn'.
  - exfalso. change (String c (n +:+ t) = t') in E.
    destruct Ht' as [->|[u ->]]; [discriminate|].
    injection E as -> _. discriminate Hn.
  - injection E as -> E. simpl in Hn, Hn'.
    apply andb_prop in Hn as [_ Hn]. apply andb_prop in Hn' as [_ Hn'].
    f_equal. eapply IH; eauto.
Qed.

(** Two entries made in different turns have different ids, whatever the
    clock read, as long as it is not before 1970. *)
Lemma fresh_entry_turn W i j p q :
  (forall n, (0 <= World.Date_now W n)%Z) ->
  fresh_entry W i p -> fresh_entry W j q ->
  OutfitPost.id p = OutfitPost.id q -> i = j.
Proof.
  intros Hclock ((pre & n & tl & Hid & Hpre & Htl) & _)
    ((pre' & n' & tl' & Hid' & Hpre' & Htl') & _) E.
  rewrite Hid, Hid' in E.
  assert (E' : JS.show_Z (World.Date_now W n) +:+ "-" +:+ JS.show_nat i +:+ tl
             = JS.show_Z (World.Date_now W n') +:+ "-" +:+ JS.show_nat j +:+ tl').
  { destruct Hpre as [-> | ->], Hpre' as [-> | ->];
      simpl in E; try discriminate E; injection E as E; exact E. }
  apply digits_dash_split in E' as [_ E'];
    [|apply show_Z_digits, Hclock|apply show_Z_digits, Hclock].
  apply show_nat_inj.
  apply (digits_before_tail _ _ tl tl'); auto using show_nat_digits.
Qed.

Lemma fresh_entries_distinct W posts : forall k,
  (forall n, (0 <= World.Date_now W n)%Z) ->
  Forall2 (fresh_entry W) (seq k (length posts)) posts ->
  (forall p, In p posts ->
     exists i, k <= i /\ fresh_entry W i p) /\
  List.NoDup (map OutfitPost.id posts).
Proof.
  induction posts as [|p posts IH]; intros k Hclock H.
  - split; [intros p []|constructor].
  - simpl in H. apply Forall2_cons_1 in H as [Hp Hrest].
    destruct (IH (S k) Hclock Hrest) as [Hin Hnd].
    split.
    + intros q [<-|Hq]; [eauto|].
      destruct (Hin q Hq) as (i & Hi & Hf). exists i. split; [lia|auto].
    + simpl. constructor; auto.
      intros Hmem. apply List.in_map_iff in Hmem as (q & Hq & Hqin).
      destruct (Hin q Hqin) as (i & Hi & Hf).
      pose proof (fresh_entry_turn W i k q p Hclock Hf Hp Hq). lia.
Qed.

Lemma random_count_bounds (r : Q) (k base : Z) :
  (0 < k)%Z -> (0 <= r)%Q -> (r < 1)%Q ->
  (base <= random_count r k base <= base + k - 1)%Z.
Proof.
  intros Hk H0 H1. unfold random_count.
  assert (Hk' : (0 < inject_Z k)%Q) by (rewrite Zlt_Qlt in Hk; exact Hk).
  assert (Hlo : (0 <= Qfloor (r * inject_Z k))%Z).
  { change 0%Z with (Qfloor 0). apply Qfloor_resp_le. nra. }
  assert (Hhi : (Qfloor (r * inject_Z k) < k)%Z).
  { rewrite Zlt_Qlt. eapply Qle_lt_trans; [apply Qfloor_le|]. nra. }
  lia.
Qed.

Lemma fresh_entry_untouched W i post :
  unit_interval W -> fresh_entry W i post -> untouched post.
Proof.
  intros HW (_ & Hl & Hc & (n & Hn) & (m & Hm)).
  destruct (HW n) as [Hn0 Hn1]. destruct (HW m) as [Hm0 Hm1].
  pose proof (random_count_bounds _ 500 50 ltac:(lia) Hn0 Hn1).
  pose proof (random_count_bounds _ 30 0 ltac:(lia) Hm0 Hm1).
  unfold untouched. rewrite Hn, Hm. repeat split; auto; lia.
Qed.

(** ** The run, as its user sees it *)

(** Every preview shown during a run is the generated image in front of one
    of the entries handed over, and every such image was previewed: the
    previews are these images, in the order of the feed. *)
Theorem run_previews
    (W : World.t) (cfg : Config.t) (C : Collaborators) (s : Store.t) :
  let t := trace (runPipeline W cfg s) in
  previews t = omap generated_image (produced t).
Proof.
  intros t. pose proof (run_digest W cfg s) as H. fold t in H.
  change (Digest.previews (digest t)
          = omap generated_image (Digest.produced (digest t))).
  destruct H as [sts err _|rows posts cached _ Hmade _]; simpl.
  - reflexivity.
  - symmetry. apply made_from_previews. exact Hmade.
Qed.

(** A run that hands a feed over ends with the status line that counts the
    entries with a generated image: the number shown is the number of such
    entries in the feed, and when there is none the line does not mention a
    count. *)
Theorem run_done_status
    (W : World.t) (cfg : Config.t) (C : Collaborators) (s : Store.t) :
  let t := trace (runPipeline W cfg s) in
  produced t <> [] ->
  last (statuses t)
    = Some (done_status (length (omap generated_image (produced t)))).
Proof.
  intros t. pose proof (run_digest W cfg s) as H. fold t in H.
  change (Digest.produced (digest t) <> [] ->
          last (Digest.statuses (digest t))
          = Some (done_status
                    (length (omap generated_image (Digest.produced (digest t)))))).
  destruct H as [sts err _|rows posts cached _ Hmade _]; simpl.
  - congruence.
  - intros _. rewrite (made_from_previews rows posts Hmade), <- successes_previews.
    rewrite !app_comm_cons. apply last_snoc.
Qed.

Lemma run_done_status_witness :
  let t := trace (runPipeline Demo.world Demo.cfg (C := app Demo.world Demo.cfg)
                    Store.init) in
  last (statuses t)
    = Some (done_status (length (omap generated_image (produced t)))).
Proof.
  apply (run_done_status Demo.world Demo.cfg (app Demo.world Demo.cfg) Store.init).
  vm_compute. discriminate.
Defined.

(** The screen moves on to the feed, 800 ms later, exactly when the run ends
    without an error message; a non-empty feed has then been handed over.
    An error message is one of the three the screen knows. *)
Theorem run_navigation
    (W : World.t) (cfg : Config.t) (C : Collaborators) (s : Store.t) :
  let t := trace (runPipeline W cfg s) in
  navigations t = match final_error t with
                  | None => [(800%Z, "/feed")]
                  | Some _ => []
                  end /\
  (final_error t = None -> produced t <> []) /\
  (forall m, final_error t = Some m ->
             m = NO_PHOTO \/ m = NO_OUTFITS \/ m = PIPELINE_ERROR).
Proof.
  intros t. pose proof (run_digest W cfg s) as H. fold t in H.
  change (Digest.navigations (digest t)
          = match Digest.error (digest t) with
            | None => [(800%Z, "/feed")]
            | Some _ => []
            end /\
          (Digest.error (digest t) = None -> Digest.produced (digest t) <> []) /\
          (forall m, Digest.error (digest t) = Some m ->
                     m = NO_PHOTO \/ m = NO_OUTFITS \/ m = PIPELINE_ERROR)).
  destruct H as [sts err Hin|rows posts cached Hne Hmade _]; simpl.
  - repeat split; [discriminate|].
    intros m [= <-]. simpl in Hin.
    destruct Hin as [[= _ <-]|[[= _ <-]|[[= _ <-]|[[= _ <-]|[]]]]]; auto.
  - destruct cached; repeat split; try discriminate.
    + intros _ ->. inversion Hmade; subst. congruence.
    + intros m [= <-]. auto.
Qed.

(** The counter of completed looks goes 1, 2, ... up to the number of
    entries handed over, and the total shown beside it is that number. *)
Theorem run_counter
    (W : World.t) (cfg : Config.t) (C : Collaborators) (s : Store.t) :
  let t := trace (runPipeline W cfg s) in
  completed_counts t = seq 1 (length (produced t)) /\
  totals t = match produced t with
             | [] => []
             | _ :: _ => [length (produced t)]
             end.
Proof.
  intros t. pose proof (run_digest W cfg s) as H. fold t in H.
  change (Digest.completed (digest t) = seq 1 (length (Digest.produced (digest t))) /\
          Digest.totals (digest t)
          = match Digest.produced (digest t) with
            | [] => []
            | _ :: _ => [length (Digest.produced (digest t))]
            end).
  destruct H as [sts err _|rows posts cached Hne Hmade _]; simpl; [auto|].
  pose proof (Forall2_length _ _ _ Hmade) as Hlen.
  rewrite <- Hlen. split; [reflexivity|].
  destruct posts; [|reflexivity].
  destruct rows; [congruence|discriminate].
Qed.

(** The entries of one run have pairwise different ids, whatever the clock
    and the random suffixes were, provided the clock is not before 1970. *)
Theorem run_ids_distinct
    (W : World.t) (cfg : Config.t) (C : Collaborators) (s : Store.t) :
  clock_after_epoch W ->
  List.NoDup (map OutfitPost.id (produced (trace (runPipeline W cfg s)))).
Proof.
  intros Hclock. pose proof (run_digest W cfg s) as H.
  change (List.NoDup (map OutfitPost.id
            (Digest.produced (digest (trace (runPipeline W cfg s)))))).
  destruct H as [sts err _|rows posts cached _ Hmade Hfresh]; simpl.
  - constructor.
  - rewrite (Forall2_length _ _ _ Hmade) in Hfresh.
    apply (fresh_entries_distinct W posts 0 Hclock Hfresh).
Qed.

Lemma run_ids_distinct_witness :
  List.NoDup (map OutfitPost.id
    (produced (trace (runPipeline Demo.world Demo.cfg
                        (C := app Demo.world Demo.cfg) Store.init)))).
Proof.
  apply (run_ids_distinct Demo.world Demo.cfg (app Demo.world Demo.cfg) Store.init).
  intros n. simpl. lia.
Defined.

(** Every entry handed over starts not liked and without comments, with a
    like count between 50 and 549 and a comment count between 0 and 29. *)
Theorem run_entries_untouched
    (W : World.t) (cfg : Config.t) (C : Collaborators) (s : Store.t) :
  unit_interval W ->
  Forall untouched (produced (trace (runPipeline W cfg s))).
Proof.
  intros HW. pose proof (run_digest W cfg s) as H.
  change (Forall untouched
            (Digest.produced (digest (trace (runPipeline W cfg s))))).
  destruct H as [sts err _|rows posts cached _ _ Hfresh]; simpl.
  - constructor.
  - revert Hfresh. generalize (seq 0 (length rows)).
    induction posts as [|p posts IH]; intros l Hf; [constructor|].
    inversion Hf; subst. constructor; eauto using fresh_entry_untouched.
Qed.

Lemma run_entries_untouched_witness :
  Forall untouched
    (produced (trace (runPipeline Demo.world Demo.cfg
                        (C := app Demo.world Demo.cfg) Store.init))).
Proof.
  apply (run_entries_untouched Demo.world Demo.cfg (app Demo.world Demo.cfg)
           Store.init).
  intros n. simpl. split; [discriminate|reflexivity].
Defined.

(** ** More on strings *)

Lemma has_char_app (c : ascii) (a b : string) :
  has_char c (a +:+ b) = has_char c a || has_char c b.
Proof.
  induction a as [|d a IH]; [reflexivity|].
  change (has_char c (String d (a +:+ b)) = has_char c (String d a) || has_char c b).
  simpl. rewrite IH. apply orb_assoc.
Qed.

Lemma eqb_not_space (c d : ascii) :
  JS.is_space c = false -> JS.is_space d = true -> Ascii.eqb d c = false.
Proof.
  intros Hc Hd. destruct (Ascii.eqb d c) eqn:E; [|reflexivity].
  apply Ascii.eqb_eq in E. congruence.
Qed.

Lemma has_char_trimStart_keeps (c : ascii) (s : string) :
  JS.is_space c = false -> has_char c (JS.trimStart s) = has_char c s.
Proof.
  intros Hc. induction s as [|d s IH]; simpl; [reflexivity|].
  destruct (JS.is_space d) eqn:Hd; [|reflexivity].
  rewrite (eqb_not_space c d Hc Hd). exact IH.
Qed.

Lemma has_char_trimEnd_keeps (c : ascii) (s : string) :
  JS.is_space c = false -> has_char c (JS.trimEnd s) = has_char c s.
Proof.
  intros Hc. induction s as [|d s IH]; simpl; [reflexivity|].
  destruct (JS.trimEnd s) as [|e r] eqn:Hr.
  - destruct (JS.is_space d) eqn:Hd; simpl.
    + rewrite (eqb_not_space c d Hc Hd), <- IH. reflexivity.
    + rewrite <- IH. reflexivity.
  - rewrite <- IH. reflexivity.
Qed.

Lemma has_char_trim_keeps (c : ascii) (s : string) :
  JS.is_space c = false -> has_char c (JS.trim s) = has_char c s.
Proof.
  intros Hc. unfold JS.trim.
  rewrite has_char_trimEnd_keeps, has_char_trimStart_keeps; auto.
Qed.

Lemma trim_nonempty (c : ascii) (s : string) :
  JS.is_space c = false -> has_char c s = true -> JS.trim s <> "".
Proof.
  intros Hc Hs E. rewrite <- (has_char_trim_keeps c s Hc), E in Hs. discriminate.
Qed.

Lemma trimEnd_empty (s : string) :
  JS.trimEnd s = "" <-> all_chars JS.is_space s = true.
Proof.
  induction s as [|c s IH]; simpl; [tauto|].
  destruct (JS.trimEnd s) as [|d r] eqn:Hr.
  - destruct (JS.is_space c); simpl; [tauto|]. split; discriminate.
  - split; [discriminate|]. intros H. apply andb_prop in H as [_ H].
    apply IH in H. discriminate.
Qed.

Lemma all_space_trimStart (s : string) :
  all_chars JS.is_space (JS.trimStart s) = all_chars JS.is_space s.
Proof.
  induction s as [|c s IH]; simpl; [reflexivity|].
  destruct (JS.is_space c) eqn:Hc; simpl; [exact IH|]. rewrite Hc. reflexivity.
Qed.

Lemma trim_empty (s : string) :
  JS.trim s = "" <-> all_chars JS.is_space s = true.
Proof. unfold JS.trim. rewrite trimEnd_empty, all_space_trimStart. tauto. Qed.

Lemma truthy_false (s : string) : JS.truthy s = false <-> s = "".
Proof.
  unfold JS.truthy. destruct (String.eqb s "") eqn:E; simpl.
  - apply String.eqb_eq in E. tauto.
  - apply String.eqb_neq in E. split; [discriminate|tauto].
Qed.

Lemma truthy_true (s : string) : JS.truthy s = true <-> s <> "".
Proof.
  rewrite <- truthy_false. destruct (JS.truthy s); split; congruence.
Qed.

(** ** Splitting at a separator *)

Lemma split_on_nonempty (sep : ascii) (s : string) : split_on sep s <> [].
Proof.
  destruct s as [|c s]; simpl; [discriminate|].
  destruct (Ascii.eqb c sep); [discriminate|].
  destruct (split_on sep s); discriminate.
Qed.

Lemma split_on_free (sep : ascii) (s : string) :
  Forall (fun piece => has_char sep piece = false) (split_on sep s).
Proof.
  induction s as [|c s IH]; simpl; [repeat constructor|].
  destruct (Ascii.eqb c sep) eqn:Hc.
  - constructor; [reflexivity|exact IH].
  - destruct (split_on sep s) as [|piece pieces]; [repeat constructor; simpl|].
    + rewrite Hc. reflexivity.
    + inversion IH; subst. constructor; auto. simpl. rewrite Hc. auto.
Qed.

Lemma split_on_join (sep : ascii) (s : string) :
  String.concat (String sep "") (split_on sep s) = s.
Proof.
  induction s as [|c s IH]; [reflexivity|]. simpl.
  destruct (Ascii.eqb c sep) eqn:Hc.
  - apply Ascii.eqb_eq in Hc. subst c.
    pose proof (split_on_nonempty sep s) as Hne.
    destruct (split_on sep s) as [|piece pieces]; [congruence|].
    change (String sep (String.concat (String sep "") (piece :: pieces)) = String sep s).
    rewrite IH. reflexivity.
  - pose proof (split_on_nonempty sep s) as Hne.
    destruct (split_on sep s) as [|piece pieces]; [congruence|].
    destruct pieces as [|q qs].
    + simpl in *. congruence.
    + change (String c (String.concat (String sep "") (piece :: q :: qs)) = String c s).
      rewrite IH. reflexivity.
Qed.

Lemma split_on_all (p : ascii -> bool) (sep : ascii) (s : string) :
  forallb (all_chars p) (split_on sep s)
    = all_chars (fun c => Ascii.eqb c sep || p c) s.
Proof.
  induction s as [|c s IH]; [reflexivity|]. simpl.
  destruct (Ascii.eqb c sep) eqn:Hc; simpl; [exact IH|].
  pose proof (split_on_nonempty sep s) as Hne.
  destruct (split_on sep s) as [|piece pieces]; [congruence|].
  simpl in *. rewrite <- IH, andb_assoc. reflexivity.
Qed.

Lemma split_on_plain (sep : ascii) (s : string) :
  has_char sep s = false -> split_on sep s = [s].
Proof.
  induction s as [|c s IH]; [reflexivity|]. simpl. intros H.
  apply orb_false_iff in H as [Hc Hs]. rewrite Hc, (IH Hs). reflexivity.
Qed.

(** ** The onboarding screen *)

Lemma existsb_eqb (s : string) (l : list string) :
  existsb (String.eqb s) l = true <-> In s l.
Proof.
  rewrite existsb_exists. split.
  - intros (x & Hx & E). apply String.eqb_eq in E. congruence.
  - intros H. exists s. split; [exact H|apply String.eqb_refl].
Qed.

Lemma filter_other_In (s x : string) (l : list string) :
  In x (List.filter (fun y => negb (String.eqb y s)) l) <-> x <> s /\ In x l.
Proof.
  rewrite List.filter_In, negb_true_iff, String.eqb_neq. tauto.
Qed.

Lemma filter_other_absent (s : string) (l : list string) :
  ~ In s l -> List.filter (fun y => negb (String.eqb y s)) l = l.
Proof.
  induction l as [|x l IH]; [reflexivity|]. simpl. intros H.
  destruct (String.eqb x s) eqn:E.
  - apply String.eqb_eq in E. tauto.
  - simpl. rewrite IH; tauto.
Qed.

Lemma toggleStyle_keeps (s : string) (prev : list string) :
  (forall x, x <> s -> In x (Onboarding.toggleStyle s prev) <-> In x prev) /\
  (List.NoDup prev -> List.NoDup (Onboarding.toggleStyle s prev)).
Proof.
  unfold Onboarding.toggleStyle.
  destruct (existsb (String.eqb s) prev) eqn:E; split.
  - intros x Hx. rewrite filter_other_In. tauto.
  - intros H. apply List.NoDup_filter. exact H.
  - intros x Hx. rewrite in_app_iff. simpl. split; [|tauto].
    intros [H|[H|[]]]; [exact H|congruence].
  - assert (Hs : ~ In s prev).
    { intros H. apply existsb_eqb in H. congruence. }
    intros H. apply NoDup_ListNoDup, NoDup_app. repeat split.
    + apply NoDup_ListNoDup. exact H.
    + intros x Hx Hx'. apply list_elem_of_In in Hx.
      apply list_elem_of_singleton in Hx'. subst. tauto.
    + apply NoDup_singleton.
Qed.

(** Pressing a style chip selects the style when it was not selected and
    deselects it when it was; the other styles stay as they were, in their
    order, and no style is listed twice.  A style that is deselected and
    selected again goes to the end of the list: it is the first style only
    if no other is selected. *)
Theorem toggleStyle_spec (s : string) (prev : list string) :
  (In s (Onboarding.toggleStyle s prev) <-> ~ In s prev) /\
  (forall x, x <> s -> In x (Onboarding.toggleStyle s prev) <-> In x prev) /\
  (List.NoDup prev -> List.NoDup (Onboarding.toggleStyle s prev)) /\
  List.filter (fun y => negb (String.eqb y s)) (Onboarding.toggleStyle s prev)
    = List.filter (fun y => negb (String.eqb y s)) prev /\
  (~ In s prev ->
   Onboarding.toggleStyle s (Onboarding.toggleStyle s prev) = prev) /\
  (In s prev ->
   Onboarding.toggleStyle s (Onboarding.toggleStyle s prev)
     = List.filter (fun y => negb (String.eqb y s)) prev ++ [s]).
Proof.
  unfold Onboarding.toggleStyle.
  destruct (existsb (String.eqb s) prev) eqn:E.
  - apply existsb_eqb in E.
    assert (Hout : ~ In s (List.filter (fun y => negb (String.eqb y s)) prev))
      by (rewrite filter_other_In; tauto).
    assert (E' : existsb (String.eqb s)
                   (List.filter (fun y => negb (String.eqb y s)) prev) = false).
    { destruct (existsb _ _) eqn:E'; [|reflexivity].
      apply existsb_eqb in E'. tauto. }
    split; [|split; [|split; [|split; [|split]]]].
    + tauto.
    + intros x Hx. rewrite filter_other_In. tauto.
    + intros H. apply List.NoDup_filter. exact H.
    + apply filter_other_absent. exact Hout.
    + tauto.
    + intros _. rewrite E'. reflexivity.
  - assert (Hs : ~ In s prev).
    { intros H. apply existsb_eqb in H. congruence. }
    assert (E' : existsb (String.eqb s) (prev ++ [s]) = true).
    { apply existsb_eqb, in_or_app. right. left. reflexivity. }
    split; [|split; [|split; [|split; [|split]]]].
    + split; [tauto|]. intros _. apply in_or_app. right. left. reflexivity.
    + intros x Hx. rewrite in_app_iff. simpl. split; [|tauto].
      intros [H|[H|[]]]; [exact H|congruence].
    + intros H. apply NoDup_ListNoDup, NoDup_app. repeat split.
      * apply NoDup_ListNoDup. exact H.
      * intros x Hx Hx'. apply list_elem_of_In in Hx.
        apply list_elem_of_singleton in Hx'. subst. tauto.
      * apply NoDup_singleton.
    + rewrite List.filter_app. simpl. rewrite String.eqb_refl. simpl.
      apply app_nil_r.
    + intros _. rewrite E', List.filter_app. simpl. rewrite String.eqb_refl.
      simpl. rewrite app_nil_r. apply filter_other_absent. exact Hs.
    + tauto.
Qed.

Lemma filter_truthy_nil (l : list string) :
  List.filter JS.truthy l = [] <-> Forall (fun x => x = "") l.
Proof.
  induction l as [|x l IH]; simpl.
  - split; constructor.
  - destruct (JS.truthy x) eqn:E.
    + split; [discriminate|]. intros H. inversion H; subst. discriminate.
    + apply truthy_false in E. rewrite IH. split.
      * intros H. constructor; auto.
      * intros H. inversion H; auto.
Qed.

Lemma parse_brands_names (text : string) :
  Forall brand_name (Onboarding.parse_brands text).
Proof.
  unfold Onboarding.parse_brands.
  apply List.Forall_forall. intros b Hb.
  apply List.filter_In in Hb as [Hb Ht].
  apply List.in_map_iff in Hb as (piece & <- & Hp).
  split; [|split].
  - apply truthy_true. exact Ht.
  - apply trim_idem.
  - apply has_char_trim.
    pose proof (split_on_free "," text) as Hfree.
    rewrite List.Forall_forall in Hfree. apply Hfree. exact Hp.
Qed.

(** The brands field is read as a list of names separated by commas: every
    name stored is non-empty, has no white space at either end and no comma.
    Nothing is stored exactly when the field holds only commas and white
    space; a field without a comma gives its trimmed text as the one
    name. *)
Theorem parse_brands_spec (text : string) :
  Forall brand_name (Onboarding.parse_brands text) /\
  (Onboarding.parse_brands text = [] <->
   all_chars (fun c => Ascii.eqb c "," || JS.is_space c) text = true) /\
  (has_char "," text = false -> JS.trim text <> "" ->
   Onboarding.parse_brands text = [JS.trim text]).
Proof.
  split; [apply parse_brands_names|].
  unfold Onboarding.parse_brands. split; [split|].
  - intros H. apply filter_truthy_nil in H.
    rewrite <- split_on_all. apply forallb_forall. intros piece Hp.
    apply trim_empty. rewrite List.Forall_forall in H. apply H.
    apply List.in_map. exact Hp.
  - intros H. apply filter_truthy_nil, List.Forall_forall.
    intros b Hb. apply List.in_map_iff in Hb as (piece & <- & Hp).
    apply trim_empty. rewrite <- split_on_all in H.
    rewrite forallb_forall in H. apply H. exact Hp.
  - intros Hc Ht. rewrite (split_on_plain "," text Hc). simpl.
    apply truthy_true in Ht. rewrite Ht. reflexivity.
Qed.

Lemma phrase_is_search_phrase (s : string) :
  has_char "o" s = true -> search_phrase (JS.trim s).
Proof.
  intros Hs. split; [|apply trim_idem].
  apply (trim_nonempty "o"); [reflexivity|exact Hs].
Qed.

Lemma has_char_after (c : ascii) (a b : string) :
  has_char c b = true -> has_char c (a +:+ b) = true.
Proof. intros H. rewrite has_char_app, H. apply orb_true_r. Qed.

Lemma length_flat_map_const {A B} (f : A -> list B) (l : list A) (n : nat) :
  (forall a, length (f a) = n) -> length (flat_map f l) = length l * n.
Proof.
  intros Hf. induction l as [|a l IH]; [reflexivity|].
  simpl. rewrite length_app, Hf, IH. reflexivity.
Qed.

Lemma build_keywords_length (brands styles : list string) (genderTag : string) :
  length (Onboarding.build_keywords brands styles genderTag)
    = length brands * length styles + length styles + length brands.
Proof.
  unfold Onboarding.build_keywords.
  rewrite !length_app, !length_map.
  rewrite (length_flat_map_const _ _ (length styles));
    [lia|intros a; apply length_map].
Qed.

Lemma build_keywords_phrases (brands styles : list string) (genderTag : string) :
  Forall search_phrase (Onboarding.build_keywords brands styles genderTag).
Proof.
  unfold Onboarding.build_keywords.
  rewrite !Forall_app. repeat split; apply List.Forall_forall; intros k Hk.
  - apply in_flat_map in Hk as (brand & _ & Hk).
    apply List.in_map_iff in Hk as (style & <- & _).
    apply phrase_is_search_phrase.
    apply has_char_after, (has_char_after _ " "), has_char_after. reflexivity.
  - apply List.in_map_iff in Hk as (style & <- & _).
    apply phrase_is_search_phrase, has_char_after. reflexivity.
  - apply List.in_map_iff in Hk as (brand & <- & _).
    apply phrase_is_search_phrase, has_char_after. reflexivity.
Qed.

Lemma build_keywords_nil (brands styles : list string) (genderTag : string) :
  Onboarding.build_keywords brands styles genderTag = [] ->
  brands = [] /\ styles = [].
Proof.
  intros H. apply (f_equal (@length string)) in H.
  rewrite build_keywords_length in H. simpl in H.
  destruct brands, styles; simpl in H; try lia. auto.
Qed.


Lemma init_well_formed : well_formed Onboarding.init.
Proof.
  unfold well_formed. simpl. repeat split; try lia; try constructor.
Qed.

Lemma press_well_formed st p :
  well_formed st -> well_formed (fst (Onboarding.press st p)).
Proof.
  intros Hwf. pose proof Hwf as (Hstep & Hg & Hph & Hb & Hnd & Hsub).
  unfold Onboarding.press.
  destruct (Onboarding.on_screen st p) eqn:Hon; [|exact Hwf].
  assert (Hkeep : forall g ph b n,
            n <= 3 ->
            (1 <= n -> g <> None) ->
            (2 <= n -> JS.truthy_opt ph = true) ->
            (3 <= n -> JS.trim b <> "") ->
            well_formed (Onboarding.mk g ph b (Onboarding.selectedStyles st) n)).
  { intros g ph b n H0 H1 H2 H3. unfold well_formed. simpl. auto 10. }
  destruct p as [g|uri|text|s| |]; cbn [Onboarding.on_screen] in Hon;
    cbn [negb fst].
  - apply Nat.eqb_eq in Hon. apply Hkeep; intros; try lia; discriminate.
  - apply Nat.eqb_eq in Hon. apply Hkeep; auto; try lia.
  - apply Nat.eqb_eq in Hon. apply Hkeep; auto; try lia.
  - apply andb_prop in Hon as [_ Hs]. apply existsb_eqb in Hs.
    destruct (toggleStyle_keeps s (Onboarding.selectedStyles st))
      as (Hother & Hdup).
    unfold well_formed. simpl.
    split; [exact Hstep|]. split; [exact Hg|]. split; [exact Hph|].
    split; [exact Hb|]. split; [apply Hdup, Hnd|].
    intros x Hx. destruct (String.eqb x s) eqn:E.
    + apply String.eqb_eq in E. subst x. exact Hs.
    + apply String.eqb_neq in E. apply Hsub, (Hother x E), Hx.
  - apply Nat.ltb_lt in Hon.
    apply Hkeep; [lia|intros; apply Hg; lia|intros; apply Hph; lia|
                  intros; apply Hb; lia].
  - destruct (Onboarding.canProceed st) eqn:Hcan; cbn [negb fst]; [|exact Hwf].
    change (4 - 1) with 3.
    destruct (Onboarding.step st <? 3)%nat eqn:Hlt; cbn [fst]; [|exact Hwf].
    apply Nat.ltb_lt in Hlt. unfold Onboarding.canProceed in Hcan.
    apply Hkeep; [lia| | |].
    + intros _. destruct (Onboarding.step st) as [|n].
      * destruct (Onboarding.gender st); [discriminate|discriminate].
      * apply Hg. lia.
    + intros H2. destruct (Onboarding.step st) as [|[|n]]; [lia| |apply Hph; lia].
      exact Hcan.
    + intros H3.
      destruct (Onboarding.step st) as [|[|[|n]]]; [lia|lia| |lia].
      apply Nat.ltb_lt in Hcan. intros E. rewrite E in Hcan. simpl in Hcan. lia.
Qed.

Lemma press_finished st p :
  snd (Onboarding.press st p) = true ->
  Onboarding.step st >= 3 /\ Onboarding.canProceed st = true.
Proof.
  unfold Onboarding.press.
  destruct (Onboarding.on_screen st p); simpl; [|discriminate].
  destruct p; simpl; try discriminate.
  destruct (Onboarding.canProceed st); cbn [negb snd]; [|discriminate].
  change (4 - 1) with 3.
  destruct (Onboarding.step st <? 3)%nat eqn:Hlt; simpl; [discriminate|].
  apply Nat.ltb_ge in Hlt. auto.
Qed.

Lemma finishes_well_formed session : forall st st',
  well_formed st ->
  In st' (Onboarding.finishes st session) ->
  well_formed st' /\ Onboarding.step st' = 3 /\
  Onboarding.selectedStyles st' <> [].
Proof.
  induction session as [|p rest IH]; intros st st' Hwf Hin; [destruct Hin|].
  simpl in Hin. pose proof (press_well_formed st p Hwf) as Hnext.
  pose proof (press_finished st p) as Hfin.
  destruct (Onboarding.press st p) as [st1 finished]. simpl in *.
  apply in_app_or in Hin as [Hin|Hin]; [|eauto].
  destruct finished; [|destruct Hin].
  destruct Hin as [<-|[]]. destruct (Hfin eq_refl) as [Hge Hcan].
  assert (Hstep : Onboarding.step st = 3) by (destruct Hwf; lia).
  split; [exact Hwf|]. split; [exact Hstep|].
  unfold Onboarding.canProceed in Hcan. rewrite Hstep in Hcan.
  intros E. rewrite E in Hcan. discriminate.
Qed.

Lemma finish_profile_ready st base :
  well_formed st -> Onboarding.step st = 3 ->
  Onboarding.selectedStyles st <> [] ->
  ready (Onboarding.finish_profile st base).
Proof.
  intros (Hstep & Hg & Hph & Hb & Hnd & Hsub) H3 Hne.
  pose proof (build_keywords_phrases
                (Onboarding.parse_brands (Onboarding.brands st))
                (Onboarding.selectedStyles st)
                (Onboarding.genderTag (Onboarding.gender st))) as Hphrases.
  pose proof (build_keywords_nil
                (Onboarding.parse_brands (Onboarding.brands st))
                (Onboarding.selectedStyles st)
                (Onboarding.genderTag (Onboarding.gender st))) as Hnil.
  unfold ready, Onboarding.finish_profile. simpl.
  split; [apply Hph; lia|]. split; [apply Hg; lia|].
  split; [exact Hne|]. split; [exact Hnd|]. split; [exact Hsub|].
  split; [apply parse_brands_names|]. split; [|split; [exact Hphrases|reflexivity]].
  intros E. apply Hnil in E. tauto.
Qed.

(** Whatever the user does on the onboarding screen, each time [finish] is
    called the profile it saves is ready for the generation pipeline: it has
    a photo and a gender, at least one style, all styles among the twelve on
    offer and none twice, clean brand names, and at least one search phrase,
    all non-empty and trimmed.  The profile saved does not depend on the one
    that was stored before; its primary style is the style selected first. *)
Theorem onboarding_saves_ready_profile
    (session : list Onboarding.Press) (st : Onboarding.State)
    (stored : UserProfile.t) :
  In st (Onboarding.finishes Onboarding.init session) ->
  let profile := Onboarding.finish_profile st stored in
  ready profile /\
  profile = Onboarding.finish_profile st Storage.DEFAULT_PROFILE /\
  keywords_of profile = UserProfile.keywords profile /\
  primaryStyle profile = head (Onboarding.selectedStyles st).
Proof.
  intros Hin profile.
  destruct (finishes_well_formed session Onboarding.init st init_well_formed Hin)
    as (Hwf & Hstep & Hne).
  pose proof (finish_profile_ready st stored Hwf Hstep Hne) as Hready.
  split; [exact Hready|]. split; [reflexivity|].
  destruct Hready as (_ & _ & Hs & _ & _ & _ & Hk & _).
  fold profile in Hs, Hk. split.
  - unfold keywords_of. destruct (UserProfile.keywords profile); [congruence|].
    reflexivity.
  - unfold primaryStyle. change (UserProfile.styles profile)
      with (Onboarding.selectedStyles st) in *.
    destruct (Onboarding.selectedStyles st); [congruence|reflexivity].
Qed.

Lemma onboarding_saves_ready_profile_witness :
  let st := Onboarding.mk (Some female) (Some "file:///docs/selfie.heic")
              "Nike, Zara," ["Y2K"; "Streetwear"] 3 in
  let profile := Onboarding.finish_profile st Storage.DEFAULT_PROFILE in
  ready profile /\
  profile = Onboarding.finish_profile st Storage.DEFAULT_PROFILE /\
  keywords_of profile = UserProfile.keywords profile /\
  primaryStyle profile = head (Onboarding.selectedStyles st).
Proof.
  apply (onboarding_saves_ready_profile demo_session).
  vm_compute. left. reflexivity.
Defined.

(** ** From onboarding to the generation screen *)

Lemma style_option_scene (tag : string) :
  In tag Onboarding.STYLE_OPTIONS ->
  exists env, Gemini.getEnvironment tag = JS.Str env /\
              env <> Gemini.DEFAULT_ENVIRONMENT.
Proof.
  intros H. unfold Onboarding.STYLE_OPTIONS in H. simpl in H.
  repeat (destruct H as [<-|H];
          [eexists; split; [vm_compute; reflexivity|discriminate]|]).
  destruct H.
Qed.

Lemma outfitStyle_In profile outfit :
  UserProfile.styles profile <> [] ->
  exists tag, outfitStyle profile outfit = Some tag /\
              In tag (UserProfile.styles profile).
Proof.
  intros Hne. unfold outfitStyle, primaryStyle.
  destruct (find _ (UserProfile.styles profile)) as [tag|] eqn:Hf.
  - apply find_some in Hf as [Hin _]. eauto.
  - destruct (UserProfile.styles profile) as [|tag rest]; [congruence|].
    simpl. exists tag. split; [reflexivity|left; reflexivity].
Qed.

Section RunCalls.

Variable W : World.t.
Variable cfg : Config.t.
Context {C : Collaborators}.

(** With a profile that has a photo, the run searches once, with the
    profile's phrases, and every call to [generateTryOn] is the one the loop
    makes for a candidate. *)
Lemma run_calls s profile photo s1 t1 :
  getProfile s = (Returned profile, s1, t1) ->
  UserProfile.photoUri profile = Some photo ->
  JS.truthy photo = true ->
  let t := trace (runPipeline W cfg s) in
  search_calls t
    = [(keywords_of profile, Config.PINTEREST_FETCH_LIMIT cfg, true)] /\
  final_error t <> Some NO_PHOTO /\
  exists outfits, try_on_calls t = map (try_on_args profile photo) outfits.
Proof.
  intros Hprof Hsome Htruthy t.
  assert (Hphoto : JS.truthy_opt (UserProfile.photoUri profile) = true)
    by (rewrite Hsome; exact Htruthy).
  destruct (searchPinterest (keywords_of profile)
              (Config.PINTEREST_FETCH_LIMIT cfg) true s1)
    as [[[outfits|e] s2] t2] eqn:Hsearch.
  2:{ destruct (run_search_throws W cfg s profile s1 t1 e s2 t2 Hprof Hphoto Hsearch)
        as (t' & Hrun & Hsk).
      subst t. rewrite Hrun. unfold trace. simpl.
      rewrite search_calls_skeleton, final_error_skeleton, try_on_calls_skeleton, Hsk.
      split; [reflexivity|]. split; [discriminate|]. exists []. reflexivity. }
  destruct outfits as [|o rest].
  { pose proof (run_no_outfits W cfg s profile s1 t1 s2 t2 Hprof Hphoto Hsearch)
      as Hrun.
    subst t. rewrite Hrun. unfold trace. simpl.
    rewrite search_calls_skeleton, final_error_skeleton, try_on_calls_skeleton.
    skeleton_simpl.
    split; [reflexivity|]. split; [discriminate|]. exists []. reflexivity. }
  destruct (run_composed W cfg s profile photo s1 t1 (o :: rest) s2 t2
              Hprof Hsome Htruthy Hsearch ltac:(discriminate))
    as (rows & posts & s' & t' & cached & Hrun & Hrows & Hsk & Hall).
  subst t. rewrite Hrun. unfold trace. simpl.
  rewrite search_calls_skeleton, final_error_skeleton, try_on_calls_skeleton, Hsk.
  unfold search_calls, final_error, try_on_calls, composed_skeleton. simpl.
  rewrite !omap_app.
  fold (search_calls (turns_skeleton profile photo (length rows) 1 rows)).
  fold (try_on_calls (turns_skeleton profile photo (length rows) 1 rows)).
  rewrite turns_searches, turns_errors, turns_calls.
  split; [destruct cached; reflexivity|].
  split; [destruct cached; simpl; discriminate|].
  exists (map fst rows). destruct cached; simpl; rewrite app_nil_r; reflexivity.
Qed.

End RunCalls.

(** After onboarding, the generation screen finds what it needs: with the
    profile [finish] saved, a run does not stop for want of a photo, searches
    with the phrases [finish] built and never with the stock phrases, and
    asks for every look in the scene of one of the user's styles, never in
    the generic scene. *)
Theorem onboarded_run
    (W : World.t) (cfg : Config.t) (C : Collaborators) (s : Store.t)
    (profile : UserProfile.t) (s1 : Store.t) (t1 : list IOEvent) :
  ready profile ->
  getProfile s = (Returned profile, s1, t1) ->
  let t := trace (runPipeline W cfg s) in
  final_error t <> Some NO_PHOTO /\
  search_calls t
    = [(UserProfile.keywords profile, Config.PINTEREST_FETCH_LIMIT cfg, true)] /\
  exists photo,
    UserProfile.photoUri profile = Some photo /\
    Forall (styled_call (UserProfile.styles profile) photo) (try_on_calls t).
Proof.
  intros (Hphoto & _ & Hstyles & _ & Hsub & _ & Hk & _) Hprof t.
  destruct (truthy_opt_true _ Hphoto) as (photo & Hsome & Htruthy).
  destruct (run_calls W cfg s profile photo s1 t1 Hprof Hsome Htruthy)
    as (Hsearch & Herr & outfits & Hcalls).
  fold t in Hsearch, Herr, Hcalls.
  split; [exact Herr|]. split.
  - rewrite Hsearch. unfold keywords_of.
    destruct (UserProfile.keywords profile); [congruence|reflexivity].
  - exists photo. split; [exact Hsome|]. rewrite Hcalls.
    apply List.Forall_forall. intros call Hcall.
    apply List.in_map_iff in Hcall as (outfit & <- & _).
    unfold try_on_args, styled_call. split; [reflexivity|].
    destruct (outfitStyle_In profile outfit Hstyles) as (tag & Htag & Hin).
    destruct (style_option_scene tag (Hsub tag Hin)) as (env & Henv & Hspecific).
    exists tag, env. rewrite Htag. auto.
Qed.

Lemma onboarded_run_witness :
  let t := trace (runPipeline world_onboarded Demo.cfg
                    (C := app world_onboarded Demo.cfg) Store.init) in
  final_error t <> Some NO_PHOTO /\
  search_calls t
    = [(UserProfile.keywords onboarded, Config.PINTEREST_FETCH_LIMIT Demo.cfg, true)] /\
  exists photo,
    UserProfile.photoUri onboarded = Some photo /\
    Forall (styled_call (UserProfile.styles onboarded) photo) (try_on_calls t).
Proof.
  eapply (onboarded_run world_onboarded Demo.cfg (app world_onboarded Demo.cfg)
            Store.init onboarded).
  - unfold ready. repeat split; try discriminate; try reflexivity.
    + repeat constructor; simpl; intuition discriminate.
    + intros s [<-|[<-|[]]]; simpl; tauto.
    + repeat constructor; discriminate.
    + repeat constructor; discriminate.
  - vm_compute. reflexivity.
Defined.

(** The profile of the example is the one [finish] saves at the end of the
    example session. *)
Example onboarded_from_session :
  map (fun st => Onboarding.finish_profile st Storage.DEFAULT_PROFILE)
      (Onboarding.finishes Onboarding.init demo_session)
    = [onboarded].
Proof. vm_compute. reflexivity. Qed.

(** ** The persistence layer *)

Section FilesFacts.

Variable W : World.t.
Context {U : Type}.

Lemma same_files_refl d : same_files d d.
Proof. repeat split. Qed.

Lemma same_files_with_dir d : same_files d (with_dir d).
Proof. repeat split. Qed.

Lemma only_cursors_refl (sys : Sys.t U) : only_cursors sys sys.
Proof. repeat split. Qed.

(** Reading never throws and changes nothing. *)
Lemma readJSON_or_spec {A} (file : Disk.Handle A) (fallback : A) (sys : Sys.t U) :
  Files.readJSON_or file fallback sys =
  (Returned (match Disk.content file (Sys.disk sys) with
             | Disk.Holds a => (false, a)
             | _ => (true, fallback)
             end), sys, []).
Proof.
  unfold Files.readJSON_or, Task.bind, Task.disk, Task.ret.
  destruct (Disk.content file (Sys.disk sys)); reflexivity.
Qed.

Lemma readJSON_spec {A} (file : Disk.Handle A) (fallback : A) (sys : Sys.t U) :
  Files.readJSON file fallback sys =
  (Returned (held (Disk.content file (Sys.disk sys)) fallback), sys, []).
Proof.
  unfold Files.readJSON, Task.bind. rewrite readJSON_or_spec.
  destruct (Disk.content file (Sys.disk sys)); reflexivity.
Qed.

(** Writing either stores the value, with the directory in place, or throws
    and leaves the four files as they were. *)
Lemma writeJSON_spec {A} (file : Disk.Handle A) (data : A) (sys : Sys.t U) :
  (exists s',
     Files.writeJSON W file data sys =
     (Returned tt,
      Sys.mk (Sys.ui sys) (Disk.put file (Disk.Holds data) (with_dir (Sys.disk sys)))
        s' (Sys.DEFAULT_PROFILE sys), [])) \/
  (exists d' s',
     Files.writeJSON W file data sys =
     (Thrown FileSystemError,
      Sys.mk (Sys.ui sys) d' s' (Sys.DEFAULT_PROFILE sys), []) /\
     same_files (Sys.disk sys) d').
Proof.
  unfold Files.writeJSON, Files.ensureDir, Files.write, Files.permitted,
    Task.bind, Task.disk, Task.set_disk, Task.throw, Task.ret.
  destruct sys as [ui d s dp]. destruct d as [dir p f l c]. simpl.
  destruct dir; simpl.
  - destruct (World.mutation_ok W (Store.file_mutations s)); simpl.
    + left. eexists. reflexivity.
    + right. do 2 eexists. split; [reflexivity|apply same_files_refl].
  - destruct (World.mutation_ok W (Store.file_mutations s)); simpl.
    + destruct (World.mutation_ok W (S (Store.file_mutations s))); simpl.
      * left. eexists. reflexivity.
      * right. do 2 eexists. split; [reflexivity|]. repeat split.
    + right. do 2 eexists. split; [reflexivity|apply same_files_refl].
Qed.

(** In a world that permits every change, writing succeeds. *)
Lemma writeJSON_permitted {A} (file : Disk.Handle A) (data : A) (sys : Sys.t U) :
  permissive W ->
  exists s',
    Files.writeJSON W file data sys =
    (Returned tt,
     Sys.mk (Sys.ui sys) (Disk.put file (Disk.Holds data) (with_dir (Sys.disk sys)))
       s' (Sys.DEFAULT_PROFILE sys), []).
Proof.
  intros HW.
  unfold Files.writeJSON, Files.ensureDir, Files.write, Files.permitted,
    Task.bind, Task.disk, Task.set_disk, Task.throw, Task.ret.
  destruct sys as [ui d s dp]. destruct d as [dir p f l c]. simpl.
  destruct dir; simpl; rewrite ?HW; simpl; rewrite ?HW; simpl;
    eexists; reflexivity.
Qed.

End FilesFacts.

(** What is saved is what is read back.  [saveProfile] and [cacheFeed]
    either store their argument, after which [getProfile] and
    [getCachedFeed] return it and the other files are as before, or throw
    and leave all four files as they were; they do not touch the screen.
    Reading never throws and changes nothing: a missing or unreadable file
    reads as the default profile, an empty feed. *)
Theorem storage_round_trip
    (W : World.t) (U : Type) (sys : Sys.t U)
    (p : UserProfile.t) (posts : list OutfitPost.t) :
  let saved := Files.saveProfile W p sys in
  let cached := Files.cacheFeed W posts sys in
  (Task.outcome saved = Returned tt /\
   Files.getProfile (Task.after saved) = (Returned p, Task.after saved, []) /\
   Disk.feed (Sys.disk (Task.after saved)) = Disk.feed (Sys.disk sys) /\
   Disk.likes (Sys.disk (Task.after saved)) = Disk.likes (Sys.disk sys) /\
   Disk.comments (Sys.disk (Task.after saved)) = Disk.comments (Sys.disk sys)
   \/
   Task.outcome saved = Thrown FileSystemError /\
   only_cursors sys (Task.after saved)) /\
  (Task.outcome cached = Returned tt /\
   Files.getCachedFeed (Task.after cached)
     = (Returned posts, Task.after cached, []) /\
   Disk.profile (Sys.disk (Task.after cached)) = Disk.profile (Sys.disk sys) /\
   Disk.likes (Sys.disk (Task.after cached)) = Disk.likes (Sys.disk sys) /\
   Disk.comments (Sys.disk (Task.after cached)) = Disk.comments (Sys.disk sys)
   \/
   Task.outcome cached = Thrown FileSystemError /\
   only_cursors sys (Task.after cached)) /\
  Sys.ui (Task.after saved) = Sys.ui sys /\
  Sys.ui (Task.after cached) = Sys.ui sys /\
  Files.getProfile sys
    = (Returned (held (Disk.profile (Sys.disk sys)) (Sys.DEFAULT_PROFILE sys)),
       sys, []) /\
  Files.getCachedFeed sys
    = (Returned (held (Disk.feed (Sys.disk sys)) []), sys, []).
Proof.
  intros saved cached. subst saved cached.
  unfold Files.saveProfile, Files.cacheFeed.
  assert (Hget : forall sys' : Sys.t U,
            Files.getProfile sys'
            = (Returned (held (Disk.profile (Sys.disk sys'))
                           (Sys.DEFAULT_PROFILE sys')), sys', [])).
  { intros sys'. unfold Files.getProfile, Files.getProfile_ref, Task.bind.
    rewrite readJSON_or_spec. simpl.
    destruct (Disk.profile (Sys.disk sys')); reflexivity. }
  assert (Hfeed : forall sys' : Sys.t U,
            Files.getCachedFeed sys'
            = (Returned (held (Disk.feed (Sys.disk sys')) []), sys', [])).
  { intros sys'. unfold Files.getCachedFeed. apply readJSON_spec. }
  split; [|split; [|split; [|split; [|split]]]].
  - destruct (writeJSON_spec W PROFILE_FILE p sys)
      as [(s' & ->)|(d' & s' & -> & Hsame)].
    + left. unfold Task.outcome, Task.after. simpl.
      split; [reflexivity|]. rewrite Hget. simpl. auto.
    + right. unfold Task.outcome, Task.after. simpl. repeat split; apply Hsame.
  - destruct (writeJSON_spec W FEED_FILE posts sys)
      as [(s' & ->)|(d' & s' & -> & Hsame)].
    + left. unfold Task.outcome, Task.after. simpl.
      split; [reflexivity|]. rewrite Hfeed. simpl. auto.
    + right. unfold Task.outcome, Task.after. simpl. repeat split; apply Hsame.
  - destruct (writeJSON_spec W PROFILE_FILE p sys)
      as [(s' & ->)|(d' & s' & -> & Hsame)]; reflexivity.
  - destruct (writeJSON_spec W FEED_FILE posts sys)
      as [(s' & ->)|(d' & s' & -> & Hsame)]; reflexivity.
  - apply Hget.
  - apply Hfeed.
Qed.

Section LikesFacts.

Variable W : World.t.
Context {U : Type}.

Lemma getLikes_spec (sys : Sys.t U) :
  Files.getLikes sys = (Returned (held (Disk.likes (Sys.disk sys)) ∅), sys, []).
Proof. unfold Files.getLikes. apply readJSON_spec. Qed.

Lemma get_set_primitive (o : gmap string bool) (k : string) (v : bool) :
  k <> "__proto__" -> Obj.get (Obj.set_primitive o k v) k = Obj.Own v.
Proof.
  intros Hk. unfold Obj.set_primitive, Obj.get.
  destruct (o !! k) eqn:E.
  - rewrite lookup_insert_eq. reflexivity.
  - apply String.eqb_neq in Hk. rewrite Hk, lookup_insert_eq. reflexivity.
Qed.

Lemma set_primitive_other (o : gmap string bool) (k k' : string) (v : bool) :
  k' <> k -> Obj.set_primitive o k v !! k' = o !! k'.
Proof.
  intros Hk. unfold Obj.set_primitive.
  destruct (o !! k); [apply lookup_insert_ne; congruence|].
  destruct (String.eqb k "__proto__"); [reflexivity|].
  apply lookup_insert_ne. congruence.
Qed.

Lemma set_primitive_proto (o : gmap string bool) (v : bool) :
  o !! "__proto__" = None ->
  Obj.set_primitive o "__proto__" v = o /\
  Obj.get o "__proto__" = Obj.Inherited "__proto__".
Proof.
  intros Ho. unfold Obj.set_primitive, Obj.get. rewrite Ho. split; reflexivity.
Qed.

End LikesFacts.

(** [toggleLike] either throws, leaving the four files as they were, or
    stores the flipped like and returns it: what it returns is what the file
    then says, the likes of other posts and the other files are untouched,
    and so is the screen.  The exception is the id [__proto__] without an
    entry of its own: the file is rewritten as it was, and the post counts as
    liked before and after. *)
Theorem toggleLike_spec
    (W : World.t) (U : Type) (sys : Sys.t U) (postId : string) :
  let r := Files.toggleLike W postId sys in
  let likes := held (Disk.likes (Sys.disk sys)) ∅ in
  let before := liked_on_disk (Sys.disk sys) postId in
  Task.notices r = [] /\
  (Task.outcome r = Thrown FileSystemError /\ only_cursors sys (Task.after r)
   \/
   exists isLiked likes',
     Task.outcome r = Returned isLiked /\
     Disk.likes (Sys.disk (Task.after r)) = Disk.Holds likes' /\
     Obj.get likes' postId = isLiked /\
     liked_on_disk (Sys.disk (Task.after r)) postId = Obj.truthy_bool isLiked /\
     (postId <> "__proto__" -> isLiked = Obj.Own (negb before)) /\
     (postId = "__proto__" -> likes !! postId = None ->
      likes' = likes /\ isLiked = Obj.Inherited postId /\ before = true) /\
     (forall other, other <> postId -> likes' !! other = likes !! other) /\
     Disk.profile (Sys.disk (Task.after r)) = Disk.profile (Sys.disk sys) /\
     Disk.feed (Sys.disk (Task.after r)) = Disk.feed (Sys.disk sys) /\
     Disk.comments (Sys.disk (Task.after r)) = Disk.comments (Sys.disk sys) /\
     Sys.ui (Task.after r) = Sys.ui sys).
Proof.
  intros r likes before. subst r.
  unfold Files.toggleLike, Task.bind. rewrite getLikes_spec. fold likes.
  set (likes' := Obj.set_primitive likes postId
                   (negb (Obj.truthy_bool (Obj.get likes postId)))).
  destruct (writeJSON_spec W LIKES_FILE likes' sys)
    as [(s' & ->)|(d' & s' & -> & Hsame)];
    unfold Task.ret, Task.notices, Task.outcome, Task.after; simpl.
  - split; [reflexivity|]. right. exists (Obj.get likes' postId), likes'.
    split; [reflexivity|]. split; [reflexivity|]. split; [reflexivity|].
    split; [reflexivity|]. split; [|split; [|split]].
    + intros Hk. apply get_set_primitive. exact Hk.
    + intros -> Hnone.
      destruct (set_primitive_proto likes
                  (negb (Obj.truthy_bool (Obj.get likes "__proto__"))) Hnone)
        as [Hset Hget].
      subst likes'. rewrite Hset, Hget. split; [reflexivity|].
      split; [reflexivity|]. subst before. unfold liked_on_disk.
      fold likes. rewrite Hget. reflexivity.
    + intros other Hother. apply set_primitive_other. exact Hother.
    + repeat split.
  - split; [reflexivity|]. left. split; [reflexivity|].
    repeat split; apply Hsame.
Qed.

(** Liking and then unliking a post, or the other way round, leaves it as
    it was found, and every other post too. *)
Theorem toggleLike_twice
    (W : World.t) (U : Type) (sys : Sys.t U) (postId : string) :
  permissive W ->
  postId <> "__proto__" ->
  let once := Task.after (Files.toggleLike W postId sys) in
  let twice := Task.after (Files.toggleLike W postId once) in
  liked_on_disk (Sys.disk once) postId = negb (liked_on_disk (Sys.disk sys) postId) /\
  liked_on_disk (Sys.disk twice) postId = liked_on_disk (Sys.disk sys) postId /\
  forall other, other <> postId ->
    liked_on_disk (Sys.disk twice) other = liked_on_disk (Sys.disk sys) other.
Proof.
  intros HW Hk once twice.
  assert (Hstep : forall sys0 : Sys.t U,
            let sys1 := Task.after (Files.toggleLike W postId sys0) in
            liked_on_disk (Sys.disk sys1) postId
              = negb (liked_on_disk (Sys.disk sys0) postId) /\
            forall other, other <> postId ->
              liked_on_disk (Sys.disk sys1) other
                = liked_on_disk (Sys.disk sys0) other).
  { intros sys0 sys1. subst sys1.
    unfold Files.toggleLike, Task.bind. rewrite getLikes_spec.
    set (likes := held (Disk.likes (Sys.disk sys0)) ∅).
    set (likes' := Obj.set_primitive likes postId
                     (negb (Obj.truthy_bool (Obj.get likes postId)))).
    destruct (writeJSON_permitted W LIKES_FILE likes' sys0 HW) as (s' & ->).
    unfold Task.ret, Task.after, liked_on_disk. simpl. fold likes. split.
    - subst likes'. rewrite get_set_primitive by exact Hk. reflexivity.
    - intros other Hother. unfold Obj.get. subst likes'.
      rewrite set_primitive_other by exact Hother. reflexivity. }
  destruct (Hstep sys) as [H1 F1]. destruct (Hstep once) as [H2 F2].
  fold once in H1, F1. fold twice in H2, F2.
  split; [exact H1|]. split.
  - rewrite H2, H1. apply negb_involutive.
  - intros other Hother. rewrite F2, F1; auto.
Qed.

Lemma toggleLike_twice_witness :
  let sys := Sys.boot tt Disk.empty in
  let once := Task.after (Files.toggleLike Demo.world "gen-1700000000000-0-i" sys) in
  let twice := Task.after (Files.toggleLike Demo.world "gen-1700000000000-0-i" once) in
  liked_on_disk (Sys.disk once) "gen-1700000000000-0-i"
    = negb (liked_on_disk (Sys.disk sys) "gen-1700000000000-0-i") /\
  liked_on_disk (Sys.disk twice) "gen-1700000000000-0-i"
    = liked_on_disk (Sys.disk sys) "gen-1700000000000-0-i" /\
  forall other, other <> "gen-1700000000000-0-i" ->
    liked_on_disk (Sys.disk twice) other = liked_on_disk (Sys.disk sys) other.
Proof.
  apply (toggleLike_twice Demo.world unit (Sys.boot tt Disk.empty)
           "gen-1700000000000-0-i").
  - intros n. reflexivity.
  - discriminate.
Defined.

Section CommentsFacts.

Variable W : World.t.
Context {U : Type}.

Lemma new_comment_spec (text : string) (sys : Sys.t U) :
  exists c s',
    Files.new_comment W text sys =
      (Returned c,
       Sys.mk (Sys.ui sys) (Sys.disk sys) s' (Sys.DEFAULT_PROFILE sys), []) /\
    Comment.text c = text /\ Comment.author c = "you".
Proof.
  unfold Files.new_comment, Task.bind, Task.lift, Task.ret, now_iso, Date_now,
    Math_random, bind, ret. simpl.
  do 2 eexists. split; [reflexivity|]. split; reflexivity.
Qed.

Lemma getComments_spec (postId : string) (sys : Sys.t U) :
  Files.getComments postId sys =
  (Returned (match Obj.get (held (Disk.comments (Sys.disk sys)) ∅) postId with
             | Obj.Undefined => Obj.Own []
             | v => v
             end), sys, []).
Proof.
  unfold Files.getComments, Task.bind. rewrite readJSON_spec. simpl.
  destruct (Obj.get _ postId); reflexivity.
Qed.

Lemma get_plain {V} (o : gmap string V) (k : string) :
  plain_name k ->
  Obj.get o k = match o !! k with Some v => Obj.Own v | None => Obj.Undefined end.
Proof.
  intros Hk. unfold Obj.get. destruct (o !! k); [reflexivity|].
  rewrite bool_decide_eq_false_2; [reflexivity|exact Hk].
Qed.

End CommentsFacts.

(** [addComment] appends.  It either throws, leaving the four files as they
    were, or stores the post's earlier comments followed by a new one, with
    the text given and the author "you", and returns that list, which is
    what [getComments] returns afterwards; the comments of other posts and
    the other files are untouched.  It throws a [TypeError] exactly when the
    id is a name that objects inherit and the file has no entry for it.  A
    post without an entry reads as having no comments. *)
Theorem addComment_spec
    (W : World.t) (U : Type) (sys : Sys.t U) (postId text : string) :
  let r := Files.addComment W postId text sys in
  let all := held (Disk.comments (Sys.disk sys)) ∅ in
  let earlier := comments_on_disk (Sys.disk sys) postId in
  Task.notices r = [] /\
  (Task.outcome r = Thrown TypeError <->
   all !! postId = None /\ ~ plain_name postId) /\
  ((exists e, Task.outcome r = Thrown e) /\ only_cursors sys (Task.after r)
   \/
   exists comment all',
     Task.outcome r = Returned (earlier ++ [comment]) /\
     Comment.text comment = text /\
     Comment.author comment = "you" /\
     Disk.comments (Sys.disk (Task.after r)) = Disk.Holds all' /\
     all' !! postId = Some (earlier ++ [comment]) /\
     (forall other, other <> postId -> all' !! other = all !! other) /\
     Files.getComments postId (Task.after r)
       = (Returned (Obj.Own (earlier ++ [comment])), Task.after r, []) /\
     Disk.profile (Sys.disk (Task.after r)) = Disk.profile (Sys.disk sys) /\
     Disk.feed (Sys.disk (Task.after r)) = Disk.feed (Sys.disk sys) /\
     Disk.likes (Sys.disk (Task.after r)) = Disk.likes (Sys.disk sys) /\
     Sys.ui (Task.after r) = Sys.ui sys) /\
  (all !! postId = None -> plain_name postId ->
   Files.getComments postId sys = (Returned (Obj.Own []), sys, [])).
Proof.
  intros r all earlier. subst r.
  unfold Files.addComment, Task.bind. rewrite readJSON_spec.
  change (Disk.content COMMENTS_FILE (Sys.disk sys))
    with (Disk.comments (Sys.disk sys)).
  fold all.
  destruct (new_comment_spec W text sys) as (c & s1 & -> & Htext & Hauthor).
  assert (Hearlier : earlier = match all !! postId with
                               | Some l => l
                               | None => []
                               end) by reflexivity.
  destruct (all !! postId) as [l|] eqn:Hown.
  - (* the post has an entry *)
    assert (Hget : Obj.get all postId = Obj.Own l)
      by (unfold Obj.get; rewrite Hown; reflexivity).
    rewrite Hget. cbn [Obj.truthy_array negb]. rewrite Hget.
    set (sys1 := Sys.mk (Sys.ui sys) (Sys.disk sys) s1 (Sys.DEFAULT_PROFILE sys)).
    destruct (writeJSON_spec W COMMENTS_FILE (<[postId := l ++ [c]]> all) sys1)
      as [(s' & ->)|(d' & s' & -> & Hsame)];
      unfold Task.ret, Task.notices, Task.outcome, Task.after; simpl.
    + split; [reflexivity|]. split; [split; [discriminate|intros [? _]; discriminate]|].
      split; [|intros; discriminate].
      right. exists c, (<[postId := l ++ [c]]> all). rewrite Hearlier.
      split; [reflexivity|]. split; [exact Htext|]. split; [exact Hauthor|].
      split; [reflexivity|]. split; [apply lookup_insert_eq|].
      split; [intros other Hother; apply lookup_insert_ne; congruence|].
      split; [|repeat split].
      rewrite getComments_spec. simpl. unfold Obj.get.
      rewrite lookup_insert_eq. reflexivity.
    + split; [reflexivity|]. split; [split; [discriminate|intros [? _]; discriminate]|].
      split; [|intros; discriminate].
      left. split; [eauto|]. repeat split; apply Hsame.
  - destruct (bool_decide (elem_of postId JS.Object_prototype_names)) eqn:Hproto.
    + (* an inherited name *)
      apply bool_decide_eq_true_1 in Hproto.
      assert (Hget : Obj.get all postId = Obj.Inherited postId).
      { unfold Obj.get. rewrite Hown, bool_decide_eq_true_2; auto. }
      rewrite Hget. cbn [Obj.truthy_array negb]. rewrite Hget.
      unfold Task.throw, Task.notices, Task.outcome, Task.after; simpl.
      split; [reflexivity|]. split.
      * split; [intros _; split; [reflexivity|]|reflexivity].
        unfold plain_name. tauto.
      * split; [|intros _ Hplain; contradiction].
        left. split; [eauto|]. repeat split.
    + (* a plain name without an entry *)
      apply bool_decide_eq_false_1 in Hproto.
      assert (Hget : Obj.get all postId = Obj.Undefined).
      { unfold Obj.get. rewrite Hown, bool_decide_eq_false_2; auto. }
      rewrite Hget. cbn [Obj.truthy_array negb].
      assert (Hget' : Obj.get (<[postId := []]> all) postId = Obj.Own [])
        by (unfold Obj.get; rewrite lookup_insert_eq; reflexivity).
      rewrite Hget'.
      set (sys1 := Sys.mk (Sys.ui sys) (Sys.disk sys) s1 (Sys.DEFAULT_PROFILE sys)).
      destruct (writeJSON_spec W COMMENTS_FILE
                  (<[postId := [] ++ [c]]> (<[postId := []]> all)) sys1)
        as [(s' & ->)|(d' & s' & -> & Hsame)];
        unfold Task.ret, Task.notices, Task.outcome, Task.after; simpl.
      * split; [reflexivity|].
        split; [split; [discriminate|intros [_ Hn]; contradiction]|].
        split.
        -- right. exists c, (<[postId := [c]]> (<[postId := []]> all)).
           rewrite Hearlier.
           split; [reflexivity|]. split; [exact Htext|]. split; [exact Hauthor|].
           split; [reflexivity|]. split; [apply lookup_insert_eq|].
           split; [intros other Hother;
                   rewrite !lookup_insert_ne by congruence; reflexivity|].
           split; [|repeat split].
           rewrite getComments_spec. simpl. unfold Obj.get.
           rewrite lookup_insert_eq. reflexivity.
        -- intros _ _. rewrite getComments_spec. fold all. rewrite Hget.
           reflexivity.
      * split; [reflexivity|].
        split; [split; [discriminate|intros [_ Hn]; contradiction]|].
        split.
        -- left. split; [eauto|]. repeat split; apply Hsame.
        -- intros _ _. rewrite getComments_spec. fold all. rewrite Hget.
           reflexivity.
Qed.

(** ** Moving between screens *)

Lemma getProfile_spec {U} (sys : Sys.t U) :
  Files.getProfile sys
  = (Returned (held (Disk.profile (Sys.disk sys)) (Sys.DEFAULT_PROFILE sys)),
     sys, []).
Proof.
  unfold Files.getProfile, Files.getProfile_ref, Task.bind.
  rewrite readJSON_or_spec. simpl.
  destruct (Disk.profile (Sys.disk sys)); reflexivity.
Qed.

Lemma getCachedFeed_spec {U} (sys : Sys.t U) :
  Files.getCachedFeed sys
  = (Returned (held (Disk.feed (Sys.disk sys)) []), sys, []).
Proof. unfold Files.getCachedFeed. apply readJSON_spec. Qed.

Lemma index_routing_run (sys : Sys.t bool) :
  Index.on_mount sys
  = (Returned tt, mount false sys,
     [router_replace (route (Sys.disk sys) (Sys.DEFAULT_PROFILE sys))]).
Proof.
  unfold Index.on_mount, Task.bind. rewrite getProfile_spec. unfold route.
  destruct (UserProfile.onboarded _); simpl.
  - rewrite getCachedFeed_spec.
    destruct (0 <? length (held (Disk.feed (Sys.disk sys)) []))%nat;
      reflexivity.
  - reflexivity.
Qed.

(** The entry screen never fails and sends the user to exactly one place:
    to onboarding when the profile read is not onboarded (so on a disk
    without a readable profile, as long as the module's default is as it
    was written), else to the feed when a non-empty feed is cached, else to
    the generation screen.  It then stops showing the spinner, and changes
    nothing else. *)
Theorem index_routing (W : World.t) (sys : Sys.t bool) :
  Index.on_mount sys
  = (Returned tt, mount false sys,
     [router_replace (route (Sys.disk sys) (Sys.DEFAULT_PROFILE sys))]) /\
  (route (Sys.disk sys) (Sys.DEFAULT_PROFILE sys) = "/feed" <->
   (exists profile posts,
      Disk.profile (Sys.disk sys) = Disk.Holds profile /\
      UserProfile.onboarded profile = true /\
      Disk.feed (Sys.disk sys) = Disk.Holds posts /\ posts <> [])
   \/
   (exists posts,
      (Disk.profile (Sys.disk sys) = Disk.Absent \/
       Disk.profile (Sys.disk sys) = Disk.Unreadable) /\
      UserProfile.onboarded (Sys.DEFAULT_PROFILE sys) = true /\
      Disk.feed (Sys.disk sys) = Disk.Holds posts /\ posts <> [])) /\
  route Disk.empty Storage.DEFAULT_PROFILE = "/onboarding".
Proof.
  split; [|split; [|reflexivity]].
  - apply index_routing_run.
  - unfold route. destruct (Sys.disk sys) as [dir p f l c]. simpl. split.
    + destruct (UserProfile.onboarded (held p (Sys.DEFAULT_PROFILE sys))) eqn:Hon;
        simpl; [|discriminate].
      destruct (0 <? length (held f []))%nat eqn:Hlen; [|discriminate].
      intros _. apply Nat.ltb_lt in Hlen.
      destruct f as [| |posts]; simpl in Hlen; try lia.
      assert (Hne : posts <> []) by (intros ->; simpl in Hlen; lia).
      destruct p as [| |profile]; simpl in Hon.
      * right. exists posts. auto.
      * right. exists posts. auto.
      * left. exists profile, posts. auto.
    + intros [(profile & posts & -> & Hon & -> & Hne)
             |(posts & Hp & Hon & -> & Hne)].
      * simpl. rewrite Hon. simpl. destruct posts; [congruence|reflexivity].
      * destruct Hp as [-> | ->]; simpl; rewrite Hon; simpl;
          (destruct posts; [congruence|reflexivity]).
Qed.

Lemma finish_run (W : World.t) (sys : Sys.t Onboarding.State) :
  let stored := held (Disk.profile (Sys.disk sys)) (Sys.DEFAULT_PROFILE sys) in
  let profile := Onboarding.finish_profile (Sys.ui sys) stored in
  let default :=
    match Disk.profile (Sys.disk sys) with
    | Disk.Holds _ => Sys.DEFAULT_PROFILE sys
    | _ => profile
    end in
  (exists s',
     Onboarding.finish W sys =
     (Returned tt,
      Sys.mk (Sys.ui sys)
        (Disk.put PROFILE_FILE (Disk.Holds profile) (with_dir (Sys.disk sys)))
        s' default,
      [router_replace "/generating"])) \/
  (exists d' s',
     Onboarding.finish W sys =
     (Thrown FileSystemError, Sys.mk (Sys.ui sys) d' s' default, []) /\
     same_files (Sys.disk sys) d').
Proof.
  cbv zeta.
  unfold Onboarding.finish, Task.bind, Task.state, Files.getProfile_ref.
  rewrite readJSON_or_spec.
  change (Disk.content PROFILE_FILE (Sys.disk sys))
    with (Disk.profile (Sys.disk sys)).
  unfold Files.saveProfile.
  destruct (Disk.profile (Sys.disk sys)) as [| |p0] eqn:Hp; cbn [fst snd held].
  - set (profile := Onboarding.finish_profile _ _).
    set (sys1 := Sys.mk (Sys.ui sys) (Sys.disk sys) (Sys.store sys) profile).
    destruct (writeJSON_spec W PROFILE_FILE profile sys1)
      as [(s' & ->)|(d' & s' & -> & Hsame)]; unfold Task.notice; simpl.
    + left. eexists. reflexivity.
    + right. do 2 eexists. split; [reflexivity|exact Hsame].
  - set (profile := Onboarding.finish_profile _ _).
    set (sys1 := Sys.mk (Sys.ui sys) (Sys.disk sys) (Sys.store sys) profile).
    destruct (writeJSON_spec W PROFILE_FILE profile sys1)
      as [(s' & ->)|(d' & s' & -> & Hsame)]; unfold Task.notice; simpl.
    + left. eexists. reflexivity.
    + right. do 2 eexists. split; [reflexivity|exact Hsame].
  - set (profile := Onboarding.finish_profile _ _). unfold Task.ret.
    destruct (writeJSON_spec W PROFILE_FILE profile sys)
      as [(s' & ->)|(d' & s' & -> & Hsame)]; unfold Task.notice; simpl.
    + left. eexists. reflexivity.
    + right. do 2 eexists. split; [reflexivity|exact Hsame].
Qed.

(** [finish] saves the profile built from the screen's state and then
    moves to the generation screen; when saving fails it throws, does not
    move, and leaves the four files as they were.  Either way, when there
    was no readable profile on the disk it has changed the module's default
    profile into the one it built. *)
Theorem finish_spec (W : World.t) (sys : Sys.t Onboarding.State) :
  let r := Onboarding.finish W sys in
  let stored := held (Disk.profile (Sys.disk sys)) (Sys.DEFAULT_PROFILE sys) in
  let profile := Onboarding.finish_profile (Sys.ui sys) stored in
  (Task.outcome r = Returned tt /\
   Disk.profile (Sys.disk (Task.after r)) = Disk.Holds profile /\
   Disk.feed (Sys.disk (Task.after r)) = Disk.feed (Sys.disk sys) /\
   Disk.likes (Sys.disk (Task.after r)) = Disk.likes (Sys.disk sys) /\
   Disk.comments (Sys.disk (Task.after r)) = Disk.comments (Sys.disk sys) /\
   Task.notices r = [router_replace "/generating"]
   \/
   Task.outcome r = Thrown FileSystemError /\
   same_files (Sys.disk sys) (Sys.disk (Task.after r)) /\
   Task.notices r = []) /\
  Sys.ui (Task.after r) = Sys.ui sys /\
  Sys.DEFAULT_PROFILE (Task.after r)
    = match Disk.profile (Sys.disk sys) with
      | Disk.Holds _ => Sys.DEFAULT_PROFILE sys
      | _ => profile
      end.
Proof.
  intros r stored profile. subst r.
  destruct (finish_run W sys) as [(s' & ->)|(d' & s' & -> & Hsame)];
    unfold Task.outcome, Task.after, Task.notices; simpl.
  - split; [left|split; reflexivity]. repeat split.
  - split; [right|split; reflexivity]. repeat split; apply Hsame.
Qed.

Lemma finish_profile_onboarded st stored :
  UserProfile.onboarded (Onboarding.finish_profile st stored) = true.
Proof. reflexivity. Qed.

Lemma route_onboarded d default :
  UserProfile.onboarded (held (Disk.profile d) default) = true ->
  route d default <> "/onboarding".
Proof.
  intros H. unfold route. rewrite H. simpl.
  destruct (0 <? length (held (Disk.feed d) []))%nat; discriminate.
Qed.

(** After [finish] has saved the profile, the entry screen does not send
    the user back to onboarding, in this run of the application or the
    next.  When there was no readable profile and saving failed, the entry
    screen still does not send the user to onboarding in this run (the
    module's default profile now says onboarded), but does in the next. *)
Theorem finish_then_index (W : World.t) (sys : Sys.t Onboarding.State) :
  let r := Onboarding.finish W sys in
  let same_run := Task.notices (Index.on_mount (mount true (Task.after r))) in
  let next_run := Task.notices (Index.on_mount (restart true (Task.after r))) in
  (Task.outcome r = Returned tt ->
   same_run <> [router_replace "/onboarding"] /\
   next_run <> [router_replace "/onboarding"]) /\
  (Task.outcome r = Thrown FileSystemError ->
   Disk.profile (Sys.disk sys) = Disk.Absent \/
   Disk.profile (Sys.disk sys) = Disk.Unreadable ->
   same_run <> [router_replace "/onboarding"] /\
   next_run = [router_replace "/onboarding"]).
Proof.
  intros r same_run next_run. subst same_run next_run.
  rewrite !index_routing_run. unfold Task.notices. cbn [snd].
  subst r. unfold mount, restart, Sys.boot.
  destruct (finish_run W sys) as [(s' & ->)|(d' & s' & -> & Hsame)];
    unfold Task.outcome, Task.after; cbn [fst snd Sys.disk Sys.DEFAULT_PROFILE].
  - split; [|discriminate]. intros _.
    split; intros [= E]; revert E; apply route_onboarded;
      apply finish_profile_onboarded.
  - split; [discriminate|]. intros _ Hmissing. destruct Hsame as (Hp & _).
    split.
    + intros [= E]; revert E. apply route_onboarded. rewrite <- Hp.
      destruct Hmissing as [-> | ->]; apply finish_profile_onboarded.
    + unfold route. rewrite <- Hp.
      destruct Hmissing as [-> | ->]; reflexivity.
Qed.

(** On a new installation whose platform refuses every change, [finish]
    fails; the entry screen then goes on to the generation screen in this
    run and back to onboarding in the next. *)
Example finish_refused :
  let r := Onboarding.finish world_read_only
             (Sys.boot demo_onboarding Disk.empty) in
  Task.outcome r = Thrown FileSystemError /\
  Sys.disk (Task.after r) = Disk.empty /\
  Task.notices (Index.on_mount (mount true (Task.after r)))
    = [router_replace "/generating"] /\
  Task.notices (Index.on_mount (restart true (Task.after r)))
    = [router_replace "/onboarding"].
Proof. vm_compute. repeat split. Qed.

(** ** The feed screen *)

Section FeedFacts.

Variable W : World.t.
Variable cfg : Config.t.

Lemma toggleLike_run {U} (sys : Sys.t U) (postId : string) :
  let likes := held (Disk.likes (Sys.disk sys)) ∅ in
  let likes' := Obj.set_primitive likes postId
                  (negb (Obj.truthy_bool (Obj.get likes postId))) in
  (exists s',
     Files.toggleLike W postId sys =
     (Returned (Obj.get likes' postId),
      Sys.mk (Sys.ui sys)
        (Disk.put LIKES_FILE (Disk.Holds likes') (with_dir (Sys.disk sys)))
        s' (Sys.DEFAULT_PROFILE sys), [])) \/
  (exists d' s',
     Files.toggleLike W postId sys =
     (Thrown FileSystemError,
      Sys.mk (Sys.ui sys) d' s' (Sys.DEFAULT_PROFILE sys), []) /\
     same_files (Sys.disk sys) d').
Proof.
  intros likes likes'.
  unfold Files.toggleLike, Task.bind. rewrite getLikes_spec.
  fold likes. fold likes'.
  destruct (writeJSON_spec W LIKES_FILE likes' sys)
    as [(s' & ->)|(d' & s' & -> & Hsame)]; unfold Task.ret; simpl.
  - left. eexists. reflexivity.
  - right. do 2 eexists. split; [reflexivity|exact Hsame].
Qed.

(** The two ways [handleLike] can go for a current post. *)
Lemma handleLike_run (sys : Sys.t Feed.State) (post : OutfitPost.t) :
  let id := OutfitPost.id post in
  let likes := held (Disk.likes (Sys.disk sys)) ∅ in
  let likes' := Obj.set_primitive likes id
                  (negb (Obj.truthy_bool (Obj.get likes id))) in
  let isLiked := Obj.get likes' id in
  (exists s',
     Feed.handleLike W (Some post) sys =
     (Returned tt,
      Sys.mk
        (Feed.setPosts (Feed.update_post id (Feed.bump_likes isLiked))
           (Feed.setLikes (fun prev => <[id := isLiked]> prev) (Sys.ui sys)))
        (Disk.put LIKES_FILE (Disk.Holds likes') (with_dir (Sys.disk sys)))
        s' (Sys.DEFAULT_PROFILE sys), [])) \/
  (exists d' s',
     Feed.handleLike W (Some post) sys =
     (Thrown FileSystemError,
      Sys.mk (Sys.ui sys) d' s' (Sys.DEFAULT_PROFILE sys), []) /\
     same_files (Sys.disk sys) d').
Proof.
  intros id likes likes' isLiked.
  unfold Feed.handleLike, Task.bind. fold id.
  destruct (toggleLike_run sys id) as [(s' & ->)|(d' & s' & -> & Hsame)].
  - left. exists s'. reflexivity.
  - right. exists d', s'. split; [reflexivity|exact Hsame].
Qed.

Lemma shown_liked_insert (st : Feed.State) (id other : string) (v : Obj.Value bool) :
  Feed.shown_liked (Feed.setLikes (fun prev => <[id := v]> prev) st) other
  = if String.eqb other id then Obj.truthy_bool v else Feed.shown_liked st other.
Proof.
  unfold Feed.shown_liked, Obj.get. simpl.
  destruct (String.eqb other id) eqn:E.
  - apply String.eqb_eq in E. subst other. rewrite lookup_insert_eq. reflexivity.
  - apply String.eqb_neq in E. rewrite lookup_insert_ne by congruence. reflexivity.
Qed.

Lemma shown_liked_setPosts (st : Feed.State) f (id : string) :
  Feed.shown_liked (Feed.setPosts f st) id = Feed.shown_liked st id.
Proof. reflexivity. Qed.

Lemma liked_set_primitive (likes : gmap string bool) (id other : string) :
  let likes' := Obj.set_primitive likes id
                  (negb (Obj.truthy_bool (Obj.get likes id))) in
  Obj.truthy_bool (Obj.get likes' other)
  = if String.eqb other id then Obj.truthy_bool (Obj.get likes' id)
    else Obj.truthy_bool (Obj.get likes other).
Proof.
  intros likes'. destruct (String.eqb other id) eqn:E.
  - apply String.eqb_eq in E. subst other. reflexivity.
  - apply String.eqb_neq in E. unfold Obj.get. subst likes'.
    rewrite set_primitive_other by exact E. reflexivity.
Qed.

End FeedFacts.

(** Loading the feed never fails and ends with the spinner off.  With a
    non-empty cached feed the screen shows it; otherwise it shows what it
    showed and moves to the generation screen.  Either way the hearts shown
    are then what the likes file says, and nothing on the disk changes. *)
Theorem loadFeed_spec (sys : Sys.t Feed.State) :
  let r := Feed.loadFeed sys in
  let cached := held (Disk.feed (Sys.disk sys)) [] in
  Task.outcome r = Returned tt /\
  Feed.loading (Sys.ui (Task.after r)) = false /\
  in_sync (Task.after r) /\
  Sys.disk (Task.after r) = Sys.disk sys /\
  Sys.DEFAULT_PROFILE (Task.after r) = Sys.DEFAULT_PROFILE sys /\
  Feed.activeIndex (Sys.ui (Task.after r)) = Feed.activeIndex (Sys.ui sys) /\
  (cached <> [] ->
   Feed.posts (Sys.ui (Task.after r)) = cached /\ Task.notices r = []) /\
  (cached = [] ->
   Feed.posts (Sys.ui (Task.after r)) = Feed.posts (Sys.ui sys) /\
   Task.notices r = [router_replace "/generating"]).
Proof.
  intros r cached. subst r.
  unfold Feed.loadFeed, Task.bind, Task.finally, Task.catch, Task.setState.
  cbn [Sys.ui Sys.disk Sys.store Sys.DEFAULT_PROFILE].
  rewrite getLikes_spec. cbn [Sys.ui Sys.disk Sys.store Sys.DEFAULT_PROFILE].
  rewrite getCachedFeed_spec. cbn [Sys.ui Sys.disk Sys.store Sys.DEFAULT_PROFILE].
  fold cached.
  assert (Hsync : forall posts loading st,
            in_sync (Sys.mk
                       (Feed.mk posts loading (Feed.activeIndex st)
                          (Obj.Own <$> held (Disk.likes (Sys.disk sys)) ∅)
                          (Feed.generatingTryOn st) (Feed.commentsVisible st)
                          (Feed.productsVisible st) (Feed.activeComments st))
                       (Sys.disk sys) (Sys.store sys) (Sys.DEFAULT_PROFILE sys))).
  { intros posts loading st id.
    unfold Feed.shown_liked, liked_on_disk, Obj.get. simpl.
    rewrite lookup_fmap.
    destruct (held (Disk.likes (Sys.disk sys)) ∅ !! id); simpl; [reflexivity|].
    destruct (bool_decide (elem_of id JS.Object_prototype_names)); reflexivity. }
  destruct cached as [|post posts] eqn:Hc; simpl;
    unfold Task.outcome, Task.after, Task.notices; simpl.
  - repeat split; try congruence. apply Hsync.
  - repeat split; try congruence. apply Hsync.
Qed.

(** A press on the heart either fails, and then the screen and the four
    files are as they were, or flips the like of the current post on the
    disk, shows the heart as the disk has it, and moves the like count of
    the posts with that id by one, up when the post is now liked and down
    when it is not; nothing else on the screen changes.  If the hearts
    agreed with the likes file before, they do after.  The heart of the
    item at [index] makes that item the active one and then does this for
    the post that was the current one when the screen was last rendered. *)
Theorem handleLike_spec
    (W : World.t) (sys : Sys.t Feed.State) (post : OutfitPost.t) :
  let r := Feed.handleLike W (Some post) sys in
  let id := OutfitPost.id post in
  let liked := liked_on_disk (Sys.disk (Task.after r)) id in
  (in_sync sys -> in_sync (Task.after r)) /\
  Task.notices r = [] /\
  (Task.outcome r = Thrown FileSystemError /\
   Sys.ui (Task.after r) = Sys.ui sys /\
   same_files (Sys.disk sys) (Sys.disk (Task.after r))
   \/
   Task.outcome r = Returned tt /\
   Feed.shown_liked (Sys.ui (Task.after r)) id = liked /\
   (id <> "__proto__" -> liked = negb (liked_on_disk (Sys.disk sys) id)) /\
   Feed.posts (Sys.ui (Task.after r))
     = Feed.update_post id (Feed.bump_likes (Obj.Own liked))
         (Feed.posts (Sys.ui sys)) /\
   Feed.activeIndex (Sys.ui (Task.after r)) = Feed.activeIndex (Sys.ui sys) /\
   Feed.activeComments (Sys.ui (Task.after r)) = Feed.activeComments (Sys.ui sys)) /\
  Feed.handleLike W None sys = (Returned tt, sys, []) /\
  (forall index,
     Feed.onLike W index sys
     = Feed.handleLike W (Feed.currentPost (Sys.ui sys))
         (mount (Feed.setActiveIndex index (Sys.ui sys)) sys)).
Proof.
  intros r id liked. subst r liked.
  assert (Hpress : forall index,
            Feed.onLike W index sys
            = Feed.handleLike W (Feed.currentPost (Sys.ui sys))
                (mount (Feed.setActiveIndex index (Sys.ui sys)) sys)).
  { intros index. unfold Feed.onLike, Task.bind, Task.state, Task.setState, mount.
    simpl. destruct (Feed.handleLike W _ _) as [[o sys'] n]. reflexivity. }
  destruct (handleLike_run W sys post) as [(s' & ->)|(d' & s' & -> & Hsame)];
    fold id; unfold Task.outcome, Task.after, Task.notices;
    cbn [fst snd Sys.ui Sys.disk].
  - set (likes := held (Disk.likes (Sys.disk sys)) ∅).
    set (likes' := Obj.set_primitive likes id
                     (negb (Obj.truthy_bool (Obj.get likes id)))).
    assert (Hdisk : forall other,
              liked_on_disk
                (Disk.put LIKES_FILE (Disk.Holds likes') (with_dir (Sys.disk sys)))
                other
              = Obj.truthy_bool (Obj.get likes' other)) by reflexivity.
    split; [|split; [reflexivity|split; [right|split; [reflexivity|exact Hpress]]]].
    + intros Hsync other. cbn [Sys.ui Sys.disk]. rewrite Hdisk.
      rewrite shown_liked_setPosts, shown_liked_insert. subst likes'.
      rewrite (liked_set_primitive likes id other).
      destruct (String.eqb other id); [reflexivity|]. apply Hsync.
    + split; [reflexivity|]. rewrite Hdisk. split; [|split; [|split]].
      * rewrite shown_liked_setPosts, shown_liked_insert, String.eqb_refl.
        reflexivity.
      * intros Hid. subst likes'. rewrite get_set_primitive by exact Hid.
        reflexivity.
      * reflexivity.
      * split; reflexivity.
  - split; [|split; [reflexivity|split; [left|split; [reflexivity|exact Hpress]]]].
    + intros Hsync other. unfold liked_on_disk. simpl.
      destruct Hsame as (_ & _ & <- & _). apply Hsync.
    + repeat split; apply Hsame.
Qed.

Lemma handleLike_permitted
    (W : World.t) (sys : Sys.t Feed.State) (post : OutfitPost.t) :
  permissive W ->
  let id := OutfitPost.id post in
  let likes := held (Disk.likes (Sys.disk sys)) ∅ in
  let likes' := Obj.set_primitive likes id
                  (negb (Obj.truthy_bool (Obj.get likes id))) in
  exists s',
    Feed.handleLike W (Some post) sys =
    (Returned tt,
     Sys.mk
       (Feed.setPosts (Feed.update_post id (Feed.bump_likes (Obj.get likes' id)))
          (Feed.setLikes (fun prev => <[id := Obj.get likes' id]> prev) (Sys.ui sys)))
       (Disk.put LIKES_FILE (Disk.Holds likes') (with_dir (Sys.disk sys)))
       s' (Sys.DEFAULT_PROFILE sys), []).
Proof.
  intros HW id likes likes'.
  unfold Feed.handleLike, Files.toggleLike, Task.bind. fold id.
  rewrite getLikes_spec. fold likes. fold likes'.
  destruct (writeJSON_permitted W LIKES_FILE likes' sys HW) as (s' & ->).
  exists s'. reflexivity.
Qed.

Lemma bump_likes_back (b : bool) (p : OutfitPost.t) :
  Feed.bump_likes (Obj.Own (negb b)) (Feed.bump_likes (Obj.Own b) p) = p.
Proof.
  destruct p as [id images caption products liked likeCount commentCount
                 comments createdAt].
  unfold Feed.bump_likes. simpl. f_equal. destruct b; simpl; lia.
Qed.

Lemma update_post_back (id : string) (b : bool) (posts : list OutfitPost.t) :
  Feed.update_post id (Feed.bump_likes (Obj.Own (negb b)))
    (Feed.update_post id (Feed.bump_likes (Obj.Own b)) posts) = posts.
Proof.
  unfold Feed.update_post. rewrite map_map.
  rewrite <- (map_id posts) at 2. apply map_ext. intros p.
  destruct (String.eqb (OutfitPost.id p) id) eqn:E.
  - change (OutfitPost.id (Feed.bump_likes (Obj.Own b) p)) with (OutfitPost.id p).
    rewrite E. apply bump_likes_back.
  - rewrite E. reflexivity.
Qed.

Lemma set_primitive_plain (o : gmap string bool) (k : string) (v : bool) :
  k <> "__proto__" -> Obj.set_primitive o k v = <[k := v]> o.
Proof.
  intros Hk. unfold Obj.set_primitive. destruct (o !! k); [reflexivity|].
  apply String.eqb_neq in Hk. rewrite Hk. reflexivity.
Qed.

Lemma handleLike_step
    (W : World.t) (sys : Sys.t Feed.State) (post : OutfitPost.t) :
  permissive W ->
  OutfitPost.id post <> "__proto__" ->
  let id := OutfitPost.id post in
  let b := liked_on_disk (Sys.disk sys) id in
  exists s',
    Feed.handleLike W (Some post) sys =
    (Returned tt,
     Sys.mk
       (Feed.setPosts (Feed.update_post id (Feed.bump_likes (Obj.Own (negb b))))
          (Feed.setLikes (fun prev => <[id := Obj.Own (negb b)]> prev) (Sys.ui sys)))
       (Disk.put LIKES_FILE
          (Disk.Holds (<[id := negb b]> (held (Disk.likes (Sys.disk sys)) ∅)))
          (with_dir (Sys.disk sys)))
       s' (Sys.DEFAULT_PROFILE sys), []).
Proof.
  intros HW Hid id b.
  destruct (handleLike_permitted W sys post HW) as (s' & ->). fold id.
  rewrite get_set_primitive by exact Hid.
  rewrite set_primitive_plain by exact Hid.
  exists s'. reflexivity.
Qed.

(** Two presses on the heart of a post, with the platform permitting the
    writes: every like count on the screen is back where it was, the likes
    file says of every post what it said, and the heart of the post is shown
    as the file has it. *)
Theorem like_then_unlike
    (W : World.t) (sys : Sys.t Feed.State) (post post' : OutfitPost.t) :
  permissive W ->
  OutfitPost.id post <> "__proto__" ->
  OutfitPost.id post' = OutfitPost.id post ->
  let once := Task.after (Feed.handleLike W (Some post) sys) in
  let twice := Task.after (Feed.handleLike W (Some post') once) in
  Feed.posts (Sys.ui twice) = Feed.posts (Sys.ui sys) /\
  (forall id, liked_on_disk (Sys.disk twice) id = liked_on_disk (Sys.disk sys) id) /\
  Feed.shown_liked (Sys.ui twice) (OutfitPost.id post)
    = liked_on_disk (Sys.disk sys) (OutfitPost.id post) /\
  Feed.shown_liked (Sys.ui once) (OutfitPost.id post)
    = negb (liked_on_disk (Sys.disk sys) (OutfitPost.id post)).
Proof.
  intros HW Hid Hsame once twice.
  assert (Hid' : OutfitPost.id post' <> "__proto__") by congruence.
  destruct (handleLike_step W sys post HW Hid) as (s1 & H1).
  assert (Honce : once = Task.after (Returned tt, _, [])) by (subst once; rewrite H1; reflexivity).
  unfold Task.after in Honce. cbn [fst snd] in Honce.
  destruct (handleLike_step W once post' HW Hid') as (s2 & H2).
  assert (Htwice : twice = Task.after (Returned tt, _, []))
    by (subst twice; rewrite H2; reflexivity).
  unfold Task.after in Htwice. cbn [fst snd] in Htwice.
  rewrite Hsame in Htwice. clear H1 H2.
  set (id := OutfitPost.id post) in *.
  set (b := liked_on_disk (Sys.disk sys) id) in *.
  assert (Hb1 : liked_on_disk (Sys.disk once) id = negb b).
  { rewrite Honce. unfold liked_on_disk, Obj.get. simpl.
    rewrite lookup_insert_eq. reflexivity. }
  rewrite Hb1, negb_involutive in Htwice.
  rewrite Htwice. cbn [Sys.ui Sys.disk]. split; [|split; [|split]].
  - rewrite Honce. cbn [Sys.ui Feed.setPosts Feed.setLikes Feed.posts].
    rewrite <- (negb_involutive b) at 1. apply update_post_back.
  - intros other. rewrite Honce. unfold liked_on_disk, Obj.get. simpl.
    destruct (String.eqb other id) eqn:E.
    + apply String.eqb_eq in E. subst other. rewrite lookup_insert_eq.
      reflexivity.
    + apply String.eqb_neq in E.
      rewrite !lookup_insert_ne by congruence. reflexivity.
  - rewrite shown_liked_setPosts, shown_liked_insert, String.eqb_refl. reflexivity.
  - rewrite Honce. cbn [Sys.ui].
    rewrite shown_liked_setPosts, shown_liked_insert, String.eqb_refl. reflexivity.
Qed.

Lemma like_then_unlike_witness :
  let sys := Task.after (Feed.loadFeed (Sys.boot Feed.init demo_feed_disk)) in
  let once := Task.after (Feed.handleLike Demo.world (Some demo_post) sys) in
  let twice := Task.after (Feed.handleLike Demo.world (Some demo_post) once) in
  Feed.posts (Sys.ui twice) = Feed.posts (Sys.ui sys) /\
  (forall id, liked_on_disk (Sys.disk twice) id = liked_on_disk (Sys.disk sys) id) /\
  Feed.shown_liked (Sys.ui twice) (OutfitPost.id demo_post)
    = liked_on_disk (Sys.disk sys) (OutfitPost.id demo_post) /\
  Feed.shown_liked (Sys.ui once) (OutfitPost.id demo_post)
    = negb (liked_on_disk (Sys.disk sys) (OutfitPost.id demo_post)).
Proof.
  apply (like_then_unlike Demo.world
           (Task.after (Feed.loadFeed (Sys.boot Feed.init demo_feed_disk)))
           demo_post demo_post).
  - intros n. reflexivity.
  - discriminate.
  - reflexivity.
Defined.

(** The three ways [addComment] can go. *)
Lemma addComment_run
    (W : World.t) {U} (sys : Sys.t U) (postId text : string) :
  let all := held (Disk.comments (Sys.disk sys)) ∅ in
  let earlier := comments_on_disk (Sys.disk sys) postId in
  (all !! postId = None /\ ~ plain_name postId /\
   exists s',
     Files.addComment W postId text sys =
     (Thrown TypeError,
      Sys.mk (Sys.ui sys) (Sys.disk sys) s' (Sys.DEFAULT_PROFILE sys), [])) \/
  (exists d' s',
     Files.addComment W postId text sys =
     (Thrown FileSystemError,
      Sys.mk (Sys.ui sys) d' s' (Sys.DEFAULT_PROFILE sys), []) /\
     same_files (Sys.disk sys) d') \/
  (exists comment all' s',
     Files.addComment W postId text sys =
     (Returned (earlier ++ [comment]),
      Sys.mk (Sys.ui sys)
        (Disk.put COMMENTS_FILE (Disk.Holds all') (with_dir (Sys.disk sys)))
        s' (Sys.DEFAULT_PROFILE sys), []) /\
     Comment.text comment = text /\
     Comment.author comment = "you" /\
     all' !! postId = Some (earlier ++ [comment]) /\
     forall other, other <> postId -> all' !! other = all !! other).
Proof.
  intros all earlier.
  unfold Files.addComment, Task.bind. rewrite readJSON_spec.
  change (Disk.content COMMENTS_FILE (Sys.disk sys))
    with (Disk.comments (Sys.disk sys)).
  fold all.
  destruct (new_comment_spec W text sys) as (c & s1 & -> & Htext & Hauthor).
  assert (Hearlier : earlier = match all !! postId with
                               | Some l => l
                               | None => []
                               end) by reflexivity.
  set (sys1 := Sys.mk (Sys.ui sys) (Sys.disk sys) s1 (Sys.DEFAULT_PROFILE sys)).
  destruct (all !! postId) as [l|] eqn:Hown.
  - assert (Hget : Obj.get all postId = Obj.Own l)
      by (unfold Obj.get; rewrite Hown; reflexivity).
    rewrite Hget. cbn [Obj.truthy_array negb]. rewrite Hget.
    destruct (writeJSON_spec W COMMENTS_FILE (<[postId := l ++ [c]]> all) sys1)
      as [(s' & ->)|(d' & s' & -> & Hsame)]; unfold Task.ret; simpl.
    + right. right. exists c, (<[postId := l ++ [c]]> all), s'. rewrite Hearlier.
      split; [reflexivity|]. split; [exact Htext|]. split; [exact Hauthor|].
      split; [apply lookup_insert_eq|].
      intros other Hother. apply lookup_insert_ne. congruence.
    + right. left. exists d', s'. split; [reflexivity|exact Hsame].
  - destruct (bool_decide (elem_of postId JS.Object_prototype_names)) eqn:Hproto.
    + apply bool_decide_eq_true_1 in Hproto.
      assert (Hget : Obj.get all postId = Obj.Inherited postId).
      { unfold Obj.get. rewrite Hown, bool_decide_eq_true_2; auto. }
      rewrite Hget. cbn [Obj.truthy_array negb]. rewrite Hget.
      left. split; [reflexivity|]. split; [unfold plain_name; tauto|].
      exists s1. reflexivity.
    + apply bool_decide_eq_false_1 in Hproto.
      assert (Hget : Obj.get all postId = Obj.Undefined).
      { unfold Obj.get. rewrite Hown, bool_decide_eq_false_2; auto. }
      rewrite Hget. cbn [Obj.truthy_array negb].
      assert (Hget' : Obj.get (<[postId := []]> all) postId = Obj.Own [])
        by (unfold Obj.get; rewrite lookup_insert_eq; reflexivity).
      rewrite Hget'.
      destruct (writeJSON_spec W COMMENTS_FILE
                  (<[postId := [] ++ [c]]> (<[postId := []]> all)) sys1)
        as [(s' & ->)|(d' & s' & -> & Hsame)]; unfold Task.ret; simpl.
      * right. right.
        exists c, (<[postId := [c]]> (<[postId := []]> all)), s'.
        rewrite Hearlier.
        split; [reflexivity|]. split; [exact Htext|]. split; [exact Hauthor|].
        split; [apply lookup_insert_eq|].
        intros other Hother. rewrite !lookup_insert_ne by congruence. reflexivity.
      * right. left. exists d', s'. split; [reflexivity|exact Hsame].
Qed.

(** Sending from the comments sheet.  A text of white space only is not
    sent: nothing happens and the field keeps it.  Any other text is sent
    trimmed and the field is emptied, whether or not the comment could be
    stored.  When it is stored, the post's comments on the disk are the
    earlier ones followed by the new one, the sheet shows that list, and
    the posts with that id show its length as their comment count, whatever
    count they showed before; other posts' comments are untouched.  When it
    is not stored, the screen and the four files are as they were. *)
Theorem send_comment_spec
    (W : World.t) (sys : Sys.t Feed.State) (post : OutfitPost.t) (text : string) :
  let r := CommentsSheet.handleSend text (Feed.handleSendComment W (Some post)) sys in
  let id := OutfitPost.id post in
  let earlier := comments_on_disk (Sys.disk sys) id in
  (JS.trim text = "" -> r = (Returned text, sys, [])) /\
  (JS.trim text <> "" ->
   Task.outcome r = Returned "" /\
   Task.notices r = [] /\
   ((exists comment,
       Comment.text comment = JS.trim text /\
       Comment.author comment = "you" /\
       comments_on_disk (Sys.disk (Task.after r)) id = earlier ++ [comment] /\
       (forall other, other <> id ->
          comments_on_disk (Sys.disk (Task.after r)) other
            = comments_on_disk (Sys.disk sys) other) /\
       Feed.activeComments (Sys.ui (Task.after r))
         = Obj.Own (earlier ++ [comment]) /\
       Feed.posts (Sys.ui (Task.after r))
         = Feed.update_post id
             (Feed.with_commentCount (Z.of_nat (length earlier + 1)))
             (Feed.posts (Sys.ui sys)))
    \/
    (Sys.ui (Task.after r) = Sys.ui sys /\
     same_files (Sys.disk sys) (Sys.disk (Task.after r))))).
Proof.
  intros r id earlier. subst r. unfold CommentsSheet.handleSend. split.
  - intros ->. reflexivity.
  - intros Hne. apply truthy_true in Hne. rewrite Hne. cbn [negb].
    unfold Task.bind, Task.catch, Feed.handleSendComment. fold id.
    unfold Task.bind.
    destruct (addComment_run W sys id (JS.trim text))
      as [(_ & _ & s' & ->)
         |[(d' & s' & -> & Hsame)
          |(c & all' & s' & -> & Htext & Hauthor & Hown & Hother)]];
      unfold Task.ret, Task.setState, Task.outcome, Task.after, Task.notices;
      simpl.
    + split; [reflexivity|]. split; [reflexivity|]. right.
      split; [reflexivity|apply same_files_refl].
    + split; [reflexivity|]. split; [reflexivity|]. right.
      split; [reflexivity|exact Hsame].
    + split; [reflexivity|]. split; [reflexivity|]. left. exists c.
      split; [exact Htext|]. split; [exact Hauthor|].
      unfold comments_on_disk. simpl. rewrite Hown.
      split; [reflexivity|]. split.
      * intros other Ho. rewrite (Hother other Ho). reflexivity.
      * split; [reflexivity|]. fold earlier.
        rewrite length_app. reflexivity.
Qed.

(** Neither [generateWithImages] nor [generateTryOn] throws, whatever the
    files, the network and the generation service do: every failure inside
    them ends as a null result. *)
Theorem generation_never_throws
    (W : World.t) (cfg : Config.t) (prompt : string)
    (images : list EncodedImage.t)
    (userPhotoUri outfitImageUrl outfitDescription : string)
    (gender : option Gender) (style : option string) (s : Store.t) :
  (exists v,
     outcome (Gemini.generateWithImages W cfg prompt images s) = Returned v) /\
  (exists v,
     outcome (Gemini.generateTryOn W cfg userPhotoUri outfitImageUrl
                outfitDescription gender style s) = Returned v) /\
  (Config.GEMINI_API_KEY cfg = "" ->
   Gemini.generateWithImages W cfg prompt images s = (Returned None, s, [])).
Proof.
  split; [apply generateWithImages_returns|].
  split; [apply generateTryOn_returns|].
  intros Hkey. unfold Gemini.generateWithImages. rewrite Hkey. reflexivity.
Qed.



(** ** The comments sheet and the caption overlay *)

(** How old a comment is shown to be, for a clock reading [now] and a
    comment stamped [t] (both in milliseconds): "just now" under a minute
    (and for stamps in the future), whole minutes from 1 to 59 under an
    hour, whole hours from 1 to 23 under a day, whole days from then on, all
    rounded down.  A stamp that is no date shows as "NaNd". *)
Theorem timeAgo_spec (now t : Z) :
  let diff := (now - t)%Z in
  let shown := CommentsSheet.timeAgo now (Some t) in
  CommentsSheet.timeAgo now Num.NaN = "NaNd" /\
  ((diff < 60000)%Z -> shown = "just now") /\
  ((60000 <= diff < 3600000)%Z ->
   shown = JS.show_Z (diff / 60000) +:+ "m" /\ (1 <= diff / 60000 <= 59)%Z) /\
  ((3600000 <= diff < 86400000)%Z ->
   shown = JS.show_Z (diff / 3600000) +:+ "h" /\ (1 <= diff / 3600000 <= 23)%Z) /\
  ((86400000 <= diff)%Z ->
   shown = JS.show_Z (diff / 86400000) +:+ "d" /\ (1 <= diff / 86400000)%Z).
Proof.
  intros diff shown. subst shown.
  unfold CommentsSheet.timeAgo, Num.sub, Num.floor_div, Num.lt, Num.show.
  fold diff.
  assert (Hh : (diff / 60000 / 60 = diff / 3600000)%Z)
    by (rewrite Z.div_div by lia; reflexivity).
  assert (Hd : (diff / 60000 / 60 / 24 = diff / 86400000)%Z)
    by (rewrite !Z.div_div by lia; reflexivity).
  rewrite Hd, Hh.
  split; [reflexivity|]. split; [|split; [|split]]; intros H.
  - assert (Hm : (diff / 60000 < 1)%Z) by (apply Z.div_lt_upper_bound; lia).
    apply Z.ltb_lt in Hm. rewrite Hm. reflexivity.
  - assert (Hlo : (1 <= diff / 60000)%Z) by (apply Z.div_le_lower_bound; lia).
    assert (Hhi : (diff / 60000 < 60)%Z) by (apply Z.div_lt_upper_bound; lia).
    split; [|lia].
    rewrite (proj2 (Z.ltb_ge _ _) Hlo), (proj2 (Z.ltb_lt _ _) Hhi). reflexivity.
  - assert (Hm : (60 <= diff / 60000)%Z) by (apply Z.div_le_lower_bound; lia).
    assert (Hlo : (1 <= diff / 3600000)%Z) by (apply Z.div_le_lower_bound; lia).
    assert (Hhi : (diff / 3600000 < 24)%Z) by (apply Z.div_lt_upper_bound; lia).
    split; [|lia].
    rewrite (proj2 (Z.ltb_ge (diff / 60000) 1)) by lia.
    rewrite (proj2 (Z.ltb_ge (diff / 60000) 60)) by lia.
    rewrite (proj2 (Z.ltb_lt _ _) Hhi). reflexivity.
  - assert (Hm : (60 <= diff / 60000)%Z) by (apply Z.div_le_lower_bound; lia).
    assert (Hh' : (24 <= diff / 3600000)%Z) by (apply Z.div_le_lower_bound; lia).
    assert (Hlo : (1 <= diff / 86400000)%Z) by (apply Z.div_le_lower_bound; lia).
    split; [|lia].
    rewrite (proj2 (Z.ltb_ge (diff / 60000) 1)) by lia.
    rewrite (proj2 (Z.ltb_ge (diff / 60000) 60)) by lia.
    rewrite (proj2 (Z.ltb_ge (diff / 3600000) 24)) by lia. reflexivity.
Qed.





(** ** What the feed screen does not save *)

Lemma loadFeed_run (sys : Sys.t Feed.State) :
  let cached := held (Disk.feed (Sys.disk sys)) [] in
  exists ui,
    Feed.loadFeed sys =
    (Returned tt,
     Sys.mk ui (Sys.disk sys) (Sys.store sys) (Sys.DEFAULT_PROFILE sys),
     if (0 <? length cached)%nat then [] else [router_replace "/generating"]) /\
    Feed.posts ui
      = (if (0 <? length cached)%nat then cached else Feed.posts (Sys.ui sys)).
Proof.
  intros cached.
  unfold Feed.loadFeed, Task.bind, Task.finally, Task.catch, Task.setState.
  cbn [Sys.ui Sys.disk Sys.store Sys.DEFAULT_PROFILE].
  rewrite getLikes_spec. cbn [Sys.ui Sys.disk Sys.store Sys.DEFAULT_PROFILE].
  rewrite getCachedFeed_spec. cbn [Sys.ui Sys.disk Sys.store Sys.DEFAULT_PROFILE].
  fold cached.
  destruct (0 <? length cached)%nat; simpl; eexists; split; reflexivity.
Qed.

Lemma handleTryOn_disk
    (W : World.t) (cfg : Config.t) (sys : Sys.t Feed.State) (post : OutfitPost.t) :
  Sys.disk (Task.after (Feed.handleTryOn W cfg (Some post) sys)) = Sys.disk sys.
Proof.
  unfold Feed.handleTryOn.
  destruct (JS.truthy (Config.GEMINI_API_KEY cfg)); cbn [negb]; [|reflexivity].
  unfold Task.bind. rewrite getProfile_spec.
  destruct (JS.truthy_opt (UserProfile.photoUri _)); cbn [negb]; [|reflexivity].
  unfold Task.finally, Task.catch, Task.bind, Task.lift, Task.setState,
    Task.notice. cbn [Sys.ui Sys.disk Sys.store Sys.DEFAULT_PROFILE].
  destruct (Gemini.generateTryOn W cfg _ _ _ _ _ (Sys.store sys))
    as [[[result|e] s'] t]; cbn [fst snd].
  - destruct (JS.truthy_opt result); reflexivity.
  - reflexivity.
Qed.

Lemma handleSendComment_files
    (W : World.t) (sys : Sys.t Feed.State) (post : OutfitPost.t) (text : string) :
  let sys' := Task.after (Feed.handleSendComment W (Some post) text sys) in
  Disk.feed (Sys.disk sys') = Disk.feed (Sys.disk sys) /\
  Disk.profile (Sys.disk sys') = Disk.profile (Sys.disk sys).
Proof.
  unfold Feed.handleSendComment, Task.bind.
  destruct (addComment_run W sys (OutfitPost.id post) text)
    as [(_ & _ & s' & ->)
       |[(d' & s' & -> & Hsame)
        |(c & all' & s' & -> & _)]]; unfold Task.after; simpl.
  - split; reflexivity.
  - destruct Hsame as (Hp & Hf & _). split; congruence.
  - split; reflexivity.
Qed.

Lemma handleLike_files
    (W : World.t) (sys : Sys.t Feed.State) (post : OutfitPost.t) :
  let sys' := Task.after (Feed.handleLike W (Some post) sys) in
  Disk.feed (Sys.disk sys') = Disk.feed (Sys.disk sys) /\
  Disk.profile (Sys.disk sys') = Disk.profile (Sys.disk sys).
Proof.
  destruct (handleLike_run W sys post) as [(s' & ->)|(d' & s' & -> & Hsame)];
    unfold Task.after; simpl.
  - split; reflexivity.
  - destruct Hsame as (Hp & Hf & _). split; congruence.
Qed.

(** Nothing the user does on the feed screen is written to the feed file or
    to the profile: likes go to the likes file and comments to the comments
    file, but the like counts, the comment counts and the try-on images the
    screen shows live in the screen only.  So when the application is
    started again on a cached feed, the screen shows the posts as the
    generation screen cached them. *)
Theorem feed_edits_are_not_saved
    (W : World.t) (cfg : Config.t) (sys : Sys.t Feed.State)
    (post : OutfitPost.t) (text : string) :
  let cached := held (Disk.feed (Sys.disk sys)) [] in
  Forall (fun handler : Task.t Feed.State unit =>
            let sys' := Task.after (handler sys) in
            Disk.feed (Sys.disk sys') = Disk.feed (Sys.disk sys) /\
            Disk.profile (Sys.disk sys') = Disk.profile (Sys.disk sys) /\
            (cached <> [] ->
             Feed.posts (Sys.ui (Task.after (Feed.loadFeed (restart Feed.init sys'))))
               = cached))
         (feed_handlers W cfg post text).
Proof.
  intros cached.
  assert (Hreload : forall sys' : Sys.t Feed.State,
            Disk.feed (Sys.disk sys') = Disk.feed (Sys.disk sys) ->
            cached <> [] ->
            Feed.posts (Sys.ui (Task.after (Feed.loadFeed (restart Feed.init sys'))))
              = cached).
  { intros sys' Hfeed Hne.
    destruct (loadFeed_run (restart Feed.init sys')) as (ui & -> & Hposts).
    unfold Task.after. cbn [fst snd Sys.ui]. rewrite Hposts.
    unfold restart, Sys.boot. cbn [Sys.disk]. rewrite Hfeed. fold cached.
    destruct cached; [congruence|reflexivity]. }
  assert (Hall : forall handler : Task.t Feed.State unit,
            Disk.feed (Sys.disk (Task.after (handler sys))) = Disk.feed (Sys.disk sys) /\
            Disk.profile (Sys.disk (Task.after (handler sys)))
              = Disk.profile (Sys.disk sys) ->
            let sys' := Task.after (handler sys) in
            Disk.feed (Sys.disk sys') = Disk.feed (Sys.disk sys) /\
            Disk.profile (Sys.disk sys') = Disk.profile (Sys.disk sys) /\
            (cached <> [] ->
             Feed.posts (Sys.ui (Task.after (Feed.loadFeed (restart Feed.init sys'))))
               = cached)).
  { intros handler [Hf Hp] sys'. split; [exact Hf|]. split; [exact Hp|].
    apply Hreload. exact Hf. }
  unfold feed_handlers.
  apply List.Forall_cons; [apply Hall|].
  { destruct (loadFeed_run sys) as (ui & -> & _). split; reflexivity. }
  apply List.Forall_cons; [apply Hall; split; reflexivity|].
  apply List.Forall_cons; [apply Hall; apply handleLike_files|].
  apply List.Forall_cons; [apply Hall|].
  { unfold Feed.handleOpenComments, Task.bind. rewrite getComments_spec.
    split; reflexivity. }
  apply List.Forall_cons; [apply Hall; apply handleSendComment_files|].
  apply List.Forall_cons; [apply Hall|apply List.Forall_nil].
  rewrite handleTryOn_disk. split; reflexivity.
Qed.
